(** * Schema validation and error normalisation of resume-craft-common

    A shallow embedding of the schema-validator package
    ([common-validations.ts], [schema-ajv-validator.ts]): the schema
    fragment builders, the custom keyword predicates, the error
    normaliser [formatAjvErrors] and the entry point
    [ajvSchemaValidator]; and of code around it: the validation
    pipes and the trimming middleware of the Nest layer, the cursor
    and pagination helpers, and [chunkDocumentArray].

    Conventions of the embedding.
    - The numbers of a request, with which the keyword predicates
      and the duration converters compute, are doubles: [float] of
      the Standard Library, with its products and comparisons.  A
      count or a limit of a schema (a length, [minItems]) is an
      integer of [Z].
    - A JavaScript string is a [string]; a function of the runtime
      that depends on more than the ASCII characters of a string is
      a parameter of the code that calls it, or the statement about
      it names the strings it is about.
    - [undefined] and [null] of an optional property are [None].
    - A function that can raise returns a [result]. *)

From Stdlib Require Import String Ascii List ZArith Bool Arith Lia DecimalString.
From Stdlib Require Import Sorting.Sorted Sorting.Permutation.
From Stdlib Require Import Floats.
Import ListNotations.
Open Scope string_scope.
Open Scope Z_scope.

(** ** JavaScript runtime helpers *)

Module JS.

(** Exceptions raised by the modelled code or by the engine. *)
Inductive exn : Type :=
| TypeError (msg : string)
| Error (msg : string).

Inductive result (A : Type) : Type :=
| Ok (a : A)
| Throw (e : exn).
Arguments Ok {A} a.
Arguments Throw {A} e.

Definition bind {A B} (m : result A) (k : A -> result B) : result B :=
  match m with
  | Ok a => k a
  | Throw e => Throw e
  end.

(** [s || d] for an optional string: [undefined] and [''] are falsy. *)
Definition or_else (s : option string) (d : string) : string :=
  match s with
  | Some v => if String.eqb v "" then d else v
  | None => d
  end.

(** Truthiness of an optional string. *)
Definition truthy (s : option string) : bool :=
  match s with
  | Some v => negb (String.eqb v "")
  | None => false
  end.

(** [n || d] for an optional number: [undefined] and [0] are falsy. *)
Definition num_or_else (n : option Z) (d : Z) : Z :=
  match n with
  | Some v => if v =? 0 then d else v
  | None => d
  end.

Definition is_upper (c : ascii) : bool :=
  let n := nat_of_ascii c in (65 <=? n)%nat && (n <=? 90)%nat.

Definition lower_char (c : ascii) : ascii :=
  if is_upper c then ascii_of_nat (nat_of_ascii c + 32) else c.

(** [s.toLowerCase()] on ASCII text: the letters A to Z are folded,
    every other character is kept.  The model calls it where the
    result is compared with ASCII text (the prefix of a uuid); the
    keyword predicates take the [toLowerCase] of the runtime as a
    parameter. *)
Fixpoint toLowerCase (s : string) : string :=
  match s with
  | EmptyString => EmptyString
  | String c rest => String (lower_char c) (toLowerCase rest)
  end.

Definition is_digit (c : ascii) : bool :=
  let n := nat_of_ascii c in (48 <=? n)%nat && (n <=? 57)%nat.

(** [/\d+/.test(s)]: some character of [s] is a digit. *)
Fixpoint has_digit (s : string) : bool :=
  match s with
  | EmptyString => false
  | String c rest => is_digit c || has_digit rest
  end.

Fixpoint all_digits (s : string) : bool :=
  match s with
  | EmptyString => true
  | String c rest => is_digit c && all_digits rest
  end.

(** [/^\d+$/.test(s)]: [s] is a non-empty run of digits. *)
Definition is_index (s : string) : bool :=
  negb (String.eqb s "") && all_digits s.

(** [s.includes(c)] for a one-character needle. *)
Fixpoint includes_char (c : ascii) (s : string) : bool :=
  match s with
  | EmptyString => false
  | String d rest => Ascii.eqb c d || includes_char c rest
  end.

(** [s.substring(1)]. *)
Definition substring1 (s : string) : string :=
  match s with
  | EmptyString => EmptyString
  | String _ rest => rest
  end.

(** [s.replace(/c/g, d)] for one-character [c] and [d]. *)
Fixpoint replace_char (c d : ascii) (s : string) : string :=
  match s with
  | EmptyString => EmptyString
  | String e rest =>
      String (if Ascii.eqb e c then d else e) (replace_char c d rest)
  end.

(** [s.split(c)]: the pieces of [s] between the occurrences of [c];
    never empty, [''.split(c)] is [['']]. *)
Fixpoint split (c : ascii) (s : string) : list string :=
  match s with
  | EmptyString => [EmptyString]
  | String d rest =>
      if Ascii.eqb d c then EmptyString :: split c rest
      else match split c rest with
           | [] => [String d EmptyString]
           | piece :: pieces => String d piece :: pieces
           end
  end.

(** [xs.filter(Boolean)] on strings: the empty string is falsy. *)
Definition filter_Boolean (xs : list string) : list string :=
  filter (fun s => negb (String.eqb s "")) xs.

(** [xs.join(sep)]. *)
Definition join (sep : string) (xs : list string) : string :=
  String.concat sep xs.

(** [s.startsWith(p)]. *)
Definition startsWith (s p : string) : bool := String.prefix p s.

Definition is_space (c : ascii) : bool :=
  let n := nat_of_ascii c in
  (n =? 32)%nat || ((9 <=? n)%nat && (n <=? 13)%nat).

(** [s.trim().length > 0] on ASCII text: some character of [s] is
    not ASCII white space.  A statement that depends on the outcome
    for the strings of a request names ASCII text. *)
Fixpoint trim_nonempty (s : string) : bool :=
  match s with
  | EmptyString => false
  | String c rest => negb (is_space c) || trim_nonempty rest
  end.

(** [xs.some((x, index) => p(x, index))]. *)
Definition some_indexed {A} (p : A -> nat -> bool) (xs : list A) : bool :=
  existsb (fun ix => p (snd ix) (fst ix)) (combine (seq 0 (length xs)) xs).

(** [xs.map(f)] for a callback that can raise: the first exception
    ends the loop. *)
Fixpoint map_result {A B} (f : A -> result B) (xs : list A) : result (list B) :=
  match xs with
  | [] => Ok []
  | x :: rest =>
      bind (f x) (fun y =>
        bind (map_result f rest) (fun ys => Ok (y :: ys)))
  end.

(** [xs.some(p)] for a callback that can raise: the items are tested
    in order, up to the first that passes. *)
Fixpoint some_result {A} (p : A -> result bool) (xs : list A) : result bool :=
  match xs with
  | [] => Ok false
  | x :: rest =>
      bind (p x) (fun b => if b then Ok true else some_result p rest)
  end.

End JS.

(** Lookup in an object kept as a list of entries. *)
Fixpoint lookup {V} (key : string) (entries : list (string * V)) : option V :=
  match entries with
  | [] => None
  | (k, v) :: rest => if String.eqb k key then Some v else lookup key rest
  end.

(** ** Values of a request

    What [JSON.parse] gives the handlers: a number is a double.  The
    keyword predicates and the duration converters compute with
    these. *)

#[local] Set Warnings "-register-all".

Inductive Value : Type :=
| VNull
| VBool (b : bool)
| VNum (x : float)
| VStr (s : string)
| VArr (items : list Value)
| VObj (props : list (string * Value)).

(** A primitive value, [undefined] included. *)
Inductive Primitive : Type :=
| PUndefined
| PNull
| PBool (b : bool)
| PNum (x : float)
| PStr (s : string).

(** ** Duration conversion *)

(** [convertToMinutes] as exported from [common-validations.ts]. *)
Definition convertToMinutes (value : float) (unit : string) : float :=
  if String.eqb unit "hours" then value * 60
  else if String.eqb unit "days" then value * 24 * 60
  else value.

(** ** Custom keywords of [schema-ajv-validator.ts] *)

Module Keywords.

(** [!data.length]: the guard every array keyword starts with
    ([Array.isArray(data)] holds of a list). *)
Definition no_items {A} (data : list A) : bool :=
  match data with
  | [] => true
  | _ :: _ => false
  end.

(** [validateFieldOptionOrders] read at the type of its signature,
    [Array<{ order: number }>], the orders being whole numbers. *)
Record FieldOptionOrder : Type := { order : Z }.

Definition validateFieldOptionOrders (data : list FieldOptionOrder) : bool :=
  if no_items data then true
  else
    let orders := map order data in
    if negb (nth 0 orders 0 =? 1) then false
    else negb (JS.some_indexed
                 (fun order index =>
                    (0 <? index)%nat
                    && negb (order =? nth (index - 1) orders 0 + 1))
                 orders).

(** The two keywords on strings that need no clock. *)
Definition isNotEmpty (data : string) : bool := JS.trim_nonempty data.

(** The keywords registered on arrays, with their error messages. *)
Inductive ArrayKeyword : Type :=
| KwTimeRelation
| KwUniqueEscalationOrders
| KwUniqueSeverityLevels
| KwUniquePolicyIds
| KwUniquePositions
| KwUniqueTicketIds
| KwUniqueFieldOptionNames
| KwFieldOptionOrders.

Definition keyword_name (k : ArrayKeyword) : string :=
  match k with
  | KwTimeRelation => "validateTimeRelation"
  | KwUniqueEscalationOrders => "validateUniqueEscalationOrders"
  | KwUniqueSeverityLevels => "validateUniqueSeverityLevels"
  | KwUniquePolicyIds => "validateUniquePolicyIds"
  | KwUniquePositions => "validateUniquePositions"
  | KwUniqueTicketIds => "validateUniqueTicketIds"
  | KwUniqueFieldOptionNames => "validateUniqueFieldOptionNames"
  | KwFieldOptionOrders => "validateFieldOptionOrders"
  end.

Definition error_message (k : ArrayKeyword) : string :=
  match k with
  | KwTimeRelation =>
      "Resolution time must be strictly greater than response time for each severity level"
  | KwUniqueEscalationOrders => "Escalation orders must be unique"
  | KwUniqueSeverityLevels =>
      "Service level targets must have unique severity levels"
  | KwUniquePolicyIds => "Policy IDs must be unique"
  | KwUniquePositions => "Positions must be unique"
  | KwUniqueTicketIds => "Ticket IDs must be unique"
  | KwUniqueFieldOptionNames =>
      "Field options must have unique names (case insensitive)"
  | KwFieldOptionOrders =>
      "Field option orders must be in sequence starting from 1 (e.g., 1,2,3...)"
  end.


End Keywords.

(** ** The keyword predicates on the data of a request

    The engine calls a predicate of an array keyword on every array,
    whatever its items are: an item can be [null], lack the property
    the predicate reads, or hold a value of another type there. *)

Module Untyped.

(** The built-in functions the predicates call. *)
Record Builtins : Type := {
  (** [s.toLowerCase()] *)
  toLowerCase : string -> string;
  (** [Number(s)] of a string *)
  Number : string -> float;
  (** [String(v)] of an array or an object *)
  toString : Value -> string;
  (** [s <= t] on strings *)
  string_le : string -> string -> bool;
  (** the time value of [new Date(year, monthIndex, day)] after
      [setHours(0, 0, 0, 0)], for finite arguments *)
  Date_at_midnight : float -> float -> float -> float
}.

Definition num (x : float) : option Value := Some (VNum x).
Definition str (s : string) : option Value := Some (VStr s).


(** [item.key] of an item other than [null], for the keys the
    predicates read: none of them names a member of a prototype, so
    only an object has such a property, and as its own. *)
Definition own (key : string) (item : Value) : option Value :=
  match item with
  | VObj props => lookup key props
  | _ => None
  end.

(** [item.key]: reading a property of [null] raises. *)
Definition get (item : Value) (key : string) : JS.result (option Value) :=
  match item with
  | VNull =>
      JS.Throw (JS.TypeError
                  ("Cannot read properties of null (reading '" ++ key ++ "')"))
  | _ => JS.Ok (own key item)
  end.

(** The comparison a [Set] makes.  The arrays and the objects of
    parsed data are all distinct objects. *)
Definition SameValueZero (a b : option Value) : bool :=
  match a, b with
  | None, None => true
  | Some VNull, Some VNull => true
  | Some (VBool x), Some (VBool y) => Bool.eqb x y
  | Some (VNum x), Some (VNum y) =>
      (x =? y)%float || (PrimFloat.is_nan x && PrimFloat.is_nan y)
  | Some (VStr x), Some (VStr y) => String.eqb x y
  | _, _ => false
  end.

Definition Set_add (set : list (option Value)) (key : option Value)
  : list (option Value) :=
  if existsb (fun member => SameValueZero member key) set then set
  else (set ++ [key])%list.

(** [new Set(keys)], as the list of its members. *)
Definition new_Set (keys : list (option Value)) : list (option Value) :=
  fold_left Set_add keys [].

(** The uniqueness keywords on a property share one body: map each
    item to the property and compare the size of the set of the
    values with their number. *)
Definition unique_keys (key : string) (data : list Value) : JS.result bool :=
  if Keywords.no_items data then JS.Ok true
  else
    JS.bind (JS.map_result (fun item => get item key) data) (fun keys =>
      JS.Ok (length (new_Set keys) =? length keys)%nat).

Definition validateUniqueEscalationOrders := unique_keys "escalationOrder".
Definition validateUniqueSeverityLevels := unique_keys "severity".
Definition validateUniquePolicyIds := unique_keys "policyId".
Definition validateUniquePositions := unique_keys "position".
Definition validateUniqueTicketIds := unique_keys "ticketId".

Section WithBuiltins.

Variable rt : Builtins.

Definition ToPrimitive (v : option Value) : Primitive :=
  match v with
  | None => PUndefined
  | Some VNull => PNull
  | Some (VBool b) => PBool b
  | Some (VNum x) => PNum x
  | Some (VStr s) => PStr s
  | Some object => PStr (toString rt object)
  end.

Definition ToNumber (p : Primitive) : float :=
  match p with
  | PUndefined => nan
  | PNull => 0
  | PBool b => if b then 1 else 0
  | PNum x => x
  | PStr s => Number rt s
  end.

Definition to_number (v : option Value) : float := ToNumber (ToPrimitive v).

(** [a <= b]: two strings are compared as strings, any other pair
    as numbers; a comparison with [NaN] is false. *)
Definition less_or_equal (a b : option Value) : bool :=
  match ToPrimitive a, ToPrimitive b with
  | PStr s, PStr t => string_le rt s t
  | pa, pb => (ToNumber pa <=? ToNumber pb)%float
  end.

(** The converter local to the validator: it lower-cases the unit
    and knows months.  A unit that is no string has no
    [toLowerCase]; a product converts the value to a number, the
    last two cases return it as it is. *)
Definition convertToMinutes (value unit : option Value)
  : JS.result (option Value) :=
  match unit with
  | Some (VStr unit) =>
      let u := toLowerCase rt unit in
      JS.Ok
        (if String.eqb u "months"
         then Some (VNum (to_number value * 30 * 24 * 60))
         else if String.eqb u "days"
         then Some (VNum (to_number value * 24 * 60))
         else if String.eqb u "hours"
         then Some (VNum (to_number value * 60))
         else if String.eqb u "minutes" then value
         else value)
  | None | Some VNull =>
      JS.Throw (JS.TypeError
                  "Cannot read properties of undefined (reading 'toLowerCase')")
  | Some _ => JS.Throw (JS.TypeError "unit.toLowerCase is not a function")
  end.

(** What the converter returns for a number and a unit. *)
Definition minutes (value : float) (unit : string) : float :=
  let u := toLowerCase rt unit in
  if String.eqb u "months" then value * 30 * 24 * 60
  else if String.eqb u "days" then value * 24 * 60
  else if String.eqb u "hours" then value * 60
  else value.

(** The callback of [data.some]:
    [resolveMinutes <= respondMinutes]. *)
Definition resolve_not_after_respond (target : Value) : JS.result bool :=
  JS.bind (get target "resolveWithinValue") (fun resolveValue =>
  JS.bind (get target "resolveWithinUnit") (fun resolveUnit =>
  JS.bind (convertToMinutes resolveValue resolveUnit) (fun resolveMinutes =>
  JS.bind (get target "respondWithinValue") (fun respondValue =>
  JS.bind (get target "respondWithinUnit") (fun respondUnit =>
  JS.bind (convertToMinutes respondValue respondUnit) (fun respondMinutes =>
  JS.Ok (less_or_equal resolveMinutes respondMinutes))))))).

Definition validateTimeRelation (data : list Value) : JS.result bool :=
  if Keywords.no_items data then JS.Ok true
  else
    JS.bind (JS.some_result resolve_not_after_respond data) (fun found =>
      JS.Ok (negb found)).

(** [prev + 1]: a concatenation when [prev] is a string, an array or
    an object, an addition of numbers otherwise. *)
Definition plus_one (prev : option Value) : Primitive :=
  match ToPrimitive prev with
  | PStr s => PStr (s ++ "1")
  | p => PNum (ToNumber p + 1)
  end.

(** [v === p] for a number or a string [p]. *)
Definition strict_equal (v : option Value) (p : Primitive) : bool :=
  match v, p with
  | Some (VNum x), PNum y => (x =? y)%float
  | Some (VStr s), PStr t => String.eqb s t
  | _, _ => false
  end.

Definition validateFieldOptionOrders (data : list Value) : JS.result bool :=
  if Keywords.no_items data then JS.Ok true
  else
    JS.bind (JS.map_result (fun item => get item "order") data) (fun orders =>
      JS.Ok
        (if negb (strict_equal (nth 0 orders None) (PNum 1)) then false
         else negb (JS.some_indexed
                      (fun order index =>
                         (0 <? index)%nat
                         && negb (strict_equal
                                    order
                                    (plus_one (nth (index - 1) orders None))))
                      orders))).

(** [item.name.toLowerCase()]: a name that is no string has no
    [toLowerCase]. *)
Definition lower_name (item : Value) : JS.result (option Value) :=
  JS.bind (get item "name") (fun name =>
    match name with
    | Some (VStr s) => JS.Ok (Some (VStr (toLowerCase rt s)))
    | None | Some VNull =>
        JS.Throw (JS.TypeError
                    "Cannot read properties of undefined (reading 'toLowerCase')")
    | Some _ => JS.Throw (JS.TypeError "item.name.toLowerCase is not a function")
    end).

Definition validateUniqueFieldOptionNames (data : list Value) : JS.result bool :=
  if Keywords.no_items data then JS.Ok true
  else
    JS.bind (JS.map_result lower_name data) (fun names =>
      JS.Ok (length (new_Set names) =? length names)%nat).




(** The predicates of the keywords registered on arrays. *)
Definition validate (k : Keywords.ArrayKeyword) : list Value -> JS.result bool :=
  match k with
  | Keywords.KwTimeRelation => validateTimeRelation
  | Keywords.KwUniqueEscalationOrders => validateUniqueEscalationOrders
  | Keywords.KwUniqueSeverityLevels => validateUniqueSeverityLevels
  | Keywords.KwUniquePolicyIds => validateUniquePolicyIds
  | Keywords.KwUniquePositions => validateUniquePositions
  | Keywords.KwUniqueTicketIds => validateUniqueTicketIds
  | Keywords.KwUniqueFieldOptionNames => validateUniqueFieldOptionNames
  | Keywords.KwFieldOptionOrders => validateFieldOptionOrders
  end.

End WithBuiltins.

End Untyped.

(** ** JSON values and schema fragments *)

(** A value as the engine of the model receives it; its numbers are
    whole numbers. *)
Inductive Json : Type :=
| JNull
| JBool (b : bool)
| JNum (n : Z)
| JStr (s : string)
| JArr (items : list Json)
| JObj (props : list (string * Json)).

(** The [errorMessage] keyword of a schema: one text for the whole
    node, or an object giving a text per keyword, per missing required
    property and per child property. *)
Inductive ErrorMessage : Type :=
| EMText (text : string)
| EMObject (keywords : list (string * string))
           (required : list (string * string))
           (properties : list (string * string)).

(** The value of [additionalProperties] in the fragments of the
    model: a boolean, or a value that is neither a boolean nor a
    schema, which the engine refuses to compile. *)
Inductive NoSchema : Type :=
| NSNull
| NSNumber (n : Z)
| NSString (s : string)
| NSArray (items : list Json).

Inductive AdditionalProperties : Type :=
| APBool (b : bool)
| APOther (v : NoSchema).

(** A schema fragment is a JSON object; it is kept as the list of its
    keywords, those the modelled builders produce.  [KOptional] and
    [KTransform] stand for TypeBox's symbol-keyed marks, which the
    engine does not see. *)
Inductive Keyword : Type :=
| KType (t : string)
| KFormat (f : string)
| KEnum (values : list string)
| KPattern (p : string)
| KIsNotEmpty (b : bool)
| KMinItems (n : Z)
| KMaxItems (n : Z)
| KItems (s : list Keyword)
| KProperties (ps : list (string * list Keyword))
| KRequired (names : list string)
| KAdditionalProperties (v : AdditionalProperties)
| KAllOf (ss : list (list Keyword))
| KIf (s : list Keyword)
| KThen (s : list Keyword)
| KErrorMessage (em : ErrorMessage)
| KOptional
| KTransform.

Definition Schema : Type := list Keyword.

(** Reading a keyword of a schema object: the first entry counts. *)
Fixpoint find_keyword {A} (pick : Keyword -> option A) (schema : Schema)
  : option A :=
  match schema with
  | [] => None
  | k :: rest =>
      match pick k with
      | Some a => Some a
      | None => find_keyword pick rest
      end
  end.

Definition schema_type := find_keyword
  (fun k => match k with KType t => Some t | _ => None end).
Definition schema_format := find_keyword
  (fun k => match k with KFormat f => Some f | _ => None end).
Definition schema_enum := find_keyword
  (fun k => match k with KEnum vs => Some vs | _ => None end).
Definition schema_pattern := find_keyword
  (fun k => match k with KPattern p => Some p | _ => None end).
Definition schema_isNotEmpty := find_keyword
  (fun k => match k with KIsNotEmpty b => Some b | _ => None end).
Definition schema_minItems := find_keyword
  (fun k => match k with KMinItems n => Some n | _ => None end).
Definition schema_maxItems := find_keyword
  (fun k => match k with KMaxItems n => Some n | _ => None end).
Definition schema_items := find_keyword
  (fun k => match k with KItems s => Some s | _ => None end).
Definition schema_properties := find_keyword
  (fun k => match k with KProperties ps => Some ps | _ => None end).
Definition schema_required := find_keyword
  (fun k => match k with KRequired ns => Some ns | _ => None end).
Definition schema_additionalProperties := find_keyword
  (fun k => match k with KAdditionalProperties v => Some v | _ => None end).
Definition schema_allOf := find_keyword
  (fun k => match k with KAllOf ss => Some ss | _ => None end).
Definition schema_if := find_keyword
  (fun k => match k with KIf s => Some s | _ => None end).
Definition schema_then := find_keyword
  (fun k => match k with KThen s => Some s | _ => None end).
Definition schema_errorMessage := find_keyword
  (fun k => match k with KErrorMessage em => Some em | _ => None end).

(** [errorMessage.<keyword>] when the keyword's entry is a text. *)
Definition errorMessage_text (em : ErrorMessage) (kw : string) : option string :=
  match em with
  | EMText _ => None
  | EMObject keywords _ _ => lookup kw keywords
  end.

(** *** The TypeBox builders used by the fragments

    TypeBox is a library the package builds its fragments with: each
    builder returns the options it is given together with the [type]
    (and [items], [properties], [required]) of the node.  The order
    of the keywords in the object is immaterial: the engine visits
    them in an order of its own. *)

Definition Type_String (options : Schema) : Schema :=
  KType "string" :: options.

Definition Type_Number (options : Schema) : Schema :=
  KType "number" :: options.

Definition Type_Array (items : Schema) (options : Schema) : Schema :=
  KType "array" :: KItems items :: options.

Definition Type_Unknown : Schema := [].

Definition Type_Optional (schema : Schema) : Schema :=
  (schema ++ [KOptional])%list.

Definition IsOptional (schema : Schema) : bool :=
  existsb (fun k => match k with KOptional => true | _ => false end) schema.

(** [Type.Object]: the properties that are not optional are required,
    and [required] is left out when there is none. *)
Definition Type_Object (properties : list (string * Schema))
           (options : Schema) : Schema :=
  let requiredKeys :=
    map fst (filter (fun p => negb (IsOptional (snd p))) properties) in
  KType "object" :: KProperties properties
    :: match requiredKeys with
       | [] => options
       | _ :: _ => KRequired requiredKeys :: options
       end.

(** ** Raw errors of the engine *)

Module Err.

(** An [ErrorObject] of the engine, with the parameters the
    normaliser reads. *)
Inductive ErrorObject : Type := Build_ErrorObject {
  keyword : string;
  instancePath : string;
  schemaPath : string;
  params : Params;
  message : option string;
  parentSchema : option Schema
}
with Params : Type := Build_Params {
  missingProperty : option string;
  additionalProperty : option string;
  format : option string;
  type : option string;
  allowedValues : option (list string);
  errors : option (list ErrorObject)
}.

Definition no_params : Params :=
  Build_Params None None None None None None.

(** [{ ...error, message: text }]. *)
Definition with_message (error : ErrorObject) (text : string) : ErrorObject :=
  Build_ErrorObject (keyword error) (instancePath error) (schemaPath error)
                    (params error) (Some text) (parentSchema error).

End Err.

(** ** The error normaliser, [formatAjvErrors] *)

Record ValidationError : Type := {
  field : string;
  message : string;
  path : option (list string)
}.

Module Entry.
(** A value of the normaliser's [errorMap]. *)
Record t : Type := {
  field : string;
  message : string;
  priority : Z;
  path : option (list string)
}.
End Entry.

(** A JavaScript [Map] with string keys: entries in insertion order,
    one per key; setting a present key keeps its place. *)
Definition Map_get {V} (m : list (string * V)) (key : string) : option V :=
  lookup key m.

Fixpoint Map_set {V} (m : list (string * V)) (key : string) (v : V)
  : list (string * V) :=
  match m with
  | [] => [(key, v)]
  | (k, old) :: rest =>
      if String.eqb k key then (k, v) :: rest
      else (k, old) :: Map_set rest key v
  end.

Definition Map_values {V} (m : list (string * V)) : list V := map snd m.

Definition dquote : string := String (ascii_of_nat 34) EmptyString.

(** The message the engine gives to a failed [then] branch. *)
Definition then_schema_message : string :=
  "must match " ++ dquote ++ "then" ++ dquote ++ " schema".

Definition _formatArrayPath (path : string) : string :=
  if String.eqb path "" then ""
  else
    let parts := JS.filter_Boolean (JS.split "/" (JS.substring1 path)) in
    fold_left
      (fun result ip =>
         let '(index, part) := ip in
         if JS.is_index part then result ++ "[" ++ part ++ "]"
         else result ++ (if (index =? 0)%nat then part else "." ++ part))
      (combine (seq 0 (length parts)) parts) "".

Definition _getFieldFromPath (path : string) : string :=
  if String.eqb path "" then ""
  else if JS.includes_char "/" path && JS.has_digit path
       then _formatArrayPath path
       else JS.replace_char "/" "." (JS.substring1 path).

Definition _getFormatErrorMessage (error : Err.ErrorObject) : string :=
  match Err.format (Err.params error) with
  | Some f =>
      if String.eqb f "email" then "Please enter a valid email address"
      else if String.eqb f "date-time" then "Please enter a valid date and time"
      else if String.eqb f "uuid" then "Invalid ID format"
      else JS.or_else (Err.message error) "Invalid format"
  | None => JS.or_else (Err.message error) "Invalid format"
  end.

(** [`${expectedType}`] of an optional string. *)
Definition show (s : option string) : string :=
  match s with
  | Some v => v
  | None => "undefined"
  end.

Definition _getTypeErrorMessage (error : Err.ErrorObject) : string :=
  let expectedType := Err.type (Err.params error) in
  let field := _getFieldFromPath (Err.instancePath error) in
  let parentSchema := Err.parentSchema error in
  match option_map schema_enum parentSchema with
  | Some (Some enum) => field ++ " must be one of: " ++ JS.join ", " enum
  | _ =>
      let override :=
        match parentSchema with
        | Some schema =>
            match schema_errorMessage schema with
            | Some em => errorMessage_text em "type"
            | None => None
            end
        | None => None
        end in
      if JS.truthy override then show override
      else field ++ " must be a " ++ show expectedType
  end.

Definition _getEnumErrorMessage (error : Err.ErrorObject) : string :=
  match Err.allowedValues (Err.params error) with
  | Some allowedValues => "Must be one of: " ++ JS.join ", " allowedValues
  | None => "Invalid value selected"
  end.

(** [error.parentSchema?.errorMessage?.<kw>]. *)
Definition parent_override (error : Err.ErrorObject) (kw : string)
  : option string :=
  match Err.parentSchema error with
  | Some schema =>
      match schema_errorMessage schema with
      | Some em => errorMessage_text em kw
      | None => None
      end
  | None => None
  end.

Definition errorMap : Type := list (string * Entry.t).

(** The wrapped [additionalProperties] branch at the head of the
    loop body.  [None]: the branch does not apply and the body goes
    on.  Reading [nestedError.keyword] of a missing first nested
    error, or [.errorMessage.additionalProperties] of a missing
    parent schema or error message, raises. *)
Definition wrapped_additionalProperties (error : Err.ErrorObject)
  : JS.result (option Entry.t) :=
  if String.eqb (Err.keyword error) "errorMessage" then
    match Err.errors (Err.params error) with
    | Some nested =>
        match nested with
        | [] => JS.Throw (JS.TypeError "Cannot read properties of undefined (reading 'keyword')")
        | nestedError :: _ =>
            if String.eqb (Err.keyword nestedError) "additionalProperties" then
              let field :=
                JS.or_else (Err.additionalProperty (Err.params nestedError)) "" in
              match Err.parentSchema nestedError with
              | None => JS.Throw (JS.TypeError "Cannot read properties of undefined (reading 'errorMessage')")
              | Some schema =>
                  match schema_errorMessage schema with
                  | None => JS.Throw (JS.TypeError "Cannot read properties of undefined (reading 'additionalProperties')")
                  | Some em =>
                      JS.Ok (Some
                        {| Entry.field := field;
                           Entry.message :=
                             JS.or_else (errorMessage_text em "additionalProperties")
                                        ("The property '" ++ field ++ "' is not allowed");
                           Entry.priority := 2;
                           Entry.path := None |})
                  end
              end
            else JS.Ok None
        end
    | None => JS.Ok None
    end
  else JS.Ok None.

(** The rest of the loop body: the entry an error stands for, by its
    keyword. *)
Definition entry_of_error (error : Err.ErrorObject) : Entry.t :=
  let path :=
    if String.eqb (Err.instancePath error) "" then None
    else Some (JS.filter_Boolean (JS.split "/" (Err.instancePath error))) in
  let kw := Err.keyword error in
  let p := Err.params error in
  if String.eqb kw "required" then
    let field := JS.or_else (Err.missingProperty p) "" in
    let nested_message :=
      match Err.errors p with
      | Some (first :: _) => Err.message first
      | _ => None
      end in
    {| Entry.field := field;
       Entry.message :=
         JS.or_else nested_message ("The field '" ++ field ++ "' is required");
       Entry.priority := 1;
       Entry.path := path |}
  else if String.eqb kw "format" then
    {| Entry.field := _getFieldFromPath (Err.instancePath error);
       Entry.message := _getFormatErrorMessage error;
       Entry.priority := 3;
       Entry.path := path |}
  else if String.eqb kw "type" then
    {| Entry.field := _getFieldFromPath (Err.instancePath error);
       Entry.message := _getTypeErrorMessage error;
       Entry.priority := 2;
       Entry.path := path |}
  else if String.eqb kw "enum" then
    {| Entry.field := _getFieldFromPath (Err.instancePath error);
       Entry.message := _getEnumErrorMessage error;
       Entry.priority := 2;
       Entry.path := path |}
  else if String.eqb kw "pattern" then
    {| Entry.field := _getFieldFromPath (Err.instancePath error);
       Entry.message := JS.or_else (parent_override error "pattern") "Invalid format";
       Entry.priority := 2;
       Entry.path := path |}
  else if String.eqb kw "additionalProperties" then
    let field := JS.or_else (Err.additionalProperty p) "" in
    {| Entry.field := field;
       Entry.message := "The property '" ++ field ++ "' is not allowed";
       Entry.priority := 2;
       Entry.path := path |}
  else
    {| Entry.field := _getFieldFromPath (Err.instancePath error);
       Entry.message := JS.or_else (Err.message error) "Validation error";
       Entry.priority := 1;
       Entry.path := path |}.

(** One turn of [errors.forEach]. *)
Definition process_error (m : errorMap) (error : Err.ErrorObject)
  : JS.result errorMap :=
  JS.bind (wrapped_additionalProperties error) (fun wrapped =>
    match wrapped with
    | Some entry => JS.Ok (Map_set m (Entry.field entry) entry)
    | None =>
        let entry := entry_of_error error in
        match Map_get m (Entry.field entry) with
        | Some existing =>
            if Entry.priority existing <? Entry.priority entry
            then JS.Ok (Map_set m (Entry.field entry) entry)
            else JS.Ok m
        | None => JS.Ok (Map_set m (Entry.field entry) entry)
        end
    end).

(** [errors.forEach] from a given map: it stops at the first turn
    that raises. *)
Fixpoint forEach_errors (errors : list Err.ErrorObject) (m : errorMap)
  : JS.result errorMap :=
  match errors with
  | [] => JS.Ok m
  | error :: rest =>
      JS.bind (process_error m error) (forEach_errors rest)
  end.

Definition build_errorMap (errors : list Err.ErrorObject) : JS.result errorMap :=
  forEach_errors errors [].

(** [e.path.slice(0, n).join('.') === error.path.join('.')] with the
    guards on both paths. *)
Definition path_covers (e error : Entry.t) : bool :=
  match Entry.path e, Entry.path error with
  | Some ep, Some errp =>
      (length errp <? length ep)%nat
      && String.eqb (JS.join "." (firstn (length errp) ep)) (JS.join "." errp)
  | _, _ => false
  end.

(** [e] counts as lying under [error]: its field starts with the
    field of [error] and a dot, or its path covers that of [error]. *)
Definition lies_under (e error : Entry.t) : bool :=
  JS.startsWith (Entry.field e) (Entry.field error ++ ".")
  || path_covers e error.

(** The test under [some]: [e] is another entry and lies under
    [error].  Entries are compared by identity, that is by their
    place among the values. *)
Definition explains (error_index : nat) (error : Entry.t)
           (e : Entry.t) (e_index : nat) : bool :=
  negb (e_index =? error_index)%nat && lies_under e error.

(** The predicate of the first [filter]. *)
Definition keep_then (values : list Entry.t)
           (error : Entry.t) (index : nat) : bool :=
  if String.eqb (Entry.message error) then_schema_message
     && negb (String.eqb (Entry.field error) "")
  then negb (JS.some_indexed (explains index error) values)
  else true.

Definition filter_indexed {A} (p : A -> nat -> bool) (xs : list A) : list A :=
  map snd (filter (fun ix => p (snd ix) (fst ix))
                  (combine (seq 0 (length xs)) xs)).

Definition filter_then (values : list Entry.t) : list Entry.t :=
  filter_indexed (keep_then values) values.

(** The predicate of the second [filter]. *)
Definition keep_named (error : Entry.t) : bool :=
  negb (String.eqb (Entry.field error) "") || (1 <? Entry.priority error).

(** [sort((a, b) => b.priority - a.priority)]: a stable sort, by
    insertion. *)
Fixpoint insert_by_priority (x : Entry.t) (sorted : list Entry.t)
  : list Entry.t :=
  match sorted with
  | [] => [x]
  | y :: rest =>
      if Entry.priority x <? Entry.priority y
      then y :: insert_by_priority x rest
      else x :: sorted
  end.

Definition sort_by_priority (xs : list Entry.t) : list Entry.t :=
  fold_right insert_by_priority [] xs.

Definition to_ValidationError (e : Entry.t) : ValidationError :=
  {| field := Entry.field e;
     message := Entry.message e;
     path := Entry.path e |}.

(** The entries that survive both filters, in their final order. *)
Definition final_entries (m : errorMap) : list Entry.t :=
  sort_by_priority (filter keep_named (filter_then (Map_values m))).

Definition formatAjvErrors (errors : option (list Err.ErrorObject))
  : JS.result (list ValidationError) :=
  match errors with
  | None => JS.Ok []
  | Some errs =>
      JS.bind (build_errorMap errs) (fun m =>
        JS.Ok (map to_ValidationError (final_entries m)))
  end.

(** ** Schema fragment builders, [CommonValidations] *)

(** Optional chaining, [o?.f]. *)
Definition opt {A B} (f : A -> option B) (o : option A) : option B :=
  match o with
  | Some a => f a
  | None => None
  end.

(** [`${n}`] of a number and of an optional number. *)
Definition show_number (n : Z) : string :=
  DecimalString.NilZero.string_of_int (Z.to_int n).

Definition show_optional_number (n : option Z) : string :=
  match n with
  | Some v => show_number v
  | None => "undefined"
  end.

(** The [errorMessages] option of the builders. *)
Module Messages.
Record t : Type := {
  type : option string;
  format : option string;
  pattern : option string;
  enum : option string;
  items : option string;
  minItems : option string;
  maxItems : option string;
  invalidFieldType : option string;
  invalidSelectedValue : option string
}.
Definition none : t := Build_t None None None None None None None None None.
End Messages.

Module UuidOptions.
Record t : Type := {
  required : option bool;
  errorMessages : option Messages.t
}.
End UuidOptions.

Module EnumValueOptions.
Record t : Type := {
  errorMessages : option Messages.t;
  default : option string
}.
End EnumValueOptions.

Module StringArrayOptions.
Record t : Type := {
  minItems : option Z;
  maxItems : option Z;
  notAllowSpecialChars : option bool;
  errorMessages : option Messages.t
}.
End StringArrayOptions.

Module ObjectArrayOptions.
Record t : Type := {
  minItems : option Z;
  maxItems : option Z;
  errorMessages : option Messages.t;
  validate : option (list Json -> bool);
  message : option string
}.
End ObjectArrayOptions.

Module FieldDefinitionOptions.
Record t : Type := {
  fieldTypeEnum : list (string * string);
  errorMessages : option Messages.t
}.
End FieldDefinitionOptions.

(** A keyword given as [keyword: value] with an optional value is
    left out of the object when the value is [undefined]. *)
Definition optional_keyword {A} (k : A -> Keyword) (v : option A) : Schema :=
  match v with
  | Some a => [k a]
  | None => []
  end.

(** Of the builders of [CommonValidations], those the properties
    below are about: [uuid], [enumValue], [stringArray], [objectArray]
    and [fieldDefinitionValidation]. *)
Module CommonValidations.

Definition uuid (options : option UuidOptions.t) : Schema :=
  let errorMessages := opt UuidOptions.errorMessages options in
  Type_String
    [KFormat "uuid";
     KErrorMessage (EMObject
       [("type", JS.or_else (opt Messages.type errorMessages)
                            "Please enter a valid ID");
        ("format", JS.or_else (opt Messages.format errorMessages)
                              "Must be a valid UUID")]
       [] [])].

Definition enumValue (enumObj : list (string * string))
           (options : option EnumValueOptions.t) : Schema :=
  let enumValues := map snd enumObj in
  let schema :=
    Type_String
      [KEnum enumValues;
       KErrorMessage (EMObject
         [("type", "Must be one of: " ++ JS.join ", " enumValues);
          ("enum", JS.or_else
                     (opt Messages.enum
                          (opt EnumValueOptions.errorMessages options))
                     ("Must be one of: " ++ JS.join ", " enumValues))]
         [] [])] in
  match opt EnumValueOptions.default options with
  | Some _ => Type_Optional schema
  | None => schema
  end.

(** [stringArray] reads [options.notAllowSpecialChars] without the
    optional chaining it uses everywhere else: with no options the
    read raises. *)
Definition stringArray (options : option StringArrayOptions.t)
  : JS.result Schema :=
  let errorMessages := opt StringArrayOptions.errorMessages options in
  let minItems := opt StringArrayOptions.minItems options in
  let maxItems := opt StringArrayOptions.maxItems options in
  match options with
  | None =>
      JS.Throw (JS.TypeError
        "Cannot read properties of undefined (reading 'notAllowSpecialChars')")
  | Some o =>
      JS.Ok (Type_Array
        (Type_String
           (KIsNotEmpty true
            :: (match StringArrayOptions.notAllowSpecialChars o with
                | Some true => []
                | _ => [KPattern "^[a-zA-Z0-9\s_-]+$"]
                end
                ++ [KErrorMessage (EMObject
                      [("type", JS.or_else (opt Messages.type errorMessages)
                                           "Must be an array of strings");
                       ("isNotEmpty",
                        JS.or_else (opt Messages.items errorMessages)
                                   "Array items cannot be empty strings");
                       ("pattern",
                        JS.or_else (opt Messages.items errorMessages)
                                   "Array items cannot contain special characters or be empty")]
                      [] [])])%list))
        (optional_keyword KMinItems minItems
         ++ optional_keyword KMaxItems maxItems
         ++ [KErrorMessage (EMObject
               [("type", JS.or_else (opt Messages.type errorMessages)
                                    "Must be an array of strings");
                ("minItems",
                 JS.or_else (opt Messages.minItems errorMessages)
                            ("Must have at least "
                             ++ show_optional_number minItems ++ " items"));
                ("maxItems",
                 JS.or_else (opt Messages.maxItems errorMessages)
                            ("Cannot exceed "
                             ++ show_optional_number maxItems ++ " items"))]
               [] [])])%list)
  end.

(** [objectArray]: the builder body sits in a [try] whose handler
    logs and raises again; nothing in the body raises. *)
Definition objectArray (schema : Schema)
           (options : option ObjectArrayOptions.t) : JS.result Schema :=
  let errorMessages := opt ObjectArrayOptions.errorMessages options in
  let minItems := opt ObjectArrayOptions.minItems options in
  let maxItems := opt ObjectArrayOptions.maxItems options in
  let arraySchema :=
    Type_Array schema
      (optional_keyword KMinItems minItems
       ++ optional_keyword KMaxItems maxItems
       ++ [KErrorMessage (EMObject
             [("type", JS.or_else (opt Messages.type errorMessages)
                                  "Must be an array");
              ("minItems",
               JS.or_else (opt Messages.minItems errorMessages)
                          ("Must have at least "
                           ++ show_optional_number minItems ++ " items"));
              ("maxItems",
               JS.or_else (opt Messages.maxItems errorMessages)
                          ("Cannot exceed "
                           ++ show_optional_number maxItems ++ " items"))]
             [] [])])%list in
  match opt ObjectArrayOptions.validate options with
  | Some _ => JS.Ok (arraySchema ++ [KTransform])%list
  | None => JS.Ok arraySchema
  end.

(** One branch of the [allOf] of [fieldDefinitionValidation]: when
    [fieldType] is [fieldType_], [selectedValue] has the shape
    [selectedValue_]; [text] is the message of the branch. *)
Definition selectedValue_branch (fieldType_ : string)
           (selectedValue_ : Schema) (text : string) : Schema :=
  [KIf [KProperties [("fieldType", [KEnum [fieldType_]])];
        KRequired ["fieldType"]];
   KThen [KProperties [("selectedValue", selectedValue_)];
          KErrorMessage (EMObject [] [] [("selectedValue", text)])]].

Definition type_message (text : string) : Schema :=
  [KErrorMessage (EMObject [("type", text)] [] [])].

Definition array_of_strings (text : string) : Schema :=
  Type_Array (Type_String []) (type_message text).

Definition array_of_uuids (text : string) : Schema :=
  Type_Array
    (Type_String
       [KFormat "uuid";
        KErrorMessage (EMObject [("format", text); ("type", text)] [] [])])
    (type_message text).

Definition fieldDefinitionValidation (options : FieldDefinitionOptions.t)
  : Schema :=
  let fieldTypeEnum := FieldDefinitionOptions.fieldTypeEnum options in
  let errorMessages := FieldDefinitionOptions.errorMessages options in
  let text kind shape :=
    "Selected value for " ++ kind ++ " fields must be " ++ shape in
  Type_Object
    [("customFieldDefinitionId", uuid None);
     ("fieldType",
      enumValue fieldTypeEnum
        (Some {| EnumValueOptions.errorMessages :=
                   Some {| Messages.type :=
                             Some (JS.or_else
                                     (opt Messages.invalidFieldType errorMessages)
                                     "Field type must be a valid enum value");
                           Messages.format := None;
                           Messages.pattern := None;
                           Messages.enum :=
                             Some ("Invalid field type. Must be one of: "
                                   ++ JS.join ", " (map snd fieldTypeEnum));
                           Messages.items := None;
                           Messages.minItems := None;
                           Messages.maxItems := None;
                           Messages.invalidFieldType := None;
                           Messages.invalidSelectedValue := None |};
                 EnumValueOptions.default := None |}));
     ("selectedValue", Type_Optional Type_Unknown)]
    [KAllOf
       [selectedValue_branch "label"
          (array_of_strings (text "label" "an array of strings"))
          (text "label" "an array of strings");
        selectedValue_branch "dropdown"
          (array_of_strings (text "dropdown" "an array of strings"))
          (text "dropdown" "an array of strings");
        selectedValue_branch "text"
          (Type_String (type_message (text "text" "a string")))
          (text "text" "a string");
        selectedValue_branch "textarea"
          (Type_String (type_message (text "textarea" "a string")))
          (text "textarea" "a string");
        selectedValue_branch "date"
          (Type_Number (type_message (text "date" "a number")))
          (text "date" "a number");
        selectedValue_branch "number"
          (Type_Number (type_message (text "number" "a number")))
          (text "number" "a number");
        selectedValue_branch "files"
          (array_of_uuids (text "files" "an array of UUIDs"))
          (text "files" "an array of UUIDs");
        selectedValue_branch "people"
          (array_of_uuids (text "people" "an array of UUIDs"))
          (text "people" "an array of UUIDs")]].

End CommonValidations.

(** ** The validation engine

    [schema-ajv-validator.ts] drives an external engine (Ajv with the
    ajv-formats and ajv-errors plug-ins).  [Engine] is its interface
    as the validator uses it; [ajv] below is a model of the engine on
    the keywords of [Keyword], with all errors collected, no type
    coercion and verbose errors, as the validator configures it. *)

Module Ajv.

(** [validateFn(value)] together with the [validateFn.errors] it
    leaves behind. *)
Definition ValidateFunction : Type :=
  Json -> JS.result (bool * option (list Err.ErrorObject)).

Record Engine : Type := {
  compile : Schema -> JS.result ValidateFunction
}.

(** What the model takes from the JavaScript runtime: regular
    expressions ([None] when the pattern does not compile) and the
    formats other than [uuid] ([None] for an unknown format, which
    the engine ignores outside strict mode). *)
Record Runtime : Type := {
  regexp : string -> option (string -> bool);
  formats : string -> option (string -> bool)
}.

Definition is_hex (c : ascii) : bool :=
  let n := nat_of_ascii c in
  JS.is_digit c
  || ((65 <=? n)%nat && (n <=? 70)%nat)
  || ((97 <=? n)%nat && (n <=? 102)%nat).

(** [n] hexadecimal digits, then the rest. *)
Fixpoint hex_run (n : nat) (s : string) : option string :=
  match n with
  | O => Some s
  | S n' =>
      match s with
      | String c rest => if is_hex c then hex_run n' rest else None
      | EmptyString => None
      end
  end.

Definition dash (s : option string) : option string :=
  match s with
  | Some (String "-" rest) => Some rest
  | _ => None
  end.

(** The [uuid] format:
    [/^(?:urn:uuid:)?[0-9a-f]{8}-(?:[0-9a-f]{4}-){3}[0-9a-f]{12}$/i]. *)
Definition format_uuid (s : string) : bool :=
  let body :=
    if String.prefix "urn:uuid:" (JS.toLowerCase s)
    then String.substring 9 (String.length s - 9) s
    else s in
  match
    opt (hex_run 12)
        (dash (opt (hex_run 4)
              (dash (opt (hex_run 4)
                    (dash (opt (hex_run 4)
                          (dash (hex_run 8 body))))))))
  with
  | Some EmptyString => true
  | _ => false
  end.

Definition has_type (t : string) (data : Json) : bool :=
  match data with
  | JNull => String.eqb t "null"
  | JBool _ => String.eqb t "boolean"
  | JNum _ => String.eqb t "number" || String.eqb t "integer"
  | JStr _ => String.eqb t "string"
  | JArr _ => String.eqb t "array"
  | JObj _ => String.eqb t "object"
  end.

Definition is_some {A} (o : option A) : bool :=
  match o with
  | Some _ => true
  | None => false
  end.

(** The rule groups of the engine, by data type, and whether a
    schema has a keyword of the group. *)
Inductive Group : Type := GNumber | GString | GArray | GObject.

Definition group_type (g : Group) : string :=
  match g with
  | GNumber => "number"
  | GString => "string"
  | GArray => "array"
  | GObject => "object"
  end.

Definition in_group (g : Group) (data : Json) : bool :=
  match g, data with
  | GNumber, JNum _ => true
  | GString, JStr _ => true
  | GArray, JArr _ => true
  | GObject, JObj _ => true
  | _, _ => false
  end.

Definition shouldUseGroup (schema : Schema) (g : Group) : bool :=
  match g with
  | GNumber => is_some (schema_format schema)
  | GString =>
      is_some (schema_pattern schema) || is_some (schema_format schema)
      || is_some (schema_isNotEmpty schema)
  | GArray =>
      is_some (schema_maxItems schema) || is_some (schema_minItems schema)
      || is_some (schema_items schema)
  | GObject =>
      is_some (schema_required schema)
      || is_some (schema_additionalProperties schema)
      || is_some (schema_properties schema)
  end.

Definition schemaHasRulesForType (schema : Schema) (t : string) : bool :=
  (String.eqb t "number" && shouldUseGroup schema GNumber)
  || (String.eqb t "string" && shouldUseGroup schema GString)
  || (String.eqb t "array" && shouldUseGroup schema GArray)
  || (String.eqb t "object" && shouldUseGroup schema GObject).

(** Escaping of a property name in a JSON pointer. *)
Fixpoint escapeJsonPointer (s : string) : string :=
  match s with
  | EmptyString => EmptyString
  | String c rest =>
      if Ascii.eqb c "~" then "~0" ++ escapeJsonPointer rest
      else if Ascii.eqb c "/" then "~1" ++ escapeJsonPointer rest
      else String c (escapeJsonPointer rest)
  end.

Definition show_index (i : nat) : string :=
  DecimalString.NilZero.string_of_uint (Nat.to_uint i).

Section Model.

Variable rt : Runtime.

Definition make_error (kw : string) (instancePath schemaPath : string)
           (p : Err.Params) (text : string) (schema : Schema)
  : Err.ErrorObject :=
  Err.Build_ErrorObject kw instancePath (schemaPath ++ "/" ++ kw) p
                        (Some text) (Some schema).

Definition type_error (t : string) (instancePath schemaPath : string)
           (schema : Schema) : Err.ErrorObject :=
  make_error "type" instancePath schemaPath
    (Err.Build_Params None None None (Some t) None None)
    ("must be " ++ t) schema.

(** *** The plug-in for [errorMessage] *)

(** The error's schema path is [schemaPath] extended by exactly
    one segment. *)
Definition direct_child_schemaPath (schemaPath : string)
           (err : Err.ErrorObject) : bool :=
  let sp := Err.schemaPath err in
  String.prefix schemaPath sp
  && match String.substring (String.length schemaPath)
             (String.length sp - String.length schemaPath) sp with
     | String "/" rest => negb (JS.includes_char "/" rest)
     | _ => false
     end.

Definition under_schemaPath (schemaPath : string)
           (err : Err.ErrorObject) : bool :=
  let sp := Err.schemaPath err in
  String.prefix schemaPath sp
  && match String.substring (String.length schemaPath)
             (String.length sp - String.length schemaPath) sp with
     | String "/" _ => true
     | _ => false
     end.

Definition not_wrapped (err : Err.ErrorObject) : bool :=
  negb (String.eqb (Err.keyword err) "errorMessage").

(** The first segment of the error's instance path below
    [instancePath], when the error lies below it. *)
Definition child_of (instancePath : string) (err : Err.ErrorObject)
  : option string :=
  let ip := Err.instancePath err in
  if String.prefix instancePath ip then
    match String.substring (String.length instancePath)
            (String.length ip - String.length instancePath) ip with
    | String "/" rest =>
        match JS.split "/" rest with
        | segment :: _ => Some segment
        | [] => None
        end
    | _ => None
    end
  else None.

Definition at_or_under (instancePath : string) (err : Err.ErrorObject)
  : bool :=
  String.eqb (Err.instancePath err) instancePath
  || is_some (child_of instancePath err).

Definition wrap (instancePath schemaPath : string) (schema : Schema)
           (text : string) (group : list Err.ErrorObject)
  : list Err.ErrorObject :=
  match group with
  | [] => []
  | _ :: _ =>
      [Err.Build_ErrorObject "errorMessage" instancePath
         (schemaPath ++ "/errorMessage")
         (Err.Build_Params None None None None None (Some group))
         (Some text) (Some schema)]
  end.

(** Errors of the node's own keywords that have a text. *)
Definition matches_keyword (keywords : list (string * string))
           (instancePath schemaPath : string) (err : Err.ErrorObject)
  : bool :=
  not_wrapped err
  && String.eqb (Err.instancePath err) instancePath
  && is_some (lookup (Err.keyword err) keywords)
  && direct_child_schemaPath schemaPath err.

(** [required] errors whose missing property has a text. *)
Definition matches_required (required : list (string * string))
           (instancePath schemaPath : string) (err : Err.ErrorObject)
  : bool :=
  not_wrapped err
  && String.eqb (Err.instancePath err) instancePath
  && String.eqb (Err.keyword err) "required"
  && direct_child_schemaPath schemaPath err
  && match Err.missingProperty (Err.params err) with
     | Some p => is_some (lookup p required)
     | None => false
     end.

(** Errors below a child property that has a text. *)
Definition matches_child (properties : list (string * string))
           (instancePath : string) (err : Err.ErrorObject) : bool :=
  not_wrapped err
  && match child_of instancePath err with
     | Some child => is_some (lookup child properties)
     | None => false
     end.

Definition matches_any (instancePath schemaPath : string)
           (err : Err.ErrorObject) : bool :=
  not_wrapped err
  && at_or_under instancePath err
  && under_schemaPath schemaPath err.

(** The plug-in runs after the other keywords of the node: the
    errors it matches are taken out of the list and one wrapping
    error per text is added at its end. *)
Definition errorMessage_keyword (em : ErrorMessage) (schema : Schema)
           (instancePath schemaPath : string)
           (vErrors : list Err.ErrorObject) : list Err.ErrorObject :=
  let wrap_ := wrap instancePath schemaPath schema in
  match em with
  | EMText text =>
      let (used, rest) :=
        partition (matches_any instancePath schemaPath) vErrors in
      (rest ++ wrap_ text used)%list
  | EMObject keywords required properties =>
      let (used1, rest1) :=
        partition (matches_keyword keywords instancePath schemaPath)
                  vErrors in
      let new1 :=
        flat_map (fun kt =>
                    wrap_ (snd kt)
                      (filter (fun err =>
                                 String.eqb (Err.keyword err) (fst kt))
                              used1))
                 keywords in
      let (used2, rest2) :=
        partition (matches_required required instancePath schemaPath)
                  rest1 in
      let new2 :=
        flat_map (fun pt =>
                    wrap_ (snd pt)
                      (filter (fun err =>
                                 match Err.missingProperty (Err.params err) with
                                 | Some p => String.eqb p (fst pt)
                                 | None => false
                                 end)
                              used2))
                 required in
      let (used3, rest3) :=
        partition (matches_child properties instancePath) rest2 in
      let new3 :=
        flat_map (fun pt =>
                    wrap (instancePath ++ "/" ++ escapeJsonPointer (fst pt))
                         schemaPath schema (snd pt)
                      (filter (fun err =>
                                 match child_of instancePath err with
                                 | Some child => String.eqb child (fst pt)
                                 | None => false
                                 end)
                              used3))
                 properties in
      let (used4, rest4) :=
        match lookup "_" keywords with
        | Some text =>
            if String.eqb text "" then ([], rest3)
            else partition (matches_any instancePath schemaPath) rest3
        | None => ([], rest3)
        end in
      let new4 :=
        match lookup "_" keywords with
        | Some text => wrap_ text used4
        | None => []
        end in
      (rest4 ++ new1 ++ new2 ++ new3 ++ new4)%list
  end.

(** *** Validation of a value against a schema node

    [vErrors] is the list of errors of the whole call so far; a node
    is valid when it leaves the number of errors unchanged.  [sub]
    validates a value against a schema nested in the node. *)

Definition Validator : Type :=
  Schema -> Json -> string -> string ->
  list Err.ErrorObject -> list Err.ErrorObject.

Definition push_error (kw : string) (instancePath schemaPath : string)
           (schema : Schema) (p : Err.Params) (text : string)
           (v : list Err.ErrorObject) : list Err.ErrorObject :=
  (v ++ [make_error kw instancePath schemaPath p text schema])%list.

Definition report_type (schema : Schema) (instancePath schemaPath : string)
           (v : list Err.ErrorObject) : list Err.ErrorObject :=
  match schema_type schema with
  | Some t => (v ++ [type_error t instancePath schemaPath schema])%list
  | None => v
  end.

Definition wrong_type (schema : Schema) (data : Json) : bool :=
  match schema_type schema with
  | Some t => negb (has_type t data)
  | None => false
  end.

(** The type is checked at once when the schema has no keyword of
    its type's group; otherwise the group reports the type error. *)
Definition checkTypes (schema : Schema) : bool :=
  match schema_type schema with
  | Some t => negb (schemaHasRulesForType schema t)
  | None => false
  end.

Definition enum_keyword (schema : Schema) (data : Json)
           (instancePath schemaPath : string)
           (v : list Err.ErrorObject) : list Err.ErrorObject :=
  match schema_enum schema with
  | Some values =>
      let ok := match data with
                | JStr s => existsb (String.eqb s) values
                | _ => false
                end in
      if ok then v
      else push_error "enum" instancePath schemaPath schema
             (Err.Build_Params None None None None (Some values) None)
             "must be equal to one of the allowed values" v
  | None => v
  end.

Definition allOf_keyword (sub : Validator) (schema : Schema) (data : Json)
           (instancePath schemaPath : string)
           (v : list Err.ErrorObject) : list Err.ErrorObject :=
  match schema_allOf schema with
  | Some branches =>
      fold_left
        (fun v ib =>
           sub (snd ib) data instancePath
               (schemaPath ++ "/allOf/" ++ show_index (fst ib)) v)
        (combine (seq 0 (length branches)) branches) v
  | None => v
  end.

(** [if] is evaluated without creating errors; when it holds and
    [then] adds errors, the generic error follows them. *)
Definition if_keyword (sub : Validator) (schema : Schema) (data : Json)
           (instancePath schemaPath : string)
           (v : list Err.ErrorObject) : list Err.ErrorObject :=
  match schema_if schema, schema_then schema with
  | Some if_, Some then_ =>
      match sub if_ data instancePath (schemaPath ++ "/if") [] with
      | [] =>
          let v' := sub then_ data instancePath (schemaPath ++ "/then") v in
          if (length v' =? length v)%nat then v'
          else push_error "if" instancePath schemaPath schema
                 Err.no_params then_schema_message v'
      | _ :: _ => v
      end
  | _, _ => v
  end.

(** A group of typed keywords runs on data of its type; on other
    data it reports the type error if that is still due. *)
Definition typed_group (schema : Schema) (data : Json)
           (instancePath schemaPath : string) (g : Group)
           (body : list Err.ErrorObject -> list Err.ErrorObject)
           (v : list Err.ErrorObject) : list Err.ErrorObject :=
  if shouldUseGroup schema g then
    if in_group g data then body v
    else
      match schema_type schema with
      | Some t =>
          if String.eqb t (group_type g) && negb (checkTypes schema)
          then report_type schema instancePath schemaPath v else v
      | None => v
      end
  else v.

Definition string_keywords (schema : Schema) (data : Json)
           (instancePath schemaPath : string)
           (v : list Err.ErrorObject) : list Err.ErrorObject :=
  match data with
  | JStr s =>
      let push := push_error in
      let va :=
        match schema_pattern schema with
        | Some p =>
            match regexp rt p with
            | Some test =>
                if test s then v
                else push "pattern" instancePath schemaPath schema
                       Err.no_params
                       ("must match pattern " ++ dquote ++ p ++ dquote) v
            | None => v
            end
        | None => v
        end in
      let vb :=
        match schema_format schema with
        | Some f =>
            let check :=
              if String.eqb f "uuid" then Some format_uuid
              else formats rt f in
            match check with
            | Some test =>
                if test s then va
                else push "format" instancePath schemaPath schema
                       (Err.Build_Params None None (Some f) None None None)
                       ("must match format " ++ dquote ++ f ++ dquote) va
            | None => va
            end
        | None => va
        end in
      match schema_isNotEmpty schema with
      | Some _ =>
          if Keywords.isNotEmpty s then vb
          else push "isNotEmpty" instancePath schemaPath schema
                 Err.no_params "should not be empty" vb
      | None => vb
      end
  | _ => v
  end.

Definition array_keywords (sub : Validator) (schema : Schema) (data : Json)
           (instancePath schemaPath : string)
           (v : list Err.ErrorObject) : list Err.ErrorObject :=
  match data with
  | JArr xs =>
      let n := Z.of_nat (length xs) in
      let va :=
        match schema_maxItems schema with
        | Some limit =>
            if n <=? limit then v
            else push_error "maxItems" instancePath schemaPath schema
                   Err.no_params
                   ("must NOT have more than " ++ show_number limit ++ " items") v
        | None => v
        end in
      let vb :=
        match schema_minItems schema with
        | Some limit =>
            if limit <=? n then va
            else push_error "minItems" instancePath schemaPath schema
                   Err.no_params
                   ("must NOT have fewer than " ++ show_number limit ++ " items") va
        | None => va
        end in
      match schema_items schema with
      | Some item_schema =>
          fold_left
            (fun v ix =>
               sub item_schema (snd ix)
                   (instancePath ++ "/" ++ show_index (fst ix))
                   (schemaPath ++ "/items") v)
            (combine (seq 0 (length xs)) xs) vb
      | None => vb
      end
  | _ => v
  end.

Definition declared_properties (schema : Schema) : list (string * Schema) :=
  match schema_properties schema with
  | Some ps => ps
  | None => []
  end.

Definition object_keywords (sub : Validator) (schema : Schema) (data : Json)
           (instancePath schemaPath : string)
           (v : list Err.ErrorObject) : list Err.ErrorObject :=
  match data with
  | JObj props =>
      let va :=
        match schema_required schema with
        | Some names =>
            fold_left
              (fun v name =>
                 if is_some (lookup name props) then v
                 else push_error "required" instancePath schemaPath schema
                        (Err.Build_Params (Some name) None None None None None)
                        ("must have required property '" ++ name ++ "'") v)
              names v
        | None => v
        end in
      let vb :=
        match schema_additionalProperties schema with
        | Some (APBool false) =>
            fold_left
              (fun v kv =>
                 if is_some (lookup (fst kv) (declared_properties schema)) then v
                 else push_error "additionalProperties" instancePath
                        schemaPath schema
                        (Err.Build_Params None (Some (fst kv)) None None None None)
                        "must NOT have additional properties" v)
              props va
        | _ => va
        end in
      fold_left
        (fun v ps =>
           match lookup (fst ps) props with
           | Some x =>
               sub (snd ps) x
                   (instancePath ++ "/" ++ escapeJsonPointer (fst ps))
                   (schemaPath ++ "/properties/" ++ escapeJsonPointer (fst ps))
                   v
           | None => v
           end)
        (declared_properties schema) vb
  | _ => v
  end.

(** The keywords of a node in the engine's order: those of no type
    ([enum], [allOf], [if]), then the groups of number, string, array
    and object keywords, then [errorMessage]. *)
Definition node_body (sub : Validator) : Validator :=
  fun schema data instancePath schemaPath vErrors =>
    let v0 :=
      if checkTypes schema && wrong_type schema data
      then report_type schema instancePath schemaPath vErrors
      else vErrors in
    let v1 := enum_keyword schema data instancePath schemaPath v0 in
    let v2 := allOf_keyword sub schema data instancePath schemaPath v1 in
    let v3 := if_keyword sub schema data instancePath schemaPath v2 in
    let group := typed_group schema data instancePath schemaPath in
    let v4 := group GNumber (fun v => v) v3 in
    let v5 :=
      group GString
            (string_keywords schema data instancePath schemaPath) v4 in
    let v6 :=
      group GArray
            (array_keywords sub schema data instancePath schemaPath) v5 in
    let v7 :=
      group GObject
            (object_keywords sub schema data instancePath schemaPath) v6 in
    match schema_errorMessage schema with
    | Some em => errorMessage_keyword em schema instancePath schemaPath v7
    | None => v7
    end.

(** Validation by nesting depth: [fuel] bounds the depth of the
    schemas visited. *)
Fixpoint validate_node (fuel : nat) : Validator :=
  match fuel with
  | O => fun _ _ _ _ vErrors => vErrors
  | S fuel' => node_body (validate_node fuel')
  end.

(** *** Compilation *)

Definition type_names : list string :=
  ["array"; "boolean"; "integer"; "null"; "number"; "object"; "string"].

(** What the meta-schema and the code of the keywords ask of a
    keyword's value; an [enum] must have a value. *)
Fixpoint keyword_ok (k : Keyword) : bool :=
  match k with
  | KType t => existsb (String.eqb t) type_names
  | KEnum values => negb (Nat.eqb (length values) 0)
  | KPattern p => is_some (regexp rt p)
  | KMinItems n | KMaxItems n => 0 <=? n
  | KRequired names =>
      (length (nodup string_dec names) =? length names)%nat
  | KAdditionalProperties (APOther _) => false
  | KItems s | KIf s | KThen s => forallb keyword_ok s
  | KProperties ps => forallb (fun p => forallb keyword_ok (snd p)) ps
  | KAllOf ss => forallb (forallb keyword_ok) ss
  | _ => true
  end.

Fixpoint keyword_depth (k : Keyword) : nat :=
  match k with
  | KItems s | KIf s | KThen s => S (list_max (map keyword_depth s))
  | KProperties ps =>
      S (list_max (map (fun p => list_max (map keyword_depth (snd p))) ps))
  | KAllOf ss =>
      S (list_max (map (fun s => list_max (map keyword_depth s)) ss))
  | _ => O
  end.

Definition schema_depth (schema : Schema) : nat :=
  S (list_max (map keyword_depth schema)).

(** [ajv.compile(schema)]: a schema the meta-schema rejects
    raises; otherwise the function validates from the root and
    leaves [null] for [errors] when there is none. *)
Definition compile_schema (schema : Schema) : JS.result ValidateFunction :=
  if forallb keyword_ok schema then
    JS.Ok (fun data =>
             match validate_node (schema_depth schema) schema data "" "#" [] with
             | [] => JS.Ok (true, None)
             | vErrors => JS.Ok (false, Some vErrors)
             end)
  else JS.Throw (JS.Error "schema is invalid").

Definition ajv : Engine := {| compile := compile_schema |}.

End Model.

End Ajv.

(** ** The entry point, [ajvSchemaValidator] *)

Record ValidationOptions : Type := {
  strict : option bool;
  debug : option bool;
  customMessages : option (list (string * string))
}.

Record ValidationResult : Type := {
  isValid : bool;
  errors : option (list ValidationError);
  rawErrors : option (option (list Err.ErrorObject))
}.

(** The result of the [catch] branch. *)
Definition schema_error_result : ValidationResult :=
  {| isValid := false;
     errors := Some [{| field := "_schema";
                        message := "Invalid schema configuration";
                        path := None |}];
     rawErrors := None |}.

(** The [customMessages] pass over [validateFn.errors]. *)
Definition apply_customMessages (options : option ValidationOptions)
           (errs : option (list Err.ErrorObject))
  : option (list Err.ErrorObject) :=
  match opt customMessages options, errs with
  | Some messages, Some es =>
      Some (map (fun error =>
                   let customMessage := lookup (Err.keyword error) messages in
                   if JS.truthy customMessage
                   then Err.with_message error (show customMessage)
                   else error)
                es)
  | _, _ => errs
  end.

(** The body of the [try] and the function around it, for any
    normaliser in the place of [formatAjvErrors]. *)
Section Validator.

Variable normalise :
  option (list Err.ErrorObject) -> JS.result (list ValidationError).

Definition try_validate_with (ajv : Ajv.Engine) (schema : Schema)
           (value : Json) (options : option ValidationOptions)
  : JS.result ValidationResult :=
  JS.bind (Ajv.compile ajv schema) (fun validateFn =>
  JS.bind (validateFn value) (fun outcome =>
    let isValid_ := fst outcome in
    let errs := apply_customMessages options (snd outcome) in
    JS.bind
      (match errs with
       | Some es =>
           if isValid_ then JS.Ok None
           else JS.bind (normalise (Some es)) (fun l => JS.Ok (Some l))
       | None => JS.Ok None
       end)
      (fun formattedErrors =>
         JS.Ok {| isValid := isValid_;
                  errors := formattedErrors;
                  rawErrors :=
                    match opt debug options with
                    | Some true => Some errs
                    | _ => None
                    end |}))).

(** [try { ... } catch (error) { ... }]: whatever the body raises,
    the handler returns the schema error. *)
Definition ajvSchemaValidator_with (ajv : Ajv.Engine) (schema : Schema)
           (value : Json) (options : option ValidationOptions)
  : ValidationResult :=
  match try_validate_with ajv schema value options with
  | JS.Ok result => result
  | JS.Throw _ => schema_error_result
  end.

End Validator.

Definition try_validate := try_validate_with formatAjvErrors.

Definition ajvSchemaValidator (ajv : Ajv.Engine) (schema : Schema)
           (value : Json) (options : option ValidationOptions)
  : ValidationResult :=
  ajvSchemaValidator_with formatAjvErrors ajv schema value options.

(** ** Notions used in the statements *)

(** The map the loop maintains: keys without repetition, each entry
    filed under its own field. *)
Definition well_keyed (m : errorMap) : Prop :=
  NoDup (map fst m) /\ forall k e, In (k, e) m -> Entry.field e = k.

(** The field a raw error is filed under. *)
Definition field_of_error (error : Err.ErrorObject) : string :=
  match wrapped_additionalProperties error with
  | JS.Ok (Some entry) => Entry.field entry
  | _ => Entry.field (entry_of_error error)
  end.

Definition by_descending_priority (a b : Entry.t) : Prop :=
  Entry.priority b <= Entry.priority a.

(** The entry carries the generic message of a failed [then] branch. *)
Definition is_generic (e : Entry.t) : Prop :=
  Entry.message e = then_schema_message.

(** [e] lies below [g]: both have a path, that of [e] is longer and
    starts with that of [g]. *)
Definition descends (e g : Entry.t) : Prop :=
  exists p q,
    Entry.path g = Some p /\ Entry.path e = Some q
    /\ (length p < length q)%nat /\ firstn (length p) q = p.






(** *** Names and strings the statements are about *)

(** The names of the members of [Object.prototype], which [key in o]
    finds in every object made by an object literal. *)
Definition Object_prototype_members : list string :=
  ["constructor"; "__proto__"; "hasOwnProperty"; "isPrototypeOf";
   "propertyIsEnumerable"; "toLocaleString"; "toString"; "valueOf";
   "__defineGetter__"; "__defineSetter__"; "__lookupGetter__";
   "__lookupSetter__"].

Definition inherited (key : string) : bool :=
  existsb (String.eqb key) Object_prototype_members.

(** The string is ASCII text: each of its characters is one code
    unit of the JavaScript string, and [trim], [substring] and
    [toLowerCase] of the runtime act on it as the functions of the
    model do. *)
Fixpoint ascii_text (s : string) : bool :=
  match s with
  | EmptyString => true
  | String c rest => (nat_of_ascii c <? 128)%nat && ascii_text rest
  end.

(** The strings among the items of an array are ASCII text. *)
Definition ascii_items (value : Json) : Prop :=
  match value with
  | JArr items =>
      Forall (fun item => match item with
                          | JStr s => ascii_text s = true
                          | _ => True
                          end) items
  | _ => True
  end.

(** *** Notions for the keyword predicates *)

(** A service level target at the type of the keyword's signature:
    numbers for the values, strings for the units. *)
Record TimeTarget : Type := {
  resolveWithinUnit : string;
  resolveWithinValue : float;
  respondWithinUnit : string;
  respondWithinValue : float
}.

(** The item holds the four fields of the target. *)
Definition carries (item : Value) (t : TimeTarget) : Prop :=
  Untyped.own "resolveWithinValue" item = Untyped.num (resolveWithinValue t)
  /\ Untyped.own "resolveWithinUnit" item = Untyped.str (resolveWithinUnit t)
  /\ Untyped.own "respondWithinValue" item = Untyped.num (respondWithinValue t)
  /\ Untyped.own "respondWithinUnit" item = Untyped.str (respondWithinUnit t).

Definition resolveMinutes (rt : Untyped.Builtins) (t : TimeTarget) : float :=
  Untyped.minutes rt (resolveWithinValue t) (resolveWithinUnit t).

Definition respondMinutes (rt : Untyped.Builtins) (t : TimeTarget) : float :=
  Untyped.minutes rt (respondWithinValue t) (respondWithinUnit t).

(** The quantity of a duration as a number of minutes; [NaN] when
    the converter raises. *)
Definition quantity (rt : Untyped.Builtins) (value unit : option Value)
  : float :=
  match Untyped.convertToMinutes rt value unit with
  | JS.Ok m => Untyped.to_number rt m
  | JS.Throw _ => nan
  end.

(** The resolve quantity of the item is strictly greater than its
    respond quantity. *)
Definition resolve_exceeds_respond (rt : Untyped.Builtins) (item : Value)
  : bool :=
  (quantity rt (Untyped.own "respondWithinValue" item)
               (Untyped.own "respondWithinUnit" item)
   <? quantity rt (Untyped.own "resolveWithinValue" item)
                  (Untyped.own "resolveWithinUnit" item))%float.




(** *** Concrete inputs *)

Module Sample.

(** Built-in functions for data whose strings are ASCII text and
    whose durations are numbers: lower-casing on the ASCII letters;
    the other functions are not called on such data. *)
Definition builtins : Untyped.Builtins :=
  {| Untyped.toLowerCase := JS.toLowerCase;
     Untyped.Number := fun _ => nan;
     Untyped.toString := fun _ => "";
     Untyped.string_le := fun _ _ => false;
     Untyped.Date_at_midnight := fun _ _ _ => 0%float |}.

(** A service level target as the request holds it. *)
Definition target (resolve : float) (resolve_unit : string)
           (respond : float) (respond_unit : string) : Value :=
  VObj [("resolveWithinValue", VNum resolve);
        ("resolveWithinUnit", VStr resolve_unit);
        ("respondWithinValue", VNum respond);
        ("respondWithinUnit", VStr respond_unit)].

(** A raw error written by hand, as the unit tests of the
    normaliser write them. *)
Definition raw (keyword instancePath : string) (params : Err.Params)
           (message : option string) : Err.ErrorObject :=
  Err.Build_ErrorObject keyword instancePath "" params message None.

Definition params_type (t : string) : Err.Params :=
  Err.Build_Params None None None (Some t) None None.

Definition params_missing (p : string) : Err.Params :=
  Err.Build_Params (Some p) None None None None None.

Definition params_additional (p : string) : Err.Params :=
  Err.Build_Params None (Some p) None None None None.

Definition params_errors (nested : list Err.ErrorObject) : Err.Params :=
  Err.Build_Params None None None None None (Some nested).






(** [id] has the wrong type, and the object [nested], which allows
    no further property and has its own text for that, holds a
    property named [id]. *)
Definition no_extra_keys : Schema :=
  [KType "object";
   KAdditionalProperties (APBool false);
   KErrorMessage (EMObject [("additionalProperties", "No extra keys")] [] [])].

Definition type_then_wrapped : list Err.ErrorObject :=
  [raw "type" "/id" (params_type "string") (Some "must be string");
   raw "errorMessage" "/nested"
       (params_errors
          [Err.Build_ErrorObject "additionalProperties" "/nested" ""
             (params_additional "id")
             (Some "must NOT have additional properties")
             (Some no_extra_keys)])
       (Some "No extra keys")].

(** The same failure of [nested] without a text of its own. *)
Definition type_then_plain : list Err.ErrorObject :=
  [raw "type" "/id" (params_type "string") (Some "must be string");
   raw "additionalProperties" "/nested" (params_additional "id")
       (Some "must NOT have additional properties")].

(** A runtime without regular expressions and further formats, for
    schemas that use neither. *)
Definition runtime : Ajv.Runtime :=
  {| Ajv.regexp := fun _ => None; Ajv.formats := fun _ => None |}.

(** The enumeration and the identifier of the repository's tests of
    [fieldDefinitionValidation]. *)
Definition TestFieldTypeEnum : list (string * string) :=
  [("label", "label"); ("text", "text"); ("textarea", "textarea");
   ("date", "date"); ("people", "people"); ("number", "number");
   ("dropdown", "dropdown")].

Definition validUUID : string := "123e4567-e89b-12d3-a456-426614174000".

Definition fieldDefinition : Schema :=
  CommonValidations.fieldDefinitionValidation
    {| FieldDefinitionOptions.fieldTypeEnum := TestFieldTypeEnum;
       FieldDefinitionOptions.errorMessages := None |}.

(** The object of the repository's tests, with or without the
    identifier and the payload. *)
Definition field_value (id : option string) (fieldType : string)
           (selectedValue : option Json) : Json :=
  JObj (match id with
        | Some v => [("customFieldDefinitionId", JStr v)]
        | None => []
        end
        ++ [("fieldType", JStr fieldType)]
        ++ match selectedValue with
           | Some v => [("selectedValue", v)]
           | None => []
           end)%list.

(** After the schema of the repository's test of a compilation
    failure: [additionalProperties] is not a boolean. *)
Definition invalidSchema : Schema :=
  [KType "object";
   KProperties [("test", [KFormat "non-existent-format"])];
   KAdditionalProperties (APOther (NSString "not-a-boolean"))].

(** An object with a string [id] and a closed object [nested]. *)
Definition id_and_nested : Schema :=
  Type_Object [("id", Type_String []);
               ("nested", KProperties [] :: no_extra_keys)] [].

Definition id_and_nested_value : Json :=
  JObj [("id", JNum 5); ("nested", JObj [("id", JNum 1)])].

Definition number_error : ValidationError :=
  {| field := "selectedValue";
     message := "Selected value for number fields must be a number";
     path := Some ["selectedValue"] |}.

End Sample.

(** ** Further notions and code *)

(** The field name the normaliser aims at for a path given by its
    segments: the segments joined by dots, a segment made of digits
    written as an index in brackets. *)
Fixpoint bracket_dot_from (first : bool) (segs : list string) : string :=
  match segs with
  | [] => ""
  | part :: rest =>
      (if JS.is_index part then "[" ++ part ++ "]"
       else if first then part else "." ++ part)
      ++ bracket_dot_from false rest
  end.

Definition bracket_dot (segs : list string) : string :=
  bracket_dot_from true segs.

(** ** The time-range keyword of [schema-ajv-validator.ts] *)

Record TimeRangeData : Type := {
  startTime : option string;
  endTime : option string
}.

Section TimeRange.

(** [Number(piece)] on the pieces of a time: [None] is [NaN].  The
    pieces are taken to denote integers when they denote a number. *)
Variable Number : string -> option Z.

(** [hour * 60 + minute] of the first two pieces of
    [time.split(':').map(Number)]; a missing second piece is
    [undefined] and the sum is [NaN], as it is when a piece is. *)
Definition minutes_of_time (time : string) : option Z :=
  match map Number (JS.split ":" time) with
  | Some hour :: Some minute :: _ => Some (hour * 60 + minute)
  | _ => None
  end.

Definition validateTimeRange (data : TimeRangeData) : bool :=
  if negb (JS.truthy (startTime data)) || negb (JS.truthy (endTime data))
  then true
  else
    match minutes_of_time (show (startTime data)),
          minutes_of_time (show (endTime data)) with
    | Some startMinutes, Some endMinutes => startMinutes <? endMinutes
    | _, _ => false
    end.

End TimeRange.

(** ** [chunkDocumentArray] of [dbops.helper.ts]

    [Array.from({ length: Math.ceil(array.length / size) }, ...)]: a
    length that is [NaN] or negative counts as 0, an infinite one
    raises a [RangeError] (an [Error] here). *)
Definition chunkDocumentArray {T} (array : list T) (size : Z)
  : JS.result (list (list T)) :=
  let len := Z.of_nat (length array) in
  if size =? 0 then
    if len =? 0 then JS.Ok [] else JS.Throw (JS.Error "Invalid array length")
  else if size <? 0 then JS.Ok []
  else
    let count := Z.to_nat ((len + size - 1) / size) in
    JS.Ok (map (fun i => firstn (Z.to_nat size)
                                (skipn (i * Z.to_nat size) array))
               (seq 0 count)).

(** ** [ArrayQueryParamPipe]

    [field in result] is read as: [result] has [field] as its own
    property.  That is the test of the source for every field that
    names no member of [Object.prototype]; the statements about the
    pipe assume it of the array fields ([inherited], below). *)
Module ArrayQueryParamPipe.

(** [{ ...value }]: the properties of an object, the items of an
    array under their indices. *)
Definition spread (value : Json) : list (string * Json) :=
  match value with
  | JObj props => props
  | JArr items => combine (map Ajv.show_index (seq 0 (length items))) items
  | _ => []
  end.

(** One turn of [arrayFields.forEach]. *)
Definition wrap_field (result : list (string * Json)) (field : string)
  : list (string * Json) :=
  match lookup field result with
  | Some (JArr _) => result
  | Some v => Map_set result field (JArr [v])
  | None => result
  end.

Definition transform (arrayFields : list string) (value : Json) : Json :=
  match value with
  | JArr _ | JObj _ =>
      JObj (fold_left wrap_field arrayFields (spread value))
  | _ => value
  end.

End ArrayQueryParamPipe.

(** ** [TrimMiddleware] *)

Section TrimMiddleware.

(** [value.trim()]. *)
Variable trim : string -> string.

Definition trimString (value : string) : string := trim value.

(** The object case rebuilds the object entry by entry, in the order
    of [Object.entries]; the keys of an object are distinct, so the
    rebuilt object has the same keys in the same order. *)
Fixpoint trimDeep (data : Json) : Json :=
  match data with
  | JStr s => JStr (trimString s)
  | JArr items => JArr (map trimDeep items)
  | JObj props => JObj (map (fun kv => (fst kv, trimDeep (snd kv))) props)
  | _ => data
  end.

End TrimMiddleware.

(** ** [SchemaAjvValidationPipe] *)

Module BadRequestException.
Record t : Type := {
  message : string;
  cause : option (list ValidationError)
}.
End BadRequestException.

Inductive PipeResult : Type :=
| Return (value : Json)
| Raise (e : BadRequestException.t).

Module SchemaAjvValidationPipe.

(** [ajvSchemaValidator] returns in every case, so the handler of the
    [try] around the call is never entered; what is left is the test
    of [response.isValid]. *)
Definition transform (ajv : Ajv.Engine) (schema : Schema) (value : Json)
  : PipeResult :=
  let response := ajvSchemaValidator ajv schema value None in
  if negb (isValid response) then
    Raise {| BadRequestException.message := "Validation failed";
             BadRequestException.cause := errors response |}
  else Return value.

End SchemaAjvValidationPipe.

(** ** Cursors and pages, [cursor.helper.ts] and [pagination.helper.ts] *)

Definition DEFAULT_PAGE_SIZE : float := 40.

(** [xs.length] as a number. *)
Definition length_number {A} (xs : list A) : float :=
  PrimFloat.of_uint63 (Uint63.of_Z (Z.of_nat (length xs))).

(** [new ResumeCraftException(ErrorCode.INVALID_INPUT)]. *)
Definition INVALID_INPUT : JS.exn := JS.Error "Invalid Input".

(** Truthiness of a parsed JSON value. *)
Definition Json_truthy (v : Json) : bool :=
  match v with
  | JNull => false
  | JBool b => b
  | JNum n => negb (n =? 0)
  | JStr s => negb (String.eqb s "")
  | JArr _ | JObj _ => true
  end.

(** [decoded.key] of a parsed JSON value other than [null]. *)
Definition Json_get (v : Json) (key : string) : option Json :=
  match v with
  | JObj props => lookup key props
  | _ => None
  end.

Module CursorDataType.
Record t : Type := { name : Json; id : Json }.
End CursorDataType.

Section Cursor.

(** [name.trim()]. *)
Variable trim : string -> string.

(** [Buffer.from(JSON.stringify({ n, i })).toString('base64url')]. *)
Variable stringify_base64url : string -> string -> string.

(** [JSON.parse(Buffer.from(cursor, 'base64url').toString())];
    [None] when the text is no JSON and [JSON.parse] raises. *)
Variable parse_base64url : string -> option Json.

(** [name.trim().substring(0, 30)] on ASCII text, where a character
    is one code unit. *)
Definition encodeCursor (name uuid : string) : JS.result string :=
  if String.eqb name "" || String.eqb uuid "" then JS.Throw INVALID_INPUT
  else
    let safeName := String.substring 0 30 (trim name) in
    JS.Ok (stringify_base64url safeName uuid).

(** Whatever is raised inside the [try] (by [JSON.parse], by reading
    a property of [null], or by the test of [n] and [i]) is caught and
    raised again as [INVALID_INPUT]. *)
Definition decodeCursor (cursor : string) : JS.result CursorDataType.t :=
  if String.eqb cursor "" then JS.Throw INVALID_INPUT
  else
    match parse_base64url cursor with
    | None | Some JNull => JS.Throw INVALID_INPUT
    | Some decoded =>
        match Json_get decoded "n", Json_get decoded "i" with
        | Some n, Some i =>
            if negb (Json_truthy n) || negb (Json_truthy i)
            then JS.Throw INVALID_INPUT
            else JS.Ok {| CursorDataType.name := n; CursorDataType.id := i |}
        | _, _ => JS.Throw INVALID_INPUT
        end
    end.

(** An entity is read through [read entity key]: [String(entity[key])],
    or [None] when [entity[key]] is [undefined] or [null]. *)
Variable TEntity : Type.
Variable read : TEntity -> string -> option string.

Definition buildCursorToken (entity : TEntity) (key1 key2 : string)
  : JS.result string :=
  match read entity key1 with
  | None => JS.Throw (JS.Error ("Missing value for cursor field: " ++ key1))
  | Some value1 =>
      match read entity key2 with
      | None => JS.Throw (JS.Error ("Missing value for cursor field: " ++ key2))
      | Some value2 => encodeCursor value1 value2
      end
  end.

Record Page : Type := {
  items : list TEntity;
  nextPageToken : option string;
  pageSize : float
}.

(** [Number(payload.size)]: any number, [NaN] included. *)
Variable Number : string -> float.

Variable TPayload : Type.

(** [payload.size] when it is a string. *)
Variable size_of : TPayload -> option string.

(** [fetchFn] with its promise awaited: the entities, or the reason
    of the rejection. *)
Definition paginateWithCursor
           (fetchFn : TPayload -> float -> JS.result (list TEntity))
           (payload : TPayload) (cursorFields : string * string)
  : JS.result Page :=
  let size :=
    match size_of payload with
    | Some s => Number s
    | None => DEFAULT_PAGE_SIZE
    end in
  let pageSize_ := (size + 1)%float in
  JS.bind (fetchFn payload pageSize_) (fun entities =>
    if (length_number entities =? pageSize_)%float
    then
      let popped := removelast entities in
      match nth_error popped (length popped - 1) with
      | None =>
          JS.Throw (JS.TypeError "Cannot read properties of undefined")
      | Some lastItem =>
          JS.bind (buildCursorToken lastItem (fst cursorFields)
                                    (snd cursorFields))
                  (fun token =>
                     JS.Ok {| items := popped;
                              nextPageToken := Some token;
                              pageSize := size |})
      end
    else JS.Ok {| items := entities;
                  nextPageToken := None;
                  pageSize := size |}).

End Cursor.

Arguments Build_Page {TEntity} items nextPageToken pageSize.
Arguments items {TEntity} p.
Arguments nextPageToken {TEntity} p.
Arguments pageSize {TEntity} p.
Arguments buildCursorToken trim stringify_base64url {TEntity} read
  entity key1 key2.
Arguments paginateWithCursor trim stringify_base64url {TEntity} read Number
  {TPayload} size_of fetchFn payload cursorFields.

(** ** [String.prototype.trim] on the ASCII white space *)

Fixpoint trim_start (s : string) : string :=
  match s with
  | EmptyString => EmptyString
  | String c rest => if JS.is_space c then trim_start rest else s
  end.

Fixpoint trim_end (s : string) : string :=
  match s with
  | EmptyString => EmptyString
  | String c rest =>
      match trim_end rest with
      | EmptyString => if JS.is_space c then EmptyString else String c EmptyString
      | kept => String c kept
      end
  end.

Definition ascii_trim (s : string) : string := trim_end (trim_start s).

(** The string does not begin with white space. *)
Definition starts_clean (s : string) : Prop :=
  match s with
  | EmptyString => True
  | String c _ => JS.is_space c = false
  end.

(** ** [QueryParamValidationPipe]: the first pass over the query

    The values of a query are strings; the first pass files them in
    an object, a key with dots under the nested objects its segments
    name.  [key in current] is read as: [current] has [key] as its
    own property, which is the test of the source for every key that
    names no member of [Object.prototype]; the statements about the
    pass assume it of the segments of the keys ([inherited],
    below). *)
Inductive QueryValue : Type :=
| QString (s : string)
| QObject (props : list (string * QueryValue)).

(** [setNestedValue] from the object [current] on, along the keys
    left.  Stepping into a string, or setting a property of one,
    raises a [TypeError]: the body of a class is strict code. *)
Fixpoint set_along (keys : list string) (value : QueryValue)
         (current : list (string * QueryValue))
  : JS.result (list (string * QueryValue)) :=
  match keys with
  | [] => JS.Ok current
  | [lastKey] => JS.Ok (Map_set current lastKey value)
  | key :: rest =>
      match lookup key current with
      | None =>
          JS.bind (set_along rest value [])
                  (fun sub => JS.Ok (Map_set current key (QObject sub)))
      | Some (QObject sub) =>
          JS.bind (set_along rest value sub)
                  (fun sub' => JS.Ok (Map_set current key (QObject sub')))
      | Some (QString _) =>
          JS.Throw (JS.TypeError "Cannot use a string as an object")
      end
  end.

Definition setNestedValue (obj : list (string * QueryValue)) (path : string)
           (value : QueryValue) : JS.result (list (string * QueryValue)) :=
  set_along (JS.split "." path) value obj.

(** The first pass of [parseQueryParams]. *)
Definition first_pass (value : list (string * string))
  : JS.result (list (string * QueryValue)) :=
  fold_left
    (fun acc kv =>
       JS.bind acc (fun result =>
         if JS.includes_char "." (fst kv)
         then setNestedValue result (fst kv) (QString (snd kv))
         else JS.Ok (Map_set result (fst kv) (QString (snd kv)))))
    value (JS.Ok []).

(** Reading an object along a sequence of keys. *)
Fixpoint read_along (keys : list string)
         (current : list (string * QueryValue)) : option QueryValue :=
  match keys with
  | [] => None
  | [lastKey] => lookup lastKey current
  | key :: rest =>
      match lookup key current with
      | Some (QObject sub) => read_along rest sub
      | _ => None
      end
  end.

(** Some proper beginning of the keys leads to a string. *)
Definition blocked (keys : list string)
           (current : list (string * QueryValue)) : Prop :=
  exists before after s,
    keys = (before ++ after)%list /\ before <> [] /\ after <> []
    /\ read_along before current = Some (QString s).

(** ** The shape of the [stringArray] fragment *)

(** The items of the array: non-empty strings, with a pattern or
    without. *)
Definition string_item (pat : option string) (em : ErrorMessage) : Schema :=
  Type_String
    (KIsNotEmpty true
     :: (optional_keyword KPattern pat ++ [KErrorMessage em]))%list.

Definition string_array (pat : option string) (emI : ErrorMessage)
           (min max : option Z) (emA : ErrorMessage) : Schema :=
  Type_Array (string_item pat emI)
    (optional_keyword KMinItems min ++ optional_keyword KMaxItems max
     ++ [KErrorMessage emA])%list.

(** ** [CommonValidations.uuidArray] *)

Module UuidArrayOptions.
Record t : Type := {
  minItems : option Z;
  maxItems : option Z;
  errorMessages : option Messages.t
}.
End UuidArrayOptions.

(** The items of the array built by [uuidArray]. *)
Definition uuid_item (options : option UuidArrayOptions.t) : Schema :=
  let errorMessages := opt UuidArrayOptions.errorMessages options in
  Type_String
    [KFormat "uuid";
     KErrorMessage (EMObject
       [("type", "Please enter a valid ID");
        ("format", JS.or_else (opt Messages.items errorMessages)
                              "Please enter a valid ID in UUID format")]
       [] [])].

Definition uuidArray (options : option UuidArrayOptions.t) : Schema :=
  let errorMessages := opt UuidArrayOptions.errorMessages options in
  let minItems := opt UuidArrayOptions.minItems options in
  let maxItems := opt UuidArrayOptions.maxItems options in
  Type_Array (uuid_item options)
    (optional_keyword KMinItems minItems
     ++ optional_keyword KMaxItems maxItems
     ++ [KErrorMessage (EMObject
           [("type", JS.or_else (opt Messages.type errorMessages)
                                "Please provide a list of IDs");
            ("minItems",
             JS.or_else (opt Messages.minItems errorMessages)
                        ("Must select at least "
                         ++ show_optional_number minItems ++ " items"));
            ("maxItems",
             JS.or_else (opt Messages.maxItems errorMessages)
                        ("Cannot select more than "
                         ++ show_optional_number maxItems ++ " items"))]
           [] [])])%list.

(** ** Builders kept as the objects they return

    [description] and [dateRange] use keywords outside the engine
    model above.  Their fragments are kept as objects; a property
    whose value is [undefined] holds [None]. *)
Definition Fragment : Type := list (string * option Json).

(** [Type.String(options)]: the options with [type: 'string']. *)
Definition TypeBox_String (options : Fragment) : Fragment :=
  Map_set options "type" (Some (JStr "string")).

Module DescriptionType.
Inductive t : Type := Summary | Detailed | Comment | Note | Label.
End DescriptionType.

Definition DescriptionLimits (type : DescriptionType.t) : Z * Z :=
  match type with
  | DescriptionType.Summary => (2, 255)
  | DescriptionType.Detailed => (2, 3000)
  | DescriptionType.Comment => (2, 1000)
  | DescriptionType.Note => (2, 500)
  | DescriptionType.Label => (2, 50)
  end.

Module DescriptionMessages.
Record t : Type := {
  type : option string;
  minLength : option string;
  maxLength : option string;
  pattern : option string
}.
End DescriptionMessages.

Module DescriptionOptions.
Record t : Type := {
  type : option DescriptionType.t;
  minLength : option Z;
  maxLength : option Z;
  allowHtml : option bool;
  skipMaxLength : option bool;
  errorMessages : option DescriptionMessages.t
}.
End DescriptionOptions.

Definition description_pattern : string :=
  "^[\w\s.,!?()" ++ dquote ++ "-]+$".

Definition description (options : option DescriptionOptions.t) : Fragment :=
  let type :=
    match opt DescriptionOptions.type options with
    | Some t => t
    | None => DescriptionType.Detailed
    end in
  let minLength :=
    JS.num_or_else (opt DescriptionOptions.minLength options)
                   (fst (DescriptionLimits type)) in
  let maxLength :=
    match opt DescriptionOptions.skipMaxLength options with
    | Some true => None
    | _ => Some (JS.num_or_else (opt DescriptionOptions.maxLength options)
                                (snd (DescriptionLimits type)))
    end in
  let allowHtml :=
    match opt DescriptionOptions.allowHtml options with
    | Some true => true
    | _ => false
    end in
  let messages := opt DescriptionOptions.errorMessages options in
  let baseSchema : Fragment :=
    ([("minLength", Some (JNum minLength))]
     ++ match maxLength with
        | Some m => [("maxLength", Some (JNum m))]
        | None => []
        end
     ++ [("pattern",
          if allowHtml then None else Some (JStr description_pattern));
         ("errorMessage",
          Some (JObj
            ([("type", JStr (JS.or_else (opt DescriptionMessages.type messages)
                                        "Description must be text"));
              ("minLength",
               JStr (JS.or_else (opt DescriptionMessages.minLength messages)
                                ("Description must be at least "
                                 ++ show_number minLength ++ " characters")))]
             ++ match maxLength with
                | Some m =>
                    [("maxLength",
                      JStr (JS.or_else
                              (opt DescriptionMessages.maxLength messages)
                              ("Description cannot exceed "
                               ++ show_number m ++ " characters")))]
                | None => []
                end
             ++ [("pattern",
                  JStr (JS.or_else (opt DescriptionMessages.pattern messages)
                                   "Description contains invalid characters"))])%list))])%list in
  TypeBox_String
    (if allowHtml then baseSchema else Map_set baseSchema "pattern" None).

Module DateRangeMessages.
Record t : Type := {
  type : option string;
  format : option string;
  minimum : option string;
  maximum : option string
}.
End DateRangeMessages.

Module DateRangeOptions.
Record t : Type := {
  minDate : option string;
  maxDate : option string;
  errorMessages : option DateRangeMessages.t;
  default : option string
}.
End DateRangeOptions.

Definition dateRange (options : option DateRangeOptions.t) : Fragment :=
  let messages := opt DateRangeOptions.errorMessages options in
  TypeBox_String
    [("pattern", Some (JStr "^\d{4}-(0[1-9]|1[0-2])-(0[1-9]|[12]\d|3[01])$"));
     ("minLength", Some (JNum 10));
     ("maxLength", Some (JNum 10));
     ("errorMessage",
      Some (JObj
        [("type", JStr (JS.or_else (opt DateRangeMessages.type messages)
                                   "Must be a date"));
         ("pattern", JStr (JS.or_else (opt DateRangeMessages.format messages)
                                      "Date must be in YYYY-MM-DD format"));
         ("minLength", JStr "Invalid date format");
         ("maxLength", JStr "Invalid date format")]));
     ("default", option_map JStr (opt DateRangeOptions.default options))].

(** * Properties *)

(** ** Duration conversion and the time relation keyword *)

Lemma Ok_injective {A} (a b : A) : JS.Ok a = JS.Ok b -> a = b.
Proof. intro H. now inversion H. Qed.

Lemma append_assoc (a b c : string) : (a ++ b) ++ c = a ++ b ++ c.
Proof. induction a as [|x a IH]; simpl; [reflexivity|now rewrite IH]. Qed.

Lemma append_empty_r (a : string) : a ++ "" = a.
Proof. induction a as [|x a IH]; simpl; [reflexivity|now rewrite IH]. Qed.

(** *** Comparisons and products of doubles *)

Lemma SFcompare_refl (s : spec_float) :
  s <> S754_nan -> SFcompare s s = Some Eq.
Proof.
  destruct s as [b|b| |b m e]; intro H; try reflexivity.
  - destruct b; reflexivity.
  - contradiction.
  - simpl. rewrite Z.compare_refl.
    rewrite Pos.compare_cont_refl. destruct b; reflexivity.
Qed.

Lemma SFcompare_nan_l s : SFcompare S754_nan s = None.
Proof. reflexivity. Qed.
Lemma SFcompare_nan_r s : SFcompare s S754_nan = None.
Proof. destruct s; reflexivity. Qed.

Lemma SFcompare_None s t :
  SFcompare s t = None <-> s = S754_nan \/ t = S754_nan.
Proof.
  split.
  - destruct s, t; simpl; intro H; try discriminate H; auto.
  - intros [->| ->]; [reflexivity|apply SFcompare_nan_r].
Qed.

Lemma SFcompare_antisym s t :
  SFcompare t s = option_map CompOpp (SFcompare s t).
Proof.
  destruct s as [b|b| |b m e], t as [b'|b'| |b' m' e']; simpl; try reflexivity;
    try (destruct b; reflexivity); try (destruct b'; reflexivity);
    try (destruct b, b'; reflexivity).
  destruct b, b'; simpl; try reflexivity.
  - rewrite (Z.compare_antisym e e').
    destruct (e ?= e') eqn:E; simpl; try reflexivity.
    f_equal. f_equal. change Eq with (CompOpp Eq) at 1.
    now rewrite <- (Pos.compare_cont_antisym m m' Eq).
  - rewrite (Z.compare_antisym e e').
    destruct (e ?= e') eqn:E; simpl; try reflexivity.
    f_equal. change Eq with (CompOpp Eq) at 1.
    now rewrite <- (Pos.compare_cont_antisym m m' Eq).
Qed.

Lemma is_nan_spec (x : float) :
  PrimFloat.is_nan x = true <-> Prim2SF x = S754_nan.
Proof.
  unfold PrimFloat.is_nan. rewrite eqb_spec. unfold SFeqb. split.
  - intro H. destruct (Prim2SF x) eqn:E; try reflexivity;
      rewrite SFcompare_refl in H by discriminate; discriminate.
  - intros ->. reflexivity.
Qed.

Lemma is_nan_eq (x : float) : PrimFloat.is_nan x = true <-> x = nan.
Proof.
  rewrite is_nan_spec. split.
  - intro H. apply Prim2SF_inj. rewrite H. reflexivity.
  - intros ->. reflexivity.
Qed.

Lemma leb_false_iff (a b : float) :
  (a <=? b)%float = false
  <-> (b <? a)%float = true \/ a = nan \/ b = nan.
Proof.
  rewrite leb_spec, ltb_spec. unfold SFleb, SFltb.
  rewrite (SFcompare_antisym (Prim2SF a) (Prim2SF b)).
  rewrite <- !is_nan_eq, !is_nan_spec.
  destruct (SFcompare (Prim2SF a) (Prim2SF b)) as [[]|] eqn:E; simpl.
  - split; [discriminate|]. intros [H|[H|H]]; [discriminate| |];
      rewrite H in E; [|rewrite SFcompare_nan_r in E]; discriminate.
  - split; [discriminate|]. intros [H|[H|H]]; [discriminate| |];
      rewrite H in E; [|rewrite SFcompare_nan_r in E]; discriminate.
  - split; auto.
  - split; [|reflexivity]. intros _. right. now apply SFcompare_None.
Qed.

Lemma leb_nan_l (x : float) : (nan <=? x)%float = false.
Proof. apply leb_false_iff. right. now left. Qed.
Lemma leb_nan_r (x : float) : (x <=? nan)%float = false.
Proof. apply leb_false_iff. right. now right. Qed.
Lemma eqb_sym (a b : float) : (a =? b)%float = (b =? a)%float.
Proof.
  rewrite !eqb_spec. unfold SFeqb. rewrite (SFcompare_antisym (Prim2SF a) (Prim2SF b)).
  destruct (SFcompare (Prim2SF a) (Prim2SF b)) as [[]|]; reflexivity.
Qed.

Lemma shr_1_nonneg (mrs : shr_record) :
  0 <= shr_m mrs -> 0 <= shr_m (shr_1 mrs).
Proof.
  destruct mrs as [m r s]. simpl.
  destruct m as [|p|p]; intro H; simpl; try lia.
  destruct p; simpl; lia.
Qed.

Lemma iter_shr_1_nonneg (p : positive) (mrs : shr_record) :
  0 <= shr_m mrs -> 0 <= shr_m (iter_pos shr_1 p mrs).
Proof.
  revert mrs. induction p as [p IH|p IH|]; intros mrs H; simpl.
  - apply IH, IH. now apply shr_1_nonneg.
  - apply IH, IH. exact H.
  - now apply shr_1_nonneg.
Qed.

Lemma shr_nonneg (mrs : shr_record) (e n : Z) :
  0 <= shr_m mrs -> 0 <= shr_m (fst (shr mrs e n)).
Proof.
  intro H. unfold shr. destruct n; simpl; try assumption.
  now apply iter_shr_1_nonneg.
Qed.

Lemma shr_fexp_nonneg (prec emax m e : Z) (l : location) :
  0 <= m -> 0 <= shr_m (fst (shr_fexp prec emax m e l)).
Proof.
  intro H. unfold shr_fexp. apply shr_nonneg.
  destruct l as [|[]]; exact H.
Qed.

Lemma round_nearest_even_nonneg (m : Z) (l : location) :
  0 <= m -> 0 <= round_nearest_even m l.
Proof.
  intro H. unfold round_nearest_even.
  destruct l as [|[]]; try lia; destruct (Z.even m); lia.
Qed.

Lemma binary_round_aux_not_nan
      (prec emax : Z) (sx : bool) (mx ex : Z) (lx : location) :
  0 <= mx -> binary_round_aux prec emax sx mx ex lx <> S754_nan.
Proof.
  intro H. unfold binary_round_aux.
  pose proof (shr_fexp_nonneg prec emax mx ex lx H) as H1.
  destruct (shr_fexp prec emax mx ex lx) as [mrs' e']. simpl in H1.
  pose proof (shr_fexp_nonneg prec emax
                (round_nearest_even (shr_m mrs') (loc_of_shr_record mrs')) e'
                loc_Exact (round_nearest_even_nonneg _ _ H1)) as H2.
  destruct (shr_fexp prec emax _ e' loc_Exact) as [mrs'' e'']. simpl in H2.
  destruct (shr_m mrs''); try lia; try discriminate.
  destruct (e'' <=? emax - prec); discriminate.
Qed.

(** A number other than [NaN] times a finite number other than 0 is
    not [NaN]. *)
Lemma mul_not_nan (x c : float) (s : bool) (m : positive) (e : Z) :
  Prim2SF c = S754_finite s m e -> x <> nan -> (x * c)%float <> nan.
Proof.
  intros Hc Hx Hnan. apply Hx. apply is_nan_eq, is_nan_spec.
  apply (f_equal Prim2SF) in Hnan. rewrite mul_spec, Hc in Hnan.
  change (Prim2SF nan) with S754_nan in Hnan.
  unfold SF64mul, SFmul in Hnan.
  destruct (Prim2SF x) as [sx|sx| |sx mx ex]; try discriminate Hnan;
    [reflexivity|].
  exfalso. revert Hnan. apply binary_round_aux_not_nan. lia.
Qed.

Lemma times_60_not_nan (x : float) : x <> nan -> (x * 60)%float <> nan.
Proof. eapply mul_not_nan. vm_compute. reflexivity. Qed.
Lemma times_24_not_nan (x : float) : x <> nan -> (x * 24)%float <> nan.
Proof. eapply mul_not_nan. vm_compute. reflexivity. Qed.
Lemma times_30_not_nan (x : float) : x <> nan -> (x * 30)%float <> nan.
Proof. eapply mul_not_nan. vm_compute. reflexivity. Qed.

(** *** The converters and the time relation *)



Lemma get_Ok (item : Value) (key : string) :
  item <> VNull -> Untyped.get item key = JS.Ok (Untyped.own key item).
Proof. destruct item; intro H; try reflexivity. contradiction. Qed.


Lemma no_items_false {A} (data : list A) :
  data <> [] -> Keywords.no_items data = false.
Proof. destruct data; [contradiction|reflexivity]. Qed.

Lemma convert_number (rt : Untyped.Builtins) (v : float) (unit : string) :
  Untyped.convertToMinutes rt (Untyped.num v) (Untyped.str unit)
  = JS.Ok (Untyped.num (Untyped.minutes rt v unit)).
Proof.
  unfold Untyped.convertToMinutes, Untyped.minutes, Untyped.num, Untyped.str.
  cbv zeta.
  destruct (String.eqb (Untyped.toLowerCase rt unit) "months"); [reflexivity|].
  destruct (String.eqb (Untyped.toLowerCase rt unit) "days"); [reflexivity|].
  destruct (String.eqb (Untyped.toLowerCase rt unit) "hours"); [reflexivity|].
  destruct (String.eqb (Untyped.toLowerCase rt unit) "minutes"); reflexivity.
Qed.

Lemma carries_not_null (item : Value) (t : TimeTarget) :
  carries item t -> item <> VNull.
Proof. intros [H _] ->. discriminate H. Qed.

Lemma carries_relation (rt : Untyped.Builtins) (item : Value) (t : TimeTarget) :
  carries item t ->
  Untyped.resolve_not_after_respond rt item
  = JS.Ok (resolveMinutes rt t <=? respondMinutes rt t)%float.
Proof.
  intro H. pose proof (carries_not_null item t H) as Hn.
  destruct H as (H1 & H2 & H3 & H4).
  unfold Untyped.resolve_not_after_respond.
  rewrite !get_Ok by exact Hn. rewrite H1, H2, H3, H4. cbn [JS.bind].
  rewrite !convert_number. cbn [JS.bind]. reflexivity.
Qed.

Lemma some_result_Ok {A} (p : A -> JS.result bool) (q : A -> bool) (xs : list A) :
  (forall x, In x xs -> p x = JS.Ok (q x)) ->
  JS.some_result p xs = JS.Ok (existsb q xs).
Proof.
  induction xs as [|x xs IH]; intro H; [reflexivity|].
  cbn [JS.some_result existsb]. rewrite (H x) by now left. cbn [JS.bind].
  destruct (q x); [reflexivity|]. apply IH. intros y Hy. apply H. now right.
Qed.

Lemma some_result_Forall2 {A B} (p : A -> JS.result bool) (q : B -> bool)
      (R : A -> B -> Prop) (xs : list A) (ys : list B) :
  (forall x y, R x y -> p x = JS.Ok (q y)) ->
  Forall2 R xs ys ->
  JS.some_result p xs = JS.Ok (existsb q ys).
Proof.
  intros H HR. induction HR as [|x y xs ys Hxy _ IH]; [reflexivity|].
  cbn [JS.some_result existsb]. rewrite (H x y Hxy). cbn [JS.bind].
  destruct (q y); [reflexivity|exact IH].
Qed.

Lemma validateTimeRelation_carried (rt : Untyped.Builtins)
      (data : list Value) (ts : list TimeTarget) :
  Forall2 carries data ts ->
  Untyped.validateTimeRelation rt data
  = JS.Ok (forallb (fun t => negb (resolveMinutes rt t
                                   <=? respondMinutes rt t)%float) ts).
Proof.
  intro H. unfold Untyped.validateTimeRelation.
  destruct H as [|x y xs ys Hxy Hrest]; [reflexivity|].
  cbn [Keywords.no_items].
  rewrite (some_result_Forall2 _ (fun t => (resolveMinutes rt t <=? respondMinutes rt t)%float)
             carries (x :: xs) (y :: ys)).
  - cbn [JS.bind]. f_equal.
    generalize (y :: ys). intro l. induction l as [|a l IH]; [reflexivity|].
    cbn [existsb forallb]. rewrite negb_orb. now rewrite IH.
  - intros a b. apply carries_relation.
  - now constructor.
Qed.

Lemma minutes_not_nan (rt : Untyped.Builtins) (v : float) (unit : string) :
  v <> nan -> Untyped.minutes rt v unit <> nan.
Proof.
  intro H. unfold Untyped.minutes. cbv zeta.
  destruct (String.eqb _ "months");
    [now apply times_60_not_nan, times_24_not_nan, times_30_not_nan|].
  destruct (String.eqb _ "days");
    [now apply times_60_not_nan, times_24_not_nan|].
  destruct (String.eqb _ "hours"); [now apply times_60_not_nan|exact H].
Qed.

Lemma nan_mul (y : float) : (nan * y)%float = nan.
Proof. apply Prim2SF_inj. rewrite mul_spec. reflexivity. Qed.

(** The converter on a missing value gives a value that counts as
    [NaN]. *)
Lemma convert_missing (rt : Untyped.Builtins) (unit : string) :
  exists m,
    Untyped.convertToMinutes rt None (Untyped.str unit) = JS.Ok m
    /\ Untyped.to_number rt m = nan
    /\ forall s, Untyped.ToPrimitive rt m <> PStr s.
Proof.
  unfold Untyped.convertToMinutes, Untyped.str. cbv zeta.
  destruct (String.eqb _ "months");
    [eexists; split; [reflexivity|split; [reflexivity|discriminate]]|].
  destruct (String.eqb _ "days");
    [eexists; split; [reflexivity|split; [reflexivity|discriminate]]|].
  destruct (String.eqb _ "hours");
    [eexists; split; [reflexivity|split; [reflexivity|discriminate]]|].
  destruct (String.eqb _ "minutes");
    eexists; (split; [reflexivity|split; [reflexivity|discriminate]]).
Qed.

Lemma less_or_equal_nan_r (rt : Untyped.Builtins) (a b : option Value) :
  Untyped.to_number rt b = nan ->
  (forall s, Untyped.ToPrimitive rt b <> PStr s) ->
  Untyped.less_or_equal rt a b = false.
Proof.
  intros Hb Hs. unfold Untyped.less_or_equal.
  unfold Untyped.to_number in Hb.
  destruct (Untyped.ToPrimitive rt b) as [| | | |t] eqn:E;
    [| | | |now destruct (Hs t)];
    destruct (Untyped.ToPrimitive rt a); rewrite Hb; apply leb_nan_r.
Qed.

Lemma less_or_equal_nan_l (rt : Untyped.Builtins) (a b : option Value) :
  Untyped.to_number rt a = nan ->
  (forall s, Untyped.ToPrimitive rt a <> PStr s) ->
  Untyped.less_or_equal rt a b = false.
Proof.
  intros Ha Hs. unfold Untyped.less_or_equal.
  unfold Untyped.to_number in Ha.
  destruct (Untyped.ToPrimitive rt a) as [| | | |t] eqn:E;
    [| | | |now destruct (Hs t)];
    destruct (Untyped.ToPrimitive rt b); rewrite Ha; apply leb_nan_l.
Qed.


(** C5, as stated: the keyword accepts an array exactly when every
    element has a resolve quantity strictly greater than its respond
    quantity.  It fails on the data of a request: an element that
    lacks its respond value is accepted, the missing value being
    [NaN], which no quantity exceeds. *)
Lemma missing_duration_is_accepted :
  ~ (forall (rt : Untyped.Builtins) (data : list Value),
        Untyped.validateTimeRelation rt data = JS.Ok true
        <-> forall item, In item data ->
                         resolve_exceeds_respond rt item = true).
Proof.
  intro H.
  specialize (H Sample.builtins
                [VObj [("resolveWithinValue", VNum 1);
                       ("resolveWithinUnit", VStr "hours");
                       ("respondWithinUnit", VStr "hours")]]).
  destruct H as [H _].
  specialize (H eq_refl _ (or_introl eq_refl)).
  vm_compute in H. discriminate H.
Qed.

(** C5, amended.  The validator's converter maps a number of
    minutes to itself, of hours to [v * 60], of days to [v * 24 * 60]
    and of months to [v * 30 * 24 * 60], in the arithmetic of doubles
    (1 hour is 60, 1 day 1440, 1 month 43200), the unit being read
    through [toLowerCase].  On an array whose elements hold the four
    fields, numbers and strings, the keyword holds exactly when no
    element has [resolve <= respond] in minutes; when moreover no
    value is [NaN], exactly when every element has [respond <
    resolve]: respond 1 day against resolve 24 hours is rejected,
    and so is respond 2^1023 days against resolve 2^1023 months,
    both products being infinite.  An element without its respond value
    is accepted, and an element that is [null] or has no string as
    its resolve unit makes the predicate raise. *)
Theorem validateTimeRelation_strict (rt : Untyped.Builtins) :
  (forall v unit,
      Untyped.convertToMinutes rt (Untyped.num v) (Untyped.str unit)
      = JS.Ok (Untyped.num (Untyped.minutes rt v unit)))
  /\ (forall v unit, Untyped.toLowerCase rt unit = "minutes" ->
                     Untyped.minutes rt v unit = v)
  /\ (forall v unit, Untyped.toLowerCase rt unit = "hours" ->
                     Untyped.minutes rt v unit = (v * 60)%float)
  /\ (forall v unit, Untyped.toLowerCase rt unit = "days" ->
                     Untyped.minutes rt v unit = (v * 24 * 60)%float)
  /\ (forall v unit, Untyped.toLowerCase rt unit = "months" ->
                     Untyped.minutes rt v unit = (v * 30 * 24 * 60)%float)
  /\ (1 * 60 = 60 /\ 1 * 24 * 60 = 1440 /\ 1 * 30 * 24 * 60 = 43200)%float
  /\ (forall data ts,
         Forall2 carries data ts ->
         Untyped.validateTimeRelation rt data
         = JS.Ok (forallb (fun t => negb (resolveMinutes rt t
                                          <=? respondMinutes rt t)%float) ts))
  /\ (forall data ts,
         Forall2 carries data ts ->
         Forall (fun t => resolveWithinValue t <> nan
                          /\ respondWithinValue t <> nan) ts ->
         (Untyped.validateTimeRelation rt data = JS.Ok true
          <-> forall t, In t ts ->
                (respondMinutes rt t <? resolveMinutes rt t)%float = true))
  /\ Untyped.validateTimeRelation Sample.builtins
       [Sample.target 24 "hours" 1 "days"]
     = JS.Ok false
  /\ Untyped.validateTimeRelation Sample.builtins
       [Sample.target 0x1p1023 "months" 0x1p1023 "days"]
     = JS.Ok false
  /\ (forall item resolve unit respondUnit,
         Untyped.own "resolveWithinValue" item = Untyped.num resolve ->
         Untyped.own "resolveWithinUnit" item = Untyped.str unit ->
         Untyped.own "respondWithinValue" item = None ->
         Untyped.own "respondWithinUnit" item = Untyped.str respondUnit ->
         Untyped.validateTimeRelation rt [item] = JS.Ok true)
  /\ (forall item rest,
         item = VNull
         \/ (item <> VNull
             /\ forall s,
                  Untyped.own "resolveWithinUnit" item <> Untyped.str s) ->
         exists e, Untyped.validateTimeRelation rt (item :: rest) = JS.Throw e).
Proof.
  split; [apply convert_number|].
  split; [intros v unit H; unfold Untyped.minutes; rewrite H; reflexivity|].
  split; [intros v unit H; unfold Untyped.minutes; rewrite H; reflexivity|].
  split; [intros v unit H; unfold Untyped.minutes; rewrite H; reflexivity|].
  split; [intros v unit H; unfold Untyped.minutes; rewrite H; reflexivity|].
  split; [repeat split; reflexivity|].
  split; [apply validateTimeRelation_carried|].
  split.
  { intros data ts Hc Hnum. rewrite (validateTimeRelation_carried rt data ts Hc).
    rewrite Forall_forall in Hnum.
    split.
    - intros H t Ht. apply Ok_injective in H.
      rewrite forallb_forall in H. specialize (H t Ht).
      apply negb_true_iff, leb_false_iff in H.
      destruct (Hnum t Ht) as [Hres Hresp].
      destruct H as [H|[H|H]]; [exact H| |].
      + now apply minutes_not_nan in H.
      + now apply minutes_not_nan in H.
    - intro H. f_equal. apply forallb_forall. intros t Ht.
      apply negb_true_iff, leb_false_iff. left. now apply H. }
  split; [reflexivity|]. split; [reflexivity|].
  split.
  { intros item resolve unit respondUnit H1 H2 H3 H4.
    assert (Hn : item <> VNull) by (intros ->; discriminate H1).
    unfold Untyped.validateTimeRelation. cbn [Keywords.no_items JS.some_result].
    unfold Untyped.resolve_not_after_respond.
    rewrite !get_Ok by exact Hn. rewrite H1, H2, H3, H4. cbn [JS.bind].
    rewrite convert_number. cbn [JS.bind].
    destruct (convert_missing rt respondUnit) as (m & -> & Hm & Hs).
    cbn [JS.bind]. now rewrite (less_or_equal_nan_r rt _ m Hm Hs). }
  intros item rest [->|[Hn Hunit]].
  - eexists. reflexivity.
  - unfold Untyped.validateTimeRelation. cbn [Keywords.no_items JS.some_result].
    unfold Untyped.resolve_not_after_respond.
    rewrite !get_Ok by exact Hn. cbn [JS.bind].
    unfold Untyped.convertToMinutes at 1.
    destruct (Untyped.own "resolveWithinUnit" item) as [[| | |s| |]|] eqn:E;
      try (eexists; reflexivity).
    now destruct (Hunit s).
Qed.

(** ** The uniqueness keywords *)




















(** ** Keywords on small collections *)





(** ** The normaliser on absent input *)

(** C9. [formatAjvErrors] of a null or undefined list of raw errors
    returns the empty list; it does not raise. *)
Theorem formatAjvErrors_absent : formatAjvErrors None = JS.Ok [].
Proof. reflexivity. Qed.

(** ** The normaliser's map: one entry per field *)

Lemma lookup_None_not_key {V} (key : string) (m : list (string * V)) :
  lookup key m = None <-> ~ In key (map fst m).
Proof.
  induction m as [|[k v] m IH]; simpl.
  - split; [intros _ []|reflexivity].
  - destruct (String.eqb_spec k key) as [->|Hne].
    + split; [discriminate|intro H; exfalso; apply H; now left].
    + rewrite IH. split.
      * intros H [Hk|Hin]; [now apply Hne|now apply H].
      * intros H Hin. apply H. now right.
Qed.

Lemma Map_set_keys {V} (m : list (string * V)) (key : string) (v : V) :
  map fst (Map_set m key v)
  = if existsb (String.eqb key) (map fst m) then map fst m
    else (map fst m ++ [key])%list.
Proof.
  induction m as [|[k old] m IH]; simpl; [reflexivity|].
  rewrite (String.eqb_sym key k).
  destruct (String.eqb_spec k key) as [->|Hne]; simpl; [reflexivity|].
  rewrite IH. now destruct (existsb (String.eqb key) (map fst m)).
Qed.

Lemma existsb_eqb_In (key : string) (keys : list string) :
  existsb (String.eqb key) keys = true <-> In key keys.
Proof.
  rewrite existsb_exists. split.
  - intros (x & Hx & He). apply String.eqb_eq in He. now subst.
  - intro H. exists key. split; [exact H|apply String.eqb_refl].
Qed.

Lemma Map_set_NoDup {V} (m : list (string * V)) (key : string) (v : V) :
  NoDup (map fst m) -> NoDup (map fst (Map_set m key v)).
Proof.
  intro H. rewrite Map_set_keys.
  destruct (existsb (String.eqb key) (map fst m)) eqn:E; [exact H|].
  apply NoDup_app; [exact H|repeat constructor; intros []|].
  intros x Hx [<-|[]].
  apply existsb_eqb_In in Hx. congruence.
Qed.

Lemma Map_set_In {V} (m : list (string * V)) (key : string) (v : V) kv :
  In kv (Map_set m key v) -> kv = (key, v) \/ In kv m.
Proof.
  induction m as [|[k old] m IH]; simpl.
  - intros [<-|[]]. now left.
  - destruct (String.eqb_spec k key) as [->|Hne]; simpl.
    + intros [<-|H]; [now left|right; now right].
    + intros [<-|H]; [right; now left|].
      destruct (IH H) as [->|H']; [now left|right; now right].
Qed.

Lemma Map_get_set_same {V} (m : list (string * V)) (key : string) (v : V) :
  Map_get (Map_set m key v) key = Some v.
Proof.
  unfold Map_get.
  induction m as [|[k old] m IH]; simpl.
  - now rewrite String.eqb_refl.
  - destruct (String.eqb_spec k key) as [->|Hne]; simpl.
    + now rewrite String.eqb_refl.
    + destruct (String.eqb_spec k key); [contradiction|exact IH].
Qed.

Lemma Map_set_key_present {V} (m : list (string * V)) (key : string) (v : V) :
  In key (map fst (Map_set m key v)).
Proof.
  rewrite Map_set_keys.
  destruct (existsb (String.eqb key) (map fst m)) eqn:E.
  - now apply existsb_eqb_In.
  - apply in_or_app. right. now left.
Qed.

Lemma Map_set_keeps_keys {V} (m : list (string * V)) (key k : string) (v : V) :
  In k (map fst m) -> In k (map fst (Map_set m key v)).
Proof.
  intro H. rewrite Map_set_keys.
  destruct (existsb (String.eqb key) (map fst m)); [exact H|].
  apply in_or_app. now left.
Qed.

Lemma well_keyed_set (m : errorMap) (e : Entry.t) :
  well_keyed m -> well_keyed (Map_set m (Entry.field e) e).
Proof.
  intros [Hnd Hkey]. split.
  - now apply Map_set_NoDup.
  - intros k e' Hin. apply Map_set_In in Hin.
    destruct Hin as [Heq|Hin]; [now inversion Heq|now apply Hkey].
Qed.

Lemma process_error_well_keyed (m m' : errorMap) (error : Err.ErrorObject) :
  well_keyed m -> process_error m error = JS.Ok m' ->
  well_keyed m'
  /\ In (field_of_error error) (map fst m')
  /\ (forall k, In k (map fst m) -> In k (map fst m')).
Proof.
  intros Hm. unfold process_error, field_of_error.
  destruct (wrapped_additionalProperties error) as [[entry|]|ex]; simpl;
    [| |discriminate].
  - intro H. inversion H; subst m'. clear H. split; [|split].
    + now apply well_keyed_set.
    + apply Map_set_key_present.
    + intros k Hk. now apply Map_set_keeps_keys.
  - destruct (Map_get m (Entry.field (entry_of_error error)))
      as [existing|] eqn:Hget.
    + destruct (Entry.priority existing <? Entry.priority (entry_of_error error));
        intro H; inversion H; subst m'; clear H.
      * split; [now apply well_keyed_set|split].
        -- apply Map_set_key_present.
        -- intros k Hk. now apply Map_set_keeps_keys.
      * split; [exact Hm|split; [|auto]].
        unfold Map_get in Hget.
        destruct (in_dec string_dec (Entry.field (entry_of_error error))
                         (map fst m)) as [Hin|Hnin]; [exact Hin|].
        apply lookup_None_not_key in Hnin. congruence.
    + intro H; inversion H; subst m'; clear H.
      split; [now apply well_keyed_set|split].
      * apply Map_set_key_present.
      * intros k Hk. now apply Map_set_keeps_keys.
Qed.

Lemma forEach_errors_well_keyed (errors : list Err.ErrorObject) :
  forall m m', well_keyed m -> forEach_errors errors m = JS.Ok m' ->
    well_keyed m'
    /\ (forall error, In error errors -> In (field_of_error error) (map fst m'))
    /\ (forall k, In k (map fst m) -> In k (map fst m')).
Proof.
  induction errors as [|error rest IH]; simpl; intros m m' Hm H.
  - inversion H; subst. split; [exact Hm|split; [intros _ []|auto]].
  - destruct (process_error m error) as [m1|ex] eqn:Hstep; simpl in H;
      [|discriminate].
    destruct (process_error_well_keyed m m1 error Hm Hstep) as (H1 & H2 & H3).
    destruct (IH m1 m' H1 H) as (H4 & H5 & H6).
    split; [exact H4|split].
    + intros e [<-|Hin]; [now apply H6|now apply H5].
    + intros k Hk. apply H6, H3, Hk.
Qed.

Lemma build_errorMap_well_keyed (errors : list Err.ErrorObject) (m : errorMap) :
  build_errorMap errors = JS.Ok m ->
  well_keyed m
  /\ forall error, In error errors -> In (field_of_error error) (map fst m).
Proof.
  intro H. unfold build_errorMap in H.
  destruct (forEach_errors_well_keyed errors [] m) as (H1 & H2 & _); auto.
  split; [constructor|intros k e []].
Qed.


(** ** The final order *)

Lemma insert_by_priority_perm (x : Entry.t) (l : list Entry.t) :
  Permutation (x :: l) (insert_by_priority x l).
Proof.
  induction l as [|y l IH]; simpl; [reflexivity|].
  destruct (Entry.priority x <? Entry.priority y); [|reflexivity].
  rewrite perm_swap. now constructor.
Qed.

Lemma sort_by_priority_perm (l : list Entry.t) :
  Permutation l (sort_by_priority l).
Proof.
  induction l as [|x l IH]; simpl; [constructor|].
  rewrite <- insert_by_priority_perm. now constructor.
Qed.

Lemma insert_by_priority_sorted (x : Entry.t) (l : list Entry.t) :
  StronglySorted by_descending_priority l ->
  StronglySorted by_descending_priority (insert_by_priority x l).
Proof.
  induction l as [|y l IH]; simpl; intro H.
  - repeat constructor.
  - inversion H as [|? ? Hs Hall]; subst.
    destruct (Z.ltb_spec (Entry.priority x) (Entry.priority y)) as [Hlt|Hge].
    + constructor; [now apply IH|].
      apply Forall_forall. intros z Hz.
      apply (Permutation_in _ (Permutation_sym (insert_by_priority_perm x l)))
        in Hz.
      destruct Hz as [<-|Hz].
      * unfold by_descending_priority. lia.
      * now apply (proj1 (Forall_forall _ _) Hall).
    + constructor; [exact H|].
      constructor; [exact Hge|].
      apply Forall_forall. intros z Hz.
      pose proof (proj1 (Forall_forall _ _) Hall z Hz) as Hyz.
      unfold by_descending_priority in *. lia.
Qed.

Lemma sort_by_priority_sorted (l : list Entry.t) :
  StronglySorted by_descending_priority (sort_by_priority l).
Proof.
  induction l as [|x l IH]; simpl; [constructor|].
  now apply insert_by_priority_sorted.
Qed.

(** The list [formatAjvErrors] returns is the list of the surviving
    entries, which is in descending order of priority and has at
    most one entry per field. *)
Lemma formatAjvErrors_sorted (errors : list Err.ErrorObject)
      (out : list ValidationError) :
  formatAjvErrors (Some errors) = JS.Ok out ->
  exists m,
    build_errorMap errors = JS.Ok m
    /\ out = map to_ValidationError (final_entries m)
    /\ StronglySorted by_descending_priority (final_entries m).
Proof.
  unfold formatAjvErrors.
  destruct (build_errorMap errors) as [m|ex]; simpl; [|discriminate].
  intro H. inversion H; subst. exists m.
  split; [reflexivity|split; [reflexivity|apply sort_by_priority_sorted]].
Qed.

(** ** The filter on generic conditional errors *)

Lemma In_combine_seq {A} (xs : list A) :
  forall (s i : nat) (x : A),
    In (i, x) (combine (seq s (length xs)) xs)
    <-> (s <= i)%nat /\ nth_error xs (i - s) = Some x.
Proof.
  induction xs as [|y xs IH]; intros s i x; simpl.
  - split; [intros []|]. intros [_ H]. destruct (i - s)%nat; discriminate.
  - rewrite IH. split.
    + intros [H|[Hle Hn]].
      * inversion H; subst. split; [lia|]. now rewrite Nat.sub_diag.
      * split; [lia|]. replace (i - s)%nat with (S (i - S s)) by lia. exact Hn.
    + intros [Hle Hn].
      destruct (Nat.eq_dec s i) as [->|Hne].
      * rewrite Nat.sub_diag in Hn. simpl in Hn. inversion Hn. now left.
      * right. split; [lia|].
        replace (i - s)%nat with (S (i - S s)) in Hn by lia. exact Hn.
Qed.

Lemma In_indexed {A} (xs : list A) (i : nat) (x : A) :
  In (i, x) (combine (seq 0 (length xs)) xs) <-> nth_error xs i = Some x.
Proof.
  rewrite In_combine_seq, Nat.sub_0_r. split; [now intros [_ H]|].
  intro H. split; [lia|exact H].
Qed.

Lemma In_filter_indexed {A} (p : A -> nat -> bool) (xs : list A) (x : A) :
  In x (filter_indexed p xs)
  <-> exists i, nth_error xs i = Some x /\ p x i = true.
Proof.
  unfold filter_indexed. rewrite in_map_iff. split.
  - intros ([i y] & Hy & Hin). simpl in Hy. subst y.
    apply filter_In in Hin. destruct Hin as [Hin Hp].
    exists i. split; [now apply In_indexed|exact Hp].
  - intros (i & Hn & Hp). exists (i, x). split; [reflexivity|].
    apply filter_In. split; [now apply In_indexed|exact Hp].
Qed.

Lemma some_indexed_true {A} (p : A -> nat -> bool) (xs : list A) :
  JS.some_indexed p xs = true
  <-> exists i x, nth_error xs i = Some x /\ p x i = true.
Proof.
  unfold JS.some_indexed. rewrite existsb_exists. split.
  - intros ([i x] & Hin & Hp). exists i, x.
    split; [now apply In_indexed|exact Hp].
  - intros (i & x & Hn & Hp). exists (i, x).
    split; [now apply In_indexed|exact Hp].
Qed.

Lemma filter_then_subset (values : list Entry.t) (x : Entry.t) :
  In x (filter_then values) -> In x values.
Proof.
  unfold filter_then. rewrite In_filter_indexed.
  intros (i & Hn & _). now apply nth_error_In in Hn.
Qed.

Lemma final_entries_subset (m : errorMap) (x : Entry.t) :
  In x (final_entries m)
  -> In x (filter_then (Map_values m)) /\ keep_named x = true.
Proof.
  unfold final_entries. intro H.
  apply (Permutation_in _ (Permutation_sym (sort_by_priority_perm _))) in H.
  now apply filter_In in H.
Qed.


Lemma descends_path_covers (e g : Entry.t) :
  descends e g -> path_covers e g = true.
Proof.
  intros (p & q & Hg & He & Hlen & Hpre).
  unfold path_covers. rewrite He, Hg, Hpre, String.eqb_refl, andb_true_r.
  now apply Nat.ltb_lt.
Qed.

Lemma descends_irreflexive (g : Entry.t) : ~ descends g g.
Proof.
  intros (p & q & Hg & He & Hlen & _).
  rewrite Hg in He. inversion He; subst. lia.
Qed.

Lemma prefix_length (p s : string) :
  String.prefix p s = true -> (String.length p <= String.length s)%nat.
Proof.
  revert s. induction p as [|c p IH]; intros s H; simpl; [lia|].
  destruct s as [|d s]; simpl in H; [discriminate|].
  destruct (Ascii.ascii_dec c d); [|discriminate].
  specialize (IH s H). simpl. lia.
Qed.

Lemma length_append (a b : string) :
  String.length (a ++ b) = (String.length a + String.length b)%nat.
Proof. induction a as [|c a IH]; simpl; [reflexivity|now rewrite IH]. Qed.

(** No entry lies under itself. *)
Lemma lies_under_irreflexive (g : Entry.t) : lies_under g g = false.
Proof.
  unfold lies_under. apply orb_false_iff. split.
  - unfold JS.startsWith.
    destruct (String.prefix (Entry.field g ++ ".") (Entry.field g)) eqn:E;
      [|reflexivity].
    apply prefix_length in E. rewrite length_append in E. simpl in E. lia.
  - unfold path_covers. destruct (Entry.path g); [|reflexivity].
    rewrite Nat.ltb_irrefl. reflexivity.
Qed.

Lemma descends_lies_under (e g : Entry.t) :
  descends e g -> lies_under e g = true.
Proof.
  intro H. unfold lies_under.
  rewrite (descends_path_covers e g H). apply orb_true_r.
Qed.

(** The first filter as the code has it: a generic entry with a field
    is removed exactly when another value lies under it, by the
    comparison of dotted strings of [lies_under]. *)
Lemma filter_then_removes_iff (values : list Entry.t) (g : Entry.t) :
  In g values -> is_generic g -> Entry.field g <> "" ->
  (~ In g (filter_then values)
   <-> exists e, In e values /\ e <> g /\ lies_under e g = true).
Proof.
  intros Hin Hgen Hf.
  assert (Hkeep : forall i,
             keep_then values g i
             = negb (JS.some_indexed (explains i g) values)).
  { intro i. unfold keep_then.
    unfold is_generic in Hgen. rewrite Hgen, String.eqb_refl.
    destruct (String.eqb_spec (Entry.field g) ""); [contradiction|].
    reflexivity. }
  split.
  - intro Hno. apply In_nth_error in Hin. destruct Hin as [i Hi].
    destruct (JS.some_indexed (explains i g) values) eqn:Hsome.
    + apply some_indexed_true in Hsome.
      destruct Hsome as (j & e & Hj & He).
      unfold explains in He. apply andb_true_iff in He.
      destruct He as [_ Hunder].
      exists e. split; [now apply nth_error_In in Hj|split; [|exact Hunder]].
      intros ->. rewrite lies_under_irreflexive in Hunder. discriminate.
    + exfalso. apply Hno. unfold filter_then. apply In_filter_indexed.
      exists i. split; [exact Hi|]. now rewrite Hkeep, Hsome.
  - intros (e & He & Hne & Hunder) Hpass.
    unfold filter_then in Hpass. apply In_filter_indexed in Hpass.
    destruct Hpass as (i & Hi & Hk).
    rewrite Hkeep in Hk. apply negb_true_iff in Hk.
    assert (Hsome : JS.some_indexed (explains i g) values = true).
    { apply some_indexed_true.
      apply In_nth_error in He. destruct He as [j Hj].
      exists j, e. split; [exact Hj|].
      unfold explains. rewrite Hunder, andb_true_r.
      apply negb_true_iff, Nat.eqb_neq. intros ->.
      rewrite Hi in Hj. injection Hj as Hj. now apply Hne. }
    congruence.
Qed.

(** A generic entry with a field does not pass the first filter when
    another value lies below it. *)
Lemma filter_then_drops_explained (values : list Entry.t) (g e : Entry.t) :
  In g values -> is_generic g -> Entry.field g <> "" ->
  In e values -> descends e g ->
  ~ In g (filter_then values).
Proof.
  intros Hin Hgen Hf He Hd.
  apply (filter_then_removes_iff values g Hin Hgen Hf).
  exists e. split; [exact He|split].
  - intros ->. now apply (descends_irreflexive g).
  - now apply descends_lies_under.
Qed.


(** The entry of an [if] error has priority 1. *)
Lemma if_error_priority (error : Err.ErrorObject) :
  Err.keyword error = "if" -> Entry.priority (entry_of_error error) = 1.
Proof. intro H. unfold entry_of_error. rewrite H. reflexivity. Qed.

(** *** Descent on plain names *)














(** ** Deduplication by field and priority *)

(** On the loop's main path an entry already filed under the field
    stays unless the new entry has a strictly higher priority: on a
    tie the first seen wins. *)
Lemma process_error_first_seen_wins (m : errorMap) (error : Err.ErrorObject)
      (existing : Entry.t) :
  wrapped_additionalProperties error = JS.Ok None ->
  Map_get m (Entry.field (entry_of_error error)) = Some existing ->
  Entry.priority (entry_of_error error) <= Entry.priority existing ->
  process_error m error = JS.Ok m.
Proof.
  intros Hw Hget Hle. unfold process_error. rewrite Hw. simpl. rewrite Hget.
  destruct (Z.ltb_spec (Entry.priority existing)
                       (Entry.priority (entry_of_error error))); [lia|].
  reflexivity.
Qed.

(** The branch for a wrapped [additionalProperties] error returns
    before that test: its entry replaces whatever is filed under the
    field. *)
Lemma process_error_wrapped_replaces (m : errorMap) (error : Err.ErrorObject)
      (entry : Entry.t) :
  wrapped_additionalProperties error = JS.Ok (Some entry) ->
  exists m',
    process_error m error = JS.Ok m'
    /\ Map_get m' (Entry.field entry) = Some entry.
Proof.
  intro Hw. unfold process_error. rewrite Hw. simpl.
  eexists. split; [reflexivity|apply Map_get_set_same].
Qed.

(** C6, on the code.  The returned list is in descending order of
    priority and the map holds one entry per field, but the wrapped
    [additionalProperties] branch does not compare priorities: after
    a type error for [id] (priority 2) a wrapped error for an extra
    property [id] (priority 2 as well) takes the place of the first
    seen entry, whereas the same failure reported without a text of
    its own leaves the first seen entry in place. *)
Theorem wrapped_additionalProperties_overrides_first_seen :
  formatAjvErrors (Some Sample.type_then_wrapped)
  = JS.Ok [{| field := "id"; message := "No extra keys"; path := None |}]
  /\ formatAjvErrors (Some Sample.type_then_plain)
     = JS.Ok [{| field := "id"; message := "id must be a string";
                 path := Some ["id"] |}]
  /\ build_errorMap [hd (Sample.raw "" "" Err.no_params None)
                        Sample.type_then_wrapped]
     = JS.Ok [("id", {| Entry.field := "id";
                        Entry.message := "id must be a string";
                        Entry.priority := 2;
                        Entry.path := Some ["id"] |})]
  /\ build_errorMap Sample.type_then_wrapped
     = JS.Ok [("id", {| Entry.field := "id";
                        Entry.message := "No extra keys";
                        Entry.priority := 2;
                        Entry.path := None |})].
Proof. repeat split. Qed.

(** The same input arises from the engine: the schema asks for a
    string [id] and a closed object [nested], the value has a number
    for [id] and an extra [id] in [nested]. *)
Lemma wrapped_override_through_validator :
  ajvSchemaValidator (Ajv.ajv Sample.runtime) Sample.id_and_nested
                     Sample.id_and_nested_value None
  = {| isValid := false;
       errors := Some [{| field := "id"; message := "No extra keys";
                          path := None |}];
       rawErrors := None |}.
Proof. vm_compute. reflexivity. Qed.

(** ** The engine model: enough fuel *)

Lemma list_max_ge {A} (f : A -> nat) (l : list A) (x : A) :
  In x l -> (f x <= list_max (map f l))%nat.
Proof.
  induction l as [|y l IH]; simpl; [intros []|].
  intros [->|H]; [lia|]. specialize (IH H). lia.
Qed.

Lemma find_keyword_In {A} (pick : Keyword -> option A) (schema : Schema) a :
  find_keyword pick schema = Some a ->
  exists k, In k schema /\ pick k = Some a.
Proof.
  induction schema as [|k rest IH]; simpl; [discriminate|].
  destruct (pick k) as [b|] eqn:E.
  - intros [= <-]. exists k. split; [now left|exact E].
  - intro H. destruct (IH H) as (k' & Hin & Hp).
    exists k'. split; [now right|exact Hp].
Qed.

Lemma keyword_depth_lt (schema : Schema) (k : Keyword) :
  In k schema -> (Ajv.keyword_depth k < Ajv.schema_depth schema)%nat.
Proof.
  intro H. unfold Ajv.schema_depth.
  pose proof (list_max_ge Ajv.keyword_depth schema k H). lia.
Qed.

Lemma depth_allOf (schema : Schema) branches b :
  schema_allOf schema = Some branches -> In b branches ->
  (Ajv.schema_depth b < Ajv.schema_depth schema)%nat.
Proof.
  intros H Hb. apply find_keyword_In in H. destruct H as (k & Hk & Hp).
  destruct k; try discriminate Hp. injection Hp as ->.
  pose proof (keyword_depth_lt schema _ Hk) as Hlt. simpl in Hlt.
  pose proof (list_max_ge (fun s => list_max (map Ajv.keyword_depth s))
                          branches b Hb).
  unfold Ajv.schema_depth at 1. lia.
Qed.

Lemma depth_if (schema s : Schema) :
  schema_if schema = Some s ->
  (Ajv.schema_depth s < Ajv.schema_depth schema)%nat.
Proof.
  intro H. apply find_keyword_In in H. destruct H as (k & Hk & Hp).
  destruct k; try discriminate Hp. injection Hp as ->.
  exact (keyword_depth_lt schema _ Hk).
Qed.

Lemma depth_then (schema s : Schema) :
  schema_then schema = Some s ->
  (Ajv.schema_depth s < Ajv.schema_depth schema)%nat.
Proof.
  intro H. apply find_keyword_In in H. destruct H as (k & Hk & Hp).
  destruct k; try discriminate Hp. injection Hp as ->.
  exact (keyword_depth_lt schema _ Hk).
Qed.

Lemma depth_items (schema s : Schema) :
  schema_items schema = Some s ->
  (Ajv.schema_depth s < Ajv.schema_depth schema)%nat.
Proof.
  intro H. apply find_keyword_In in H. destruct H as (k & Hk & Hp).
  destruct k; try discriminate Hp. injection Hp as ->.
  exact (keyword_depth_lt schema _ Hk).
Qed.

Lemma depth_properties (schema : Schema) (ps : string * Schema) :
  In ps (Ajv.declared_properties schema) ->
  (Ajv.schema_depth (snd ps) < Ajv.schema_depth schema)%nat.
Proof.
  unfold Ajv.declared_properties.
  destruct (schema_properties schema) as [l|] eqn:H; [|intros []].
  intro Hin. apply find_keyword_In in H. destruct H as (k & Hk & Hp).
  destruct k; try discriminate Hp. injection Hp as ->.
  pose proof (keyword_depth_lt schema _ Hk) as Hlt.
  change (Ajv.keyword_depth (KProperties l))
    with (S (list_max (map (fun p : string * Schema =>
                              list_max (map Ajv.keyword_depth (snd p))) l)))
    in Hlt.
  pose proof (list_max_ge (fun p : string * Schema =>
                             list_max (map Ajv.keyword_depth (snd p)))
                          l ps Hin).
  unfold Ajv.schema_depth at 1. lia.
Qed.

Lemma fold_left_ext_In {A B} (f g : A -> B -> A) (l : list B) :
  (forall a x, In x l -> f a x = g a x) ->
  forall a, fold_left f l a = fold_left g l a.
Proof.
  induction l as [|x l IH]; simpl; intros H a; [reflexivity|].
  rewrite (H a x (or_introl eq_refl)). apply IH.
  intros a' x' Hx'. apply H. now right.
Qed.

Section Fuel.

Variable rt : Ajv.Runtime.
Variables sub1 sub2 : Ajv.Validator.
Variable schema : Schema.
Hypothesis agree :
  forall s, (Ajv.schema_depth s < Ajv.schema_depth schema)%nat ->
            forall data ip sp v, sub1 s data ip sp v = sub2 s data ip sp v.

Lemma allOf_keyword_ext data ip sp v :
  Ajv.allOf_keyword sub1 schema data ip sp v
  = Ajv.allOf_keyword sub2 schema data ip sp v.
Proof.
  unfold Ajv.allOf_keyword.
  destruct (schema_allOf schema) as [branches|] eqn:E; [|reflexivity].
  apply fold_left_ext_In. intros a [i b] Hin. simpl.
  apply agree. apply (depth_allOf schema branches b E).
  now apply in_combine_r in Hin.
Qed.

Lemma if_keyword_ext data ip sp v :
  Ajv.if_keyword sub1 schema data ip sp v
  = Ajv.if_keyword sub2 schema data ip sp v.
Proof.
  unfold Ajv.if_keyword.
  destruct (schema_if schema) as [if_|] eqn:Ei; [|reflexivity].
  destruct (schema_then schema) as [then_|] eqn:Et; [|reflexivity].
  rewrite (agree if_ (depth_if schema if_ Ei)).
  rewrite (agree then_ (depth_then schema then_ Et)).
  reflexivity.
Qed.

Lemma array_keywords_ext data ip sp v :
  Ajv.array_keywords sub1 schema data ip sp v
  = Ajv.array_keywords sub2 schema data ip sp v.
Proof.
  unfold Ajv.array_keywords. destruct data; try reflexivity.
  destruct (schema_items schema) as [item_schema|] eqn:E; [|reflexivity].
  cbv zeta. apply fold_left_ext_In. intros a ix _.
  apply agree. exact (depth_items schema item_schema E).
Qed.

Lemma object_keywords_ext data ip sp v :
  Ajv.object_keywords sub1 schema data ip sp v
  = Ajv.object_keywords sub2 schema data ip sp v.
Proof.
  unfold Ajv.object_keywords. destruct data; try reflexivity.
  cbv zeta. apply fold_left_ext_In. intros a ps Hin.
  destruct (lookup (fst ps) props); [|reflexivity].
  apply agree. now apply depth_properties.
Qed.

Lemma node_body_ext data ip sp v :
  Ajv.node_body rt sub1 schema data ip sp v
  = Ajv.node_body rt sub2 schema data ip sp v.
Proof.
  unfold Ajv.node_body. cbv zeta.
  rewrite allOf_keyword_ext, if_keyword_ext.
  assert (Harr : forall g w,
             Ajv.typed_group schema data ip sp g
               (Ajv.array_keywords sub1 schema data ip sp) w
             = Ajv.typed_group schema data ip sp g
                 (Ajv.array_keywords sub2 schema data ip sp) w).
  { intros g w. unfold Ajv.typed_group.
    now rewrite array_keywords_ext. }
  assert (Hobj : forall g w,
             Ajv.typed_group schema data ip sp g
               (Ajv.object_keywords sub1 schema data ip sp) w
             = Ajv.typed_group schema data ip sp g
                 (Ajv.object_keywords sub2 schema data ip sp) w).
  { intros g w. unfold Ajv.typed_group.
    now rewrite object_keywords_ext. }
  now rewrite Harr, Hobj.
Qed.

End Fuel.

(** Any two amounts of fuel that reach the depth of the schema give
    the same errors. *)
Lemma validate_node_enough_fuel (rt : Ajv.Runtime) :
  forall (n m : nat) (schema : Schema),
    (Ajv.schema_depth schema <= n)%nat ->
    (Ajv.schema_depth schema <= m)%nat ->
    forall data ip sp v,
      Ajv.validate_node rt n schema data ip sp v
      = Ajv.validate_node rt m schema data ip sp v.
Proof.
  induction n as [|n IH]; intros m schema Hn Hm data ip sp v.
  - unfold Ajv.schema_depth in Hn. lia.
  - destruct m as [|m]; [unfold Ajv.schema_depth in Hm; lia|].
    simpl. apply node_body_ext.
    intros s Hs d i p w. apply IH; lia.
Qed.

(** The compiled function does not depend on the fuel chosen: more
    fuel than the depth of the schema changes nothing. *)
Lemma validate_node_depth_suffices (rt : Ajv.Runtime) (schema : Schema)
      (extra : nat) data ip sp v :
  Ajv.validate_node rt (Ajv.schema_depth schema + extra) schema data ip sp v
  = Ajv.validate_node rt (Ajv.schema_depth schema) schema data ip sp v.
Proof. apply validate_node_enough_fuel; lia. Qed.

(** ** The entry point *)

Lemma try_validate_valid_no_errors normalise ajv schema value options r :
  try_validate_with normalise ajv schema value options = JS.Ok r ->
  isValid r = true -> errors r = None.
Proof.
  unfold try_validate_with.
  destruct (Ajv.compile ajv schema) as [fn|]; simpl; [|discriminate].
  destruct (fn value) as [[b errs]|]; simpl; [|discriminate].
  destruct (apply_customMessages options errs) as [es|]; simpl.
  - destruct b; simpl.
    + intro H; inversion H; reflexivity.
    + destruct (normalise (Some es)); simpl; [|discriminate].
      intro H; inversion H; simpl. discriminate.
  - intro H; inversion H; reflexivity.
Qed.

Lemma apply_customMessages_None options errs :
  apply_customMessages options errs = None -> errs = None.
Proof.
  unfold apply_customMessages.
  destruct (opt customMessages options); destruct errs; congruence.
Qed.

(** C1, as stated: [isValid] is true exactly when [errors] is null or
    empty.  It fails: a number checked against the [uuid] fragment is
    invalid, its only raw error is the wrapped type error at the
    root, which has no field and priority 1, and the normaliser's
    last filter drops it; the result is invalid with an empty list. *)
Lemma invalid_with_empty_errors :
  ajvSchemaValidator (Ajv.ajv Sample.runtime) (CommonValidations.uuid None)
                     (JNum 42) None
  = {| isValid := false; errors := Some []; rawErrors := None |}
  /\ ~ (forall ajv schema value options,
           let r := ajvSchemaValidator ajv schema value options in
           isValid r = true <-> (errors r = None \/ errors r = Some [])).
Proof.
  assert (E : ajvSchemaValidator (Ajv.ajv Sample.runtime)
                (CommonValidations.uuid None) (JNum 42) None
              = {| isValid := false; errors := Some []; rawErrors := None |})
    by (vm_compute; reflexivity).
  split; [exact E|].
  intro H.
  specialize (H (Ajv.ajv Sample.runtime) (CommonValidations.uuid None)
                (JNum 42) None).
  cbv zeta in H. rewrite E in H. simpl in H.
  destruct H as [_ H]. discriminate H. now right.
Qed.

(** C1, amended.  [isValid] true implies that [errors] is null, and
    a list of errors, empty or not, comes only with [isValid] false;
    with an engine that leaves an error list whenever it rejects,
    [isValid] is true exactly when [errors] is null. *)
Theorem isValid_iff_errors_null ajv schema value options :
  (forall fn b, Ajv.compile ajv schema = JS.Ok fn ->
                fn value = JS.Ok (b, None) -> b = true) ->
  let r := ajvSchemaValidator ajv schema value options in
  (isValid r = true <-> errors r = None)
  /\ (forall l, errors r = Some l -> isValid r = false).
Proof.
  intros Hengine r.
  assert (Hfwd : isValid r = true -> errors r = None).
  { subst r. unfold ajvSchemaValidator, ajvSchemaValidator_with.
    destruct (try_validate_with formatAjvErrors ajv schema value options)
      as [res|] eqn:E.
    - now apply (try_validate_valid_no_errors _ _ _ _ _ _ E).
    - discriminate. }
  split; [split; [exact Hfwd|]|].
  - subst r. unfold ajvSchemaValidator, ajvSchemaValidator_with,
      try_validate_with.
    destruct (Ajv.compile ajv schema) as [fn|] eqn:Ec; simpl; [|discriminate].
    destruct (fn value) as [[b errs]|] eqn:Ef; simpl; [|discriminate].
    destruct (apply_customMessages options errs) as [es|] eqn:Ea; simpl.
    + destruct b; simpl; [reflexivity|].
      destruct (build_errorMap es); simpl; intro H; discriminate H.
    + intros _. apply apply_customMessages_None in Ea. subst errs.
      now apply (Hengine fn b).
  - intros l Hl. destruct (isValid r) eqn:Ev; [|reflexivity].
    rewrite (Hfwd eq_refl) in Hl. discriminate.
Qed.

(** The engine model leaves an error list whenever it rejects. *)
Lemma ajv_rejects_with_errors rt schema fn value b :
  Ajv.compile (Ajv.ajv rt) schema = JS.Ok fn ->
  fn value = JS.Ok (b, None) -> b = true.
Proof.
  cbn [Ajv.compile Ajv.ajv]. unfold Ajv.compile_schema.
  destruct (forallb (Ajv.keyword_ok rt) schema); [|discriminate].
  intro H. apply Ok_injective in H. rewrite <- H. clear H.
  destruct (Ajv.validate_node rt (Ajv.schema_depth schema) schema value "" "#" []);
    intro H; apply Ok_injective in H;
    pose proof (f_equal fst H) as H1; pose proof (f_equal snd H) as H2;
    cbn [fst snd] in H1, H2; congruence.
Qed.

Lemma isValid_iff_errors_null_witness :
  let r := ajvSchemaValidator (Ajv.ajv Sample.runtime) Sample.fieldDefinition
             (Sample.field_value (Some Sample.validUUID) "number"
                                 (Some (JNum 42))) None in
  (isValid r = true <-> errors r = None)
  /\ (forall l, errors r = Some l -> isValid r = false).
Proof.
  apply isValid_iff_errors_null.
  intros fn b. apply ajv_rejects_with_errors.
Defined.

(** C2. [ajvSchemaValidator] never raises: it returns the result of
    its body when the body returns, and the schema error when the
    body raises, whatever the step that raised.  When the compilation
    of the schema fails, the result is [isValid: false] with the
    single error [{field: '_schema', message: 'Invalid schema
    configuration'}], and it is the same for every normaliser: the
    error list does not pass through [formatAjvErrors]. *)
Theorem compile_failure_isolated ajv schema value options :
  (try_validate ajv schema value options
     = JS.Ok (ajvSchemaValidator ajv schema value options)
   \/ (exists e, try_validate ajv schema value options = JS.Throw e)
      /\ ajvSchemaValidator ajv schema value options = schema_error_result)
  /\ forall e,
      Ajv.compile ajv schema = JS.Throw e ->
      ajvSchemaValidator ajv schema value options
      = {| isValid := false;
           errors := Some [{| field := "_schema";
                              message := "Invalid schema configuration";
                              path := None |}];
           rawErrors := None |}
      /\ forall normalise,
           ajvSchemaValidator_with normalise ajv schema value options
           = ajvSchemaValidator ajv schema value options.
Proof.
  split.
  - unfold ajvSchemaValidator, ajvSchemaValidator_with, try_validate.
    destruct (try_validate_with formatAjvErrors ajv schema value options)
      as [r|e].
    + now left.
    + right. split; [now exists e|reflexivity].
  - intros e H.
    unfold ajvSchemaValidator, ajvSchemaValidator_with, try_validate_with.
    rewrite H. simpl. split; [reflexivity|intro; reflexivity].
Qed.

Lemma compile_failure_isolated_witness :
  ajvSchemaValidator (Ajv.ajv Sample.runtime) Sample.invalidSchema
                     (JObj [("test", JStr "value")]) None
  = {| isValid := false;
       errors := Some [{| field := "_schema";
                          message := "Invalid schema configuration";
                          path := None |}];
       rawErrors := None |}.
Proof.
  apply (proj2 (compile_failure_isolated (Ajv.ajv Sample.runtime)
                  Sample.invalidSchema (JObj [("test", JStr "value")]) None)
               (JS.Error "schema is invalid")).
  reflexivity.
Defined.

(** ** The schema fragment builders *)

(** C4, on the code.  [stringArray] called with no options raises a
    [TypeError]: it reads [options.notAllowSpecialChars] of
    [undefined].  Given options, it returns a fragment, as
    [objectArray], [uuid] and [enumValue] do for every argument. *)
Theorem stringArray_without_options_raises :
  CommonValidations.stringArray None
  = JS.Throw (JS.TypeError
      "Cannot read properties of undefined (reading 'notAllowSpecialChars')")
  /\ (forall o, exists fragment,
         CommonValidations.stringArray (Some o) = JS.Ok fragment)
  /\ (forall schema options, exists fragment,
         CommonValidations.objectArray schema options = JS.Ok fragment).
Proof.
  split; [reflexivity|split].
  - intro o. eexists. reflexivity.
  - intros schema options. unfold CommonValidations.objectArray.
    destruct (opt ObjectArrayOptions.validate options); eexists; reflexivity.
Qed.

(** ** The discriminated payload of [fieldDefinitionValidation] *)

(** C8, as stated: [{fieldType: "number", selectedValue: 42}] and
    [{fieldType: "number"}] are valid.  They are not: the fragment
    requires [customFieldDefinitionId]. *)
Lemma fieldDefinition_requires_id :
  ajvSchemaValidator (Ajv.ajv Sample.runtime) Sample.fieldDefinition
    (Sample.field_value None "number" (Some (JNum 42))) None
  = {| isValid := false;
       errors := Some [{| field := "customFieldDefinitionId";
                          message := "The field 'customFieldDefinitionId' is required";
                          path := None |}];
       rawErrors := None |}
  /\ isValid (ajvSchemaValidator (Ajv.ajv Sample.runtime) Sample.fieldDefinition
                (Sample.field_value None "number" None) None) = false.
Proof. split; vm_compute; reflexivity. Qed.

(** C8, amended.  With a [customFieldDefinitionId] that is a UUID,
    [fieldType: "number"] with [selectedValue: "42"] is invalid with
    the one message that the selected value must be a number, with
    [selectedValue: 42] it is valid, and without [selectedValue] it
    is valid, as it is for every field type of the enumeration. *)
Theorem fieldDefinition_number (rt : Ajv.Runtime) :
  let validate value :=
    ajvSchemaValidator (Ajv.ajv rt) Sample.fieldDefinition value None in
  let id := Some Sample.validUUID in
  validate (Sample.field_value id "number" (Some (JStr "42")))
  = {| isValid := false; errors := Some [Sample.number_error];
       rawErrors := None |}
  /\ validate (Sample.field_value id "number" (Some (JNum 42)))
     = {| isValid := true; errors := None; rawErrors := None |}
  /\ validate (Sample.field_value id "number" None)
     = {| isValid := true; errors := None; rawErrors := None |}
  /\ forall fieldType,
       In fieldType (map snd Sample.TestFieldTypeEnum) ->
       validate (Sample.field_value id fieldType None)
       = {| isValid := true; errors := None; rawErrors := None |}.
Proof.
  cbv zeta.
  split; [vm_compute; reflexivity|].
  split; [vm_compute; reflexivity|].
  split; [vm_compute; reflexivity|].
  intros fieldType Hin. cbn [map snd Sample.TestFieldTypeEnum] in Hin.
  repeat (destruct Hin as [<-|Hin]; [vm_compute; reflexivity|]).
  contradiction.
Qed.

(** The model agrees with the repository's tests of
    [fieldDefinitionValidation]: the first message for a payload of
    the wrong shape, a missing or malformed required field, an
    unknown field type, and the single specific error where a generic
    one would accompany it. *)
Lemma model_reproduces_repository_tests (rt : Ajv.Runtime) :
  let validate value :=
    ajvSchemaValidator (Ajv.ajv rt) Sample.fieldDefinition value None in
  let first_message r :=
    match errors r with
    | Some (e :: _) => Some (message e)
    | _ => None
    end in
  let id := Some Sample.validUUID in
  first_message
    (validate (Sample.field_value id "label" (Some (JStr "not an array"))))
  = Some "Selected value for label fields must be an array of strings"
  /\ first_message
       (validate (Sample.field_value id "label"
                    (Some (JArr [JNum 123; JNum 456; JNum 789]))))
     = Some "Selected value for label fields must be an array of strings"
  /\ validate (Sample.field_value id "label"
                 (Some (JArr [JStr "tag1"; JStr "tag2"; JStr "tag3"])))
     = {| isValid := true; errors := None; rawErrors := None |}
  /\ first_message
       (validate (Sample.field_value None "text" (Some (JStr "some text"))))
     = Some "The field 'customFieldDefinitionId' is required"
  /\ first_message
       (validate (JObj [("customFieldDefinitionId", JStr Sample.validUUID);
                        ("selectedValue", JStr "some text")]))
     = Some "The field 'fieldType' is required"
  /\ first_message
       (validate (Sample.field_value (Some "not-a-uuid") "text"
                    (Some (JStr "some text"))))
     = Some "Must be a valid UUID"
  /\ first_message
       (validate (Sample.field_value id "invalid-type"
                    (Some (JStr "some text"))))
     = Some "Invalid field type. Must be one of: label, text, textarea, date, people, number, dropdown"
  /\ first_message
       (validate (Sample.field_value id "text" (Some JNull)))
     = Some "Selected value for text fields must be a string"
  /\ validate (Sample.field_value id "date" (Some (JStr "not a number")))
     = {| isValid := false;
          errors := Some [{| field := "selectedValue";
                             message := "Selected value for date fields must be a number";
                             path := Some ["selectedValue"] |}];
          rawErrors := None |}.
Proof.
  cbv zeta.
  repeat (split; [vm_compute; reflexivity|]).
  vm_compute; reflexivity.
Qed.

(** ** Agreement with the repository's tests *)

(** The keyword predicates on the arrays of the repository's tests. *)
Lemma keywords_reproduce_repository_tests :
  let orders l := map (fun n => VObj [("order", VNum n)]) l in
  let escalations l := map (fun n => VObj [("escalationOrder", VNum n)]) l in
  let names l := map (fun s => VObj [("name", VStr s)]) l in
  let rt := Sample.builtins in
  Untyped.validateFieldOptionOrders rt (orders [1; 2; 3]%float) = JS.Ok true
  /\ Untyped.validateFieldOptionOrders rt (orders [1; 3; 4]%float) = JS.Ok false
  /\ Untyped.validateFieldOptionOrders rt (orders [2; 3; 4]%float) = JS.Ok false
  /\ Untyped.validateFieldOptionOrders rt (orders [1; 3; 2]%float) = JS.Ok false
  /\ Untyped.validateFieldOptionOrders rt (orders []) = JS.Ok true
  /\ Keywords.validateFieldOptionOrders
       (map Keywords.Build_FieldOptionOrder [1; 2; 3]) = true
  /\ Keywords.validateFieldOptionOrders
       (map Keywords.Build_FieldOptionOrder [1; 3; 2]) = false
  /\ Untyped.validateTimeRelation rt [Sample.target 2 "hours" 30 "minutes"]
     = JS.Ok true
  /\ Untyped.validateTimeRelation rt [Sample.target 30 "minutes" 2 "hours"]
     = JS.Ok false
  /\ Untyped.validateTimeRelation rt
       [Sample.target 1 "months" 5 "days"; Sample.target 2 "days" 12 "hours"]
     = JS.Ok true
  /\ Untyped.validateTimeRelation rt [Sample.target 24 "hours" 1 "days"]
     = JS.Ok false
  /\ Untyped.validateUniqueEscalationOrders (escalations [1; 1]%float)
     = JS.Ok false
  /\ Untyped.validateUniqueEscalationOrders (escalations [1; 2]%float)
     = JS.Ok true
  /\ Untyped.validateUniqueFieldOptionNames rt (names ["Option"; "OPTION"])
     = JS.Ok false
  /\ (convertToMinutes 2 "hours" = 120
      /\ convertToMinutes 2 "days" = 2880
      /\ convertToMinutes 30 "minutes" = 30
      /\ convertToMinutes 100 "unknown" = 100
      /\ convertToMinutes (-1) "days" = -1440)%float.
Proof. cbv zeta. repeat split. Qed.

(** The normaliser on the raw errors of its unit tests. *)
Lemma normaliser_reproduces_repository_tests :
  formatAjvErrors
    (Some [Sample.raw "required" "" (Sample.params_missing "email")
                      (Some "must have required property email")])
  = JS.Ok [{| field := "email"; message := "The field 'email' is required";
              path := None |}]
  /\ formatAjvErrors
       (Some [Sample.raw "type" "/age" (Sample.params_type "number")
                         (Some "must be number")])
     = JS.Ok [{| field := "age"; message := "age must be a number";
                 path := Some ["age"] |}]
  /\ formatAjvErrors
       (Some [Sample.raw "format" "/email"
                (Err.Build_Params None None (Some "email") None None None)
                (Some "must match format email")])
     = JS.Ok [{| field := "email";
                 message := "Please enter a valid email address";
                 path := Some ["email"] |}]
  /\ formatAjvErrors
       (Some [Sample.raw "enum" "/status"
                (Err.Build_Params None None None None
                                  (Some ["active"; "inactive"]) None)
                (Some "must be equal to one of the allowed values")])
     = JS.Ok [{| field := "status";
                 message := "Must be one of: active, inactive";
                 path := Some ["status"] |}]
  /\ formatAjvErrors
       (Some [Sample.raw "type" "/user/address/zipCode"
                         (Sample.params_type "string") (Some "must be string")])
     = JS.Ok [{| field := "user.address.zipCode";
                 message := "user.address.zipCode must be a string";
                 path := Some ["user"; "address"; "zipCode"] |}]
  /\ formatAjvErrors
       (Some [Sample.raw "type" "/items/0/quantity"
                         (Sample.params_type "number") (Some "must be number")])
     = JS.Ok [{| field := "items[0].quantity";
                 message := "items[0].quantity must be a number";
                 path := Some ["items"; "0"; "quantity"] |}]
  /\ formatAjvErrors
       (Some [Sample.raw "additionalProperties" ""
                         (Sample.params_additional "unknownField")
                         (Some "must NOT have additional properties")])
     = JS.Ok [{| field := "unknownField";
                 message := "The property 'unknownField' is not allowed";
                 path := None |}]
  /\ formatAjvErrors
       (Some [Sample.raw "errorMessage" "/email"
                (Sample.params_errors
                   [Sample.raw "format" "/email"
                      (Err.Build_Params None None (Some "email") None None None)
                      None])
                (Some "Custom email validation failed")])
     = JS.Ok [{| field := "email";
                 message := "Custom email validation failed";
                 path := Some ["email"] |}]
  /\ formatAjvErrors
       (Some [Sample.raw "minLength" "/password" Err.no_params
                         (Some "must NOT be shorter than 8 characters");
              Sample.raw "pattern" "/password" Err.no_params
                         (Some "must match pattern")])
     = JS.Ok [{| field := "password"; message := "Invalid format";
                 path := Some ["password"] |}].
Proof. repeat split. Qed.

(** * Further properties *)

(** ** The custom keywords *)

Lemma some_indexed_false {A} (p : A -> nat -> bool) (xs : list A) :
  JS.some_indexed p xs = false
  <-> forall i x, nth_error xs i = Some x -> p x i = false.
Proof.
  split.
  - intros H i x Hn. destruct (p x i) eqn:E; [|reflexivity].
    assert (JS.some_indexed p xs = true)
      by (apply some_indexed_true; eauto).
    congruence.
  - intros H. destruct (JS.some_indexed p xs) eqn:E; [|reflexivity].
    apply some_indexed_true in E as (i & x & Hn & Hp).
    rewrite (H i x Hn) in Hp. discriminate.
Qed.

Lemma nth_one_based (n i : nat) :
  (i < n)%nat -> nth i (map Z.of_nat (seq 1 n)) 0 = Z.of_nat (S i).
Proof.
  intro Hi.
  change (nth i (map Z.of_nat (seq 1 n)) 0)
    with (nth i (map Z.of_nat (seq 1 n)) (Z.of_nat 0)).
  rewrite map_nth, seq_nth by exact Hi. reflexivity.
Qed.

(** The loop of [validateFieldOptionOrders] on a non-empty list of
    orders: first order 1, every later one its predecessor plus 1. *)
Lemma orders_in_sequence (orders : list Z) :
  orders <> [] ->
  ((if negb (nth 0 orders 0 =? 1) then false
    else negb (JS.some_indexed
                 (fun order index =>
                    (0 <? index)%nat
                    && negb (order =? nth (index - 1) orders 0 + 1))
                 orders)) = true
   <-> orders = map Z.of_nat (seq 1 (length orders))).
Proof.
  intro Hne. split.
  - destruct (nth 0 orders 0 =? 1) eqn:H0; simpl; [|discriminate].
    rewrite negb_true_iff, some_indexed_false. intro H.
    apply Z.eqb_eq in H0.
    assert (Hn : forall i, (i < length orders)%nat ->
                           nth i orders 0 = Z.of_nat (S i)).
    { induction i as [|i IH]; intro Hi; [exact H0|].
      specialize (H (S i) (nth (S i) orders 0)
                    (nth_error_nth' orders 0 Hi)).
      cbn [Nat.ltb Nat.leb andb] in H.
      apply negb_false_iff, Z.eqb_eq in H. rewrite H.
      replace (S i - 1)%nat with i by lia.
      rewrite IH by lia. lia. }
    apply (nth_ext _ _ 0 0).
    + now rewrite length_map, length_seq.
    + intros i Hi. rewrite nth_one_based by exact Hi. now apply Hn.
  - remember (length orders) as n eqn:En. intro Heq.
    assert (Hn : forall i, (i < n)%nat -> nth i orders 0 = Z.of_nat (S i)).
    { intros i Hi. rewrite Heq. now apply nth_one_based. }
    assert (0 < n)%nat as Hpos.
    { destruct orders; [contradiction|]. simpl in En. lia. }
    rewrite (Hn 0%nat Hpos). simpl.
    rewrite negb_true_iff, some_indexed_false. intros i x Hx.
    destruct i as [|i]; [reflexivity|].
    cbn [Nat.ltb Nat.leb andb].
    apply negb_false_iff, Z.eqb_eq.
    assert (S i < n)%nat as Hi.
    { rewrite En. apply nth_error_Some. congruence. }
    apply (nth_error_nth _ _ 0) in Hx. rewrite <- Hx.
    replace (S i - 1)%nat with i by lia.
    rewrite (Hn (S i) Hi), (Hn i) by lia. lia.
Qed.

(** X1.  [validateFieldOptionOrders] accepts a list of options
    exactly when their orders, read in list order, are 1, 2, ..., n:
    the keyword fixes the order of the items as well as the set of
    their order numbers. *)
Theorem validateFieldOptionOrders_spec (data : list Keywords.FieldOptionOrder) :
  Keywords.validateFieldOptionOrders data = true
  <-> map Keywords.order data = map Z.of_nat (seq 1 (length data)).
Proof.
  unfold Keywords.validateFieldOptionOrders.
  destruct data as [|d ds]; [simpl; tauto|].
  cbn [Keywords.no_items]. cbv zeta.
  rewrite <- (length_map Keywords.order (d :: ds)).
  apply orders_in_sequence. discriminate.
Qed.


(** ** The normaliser *)

Lemma well_keyed_fields (m : errorMap) :
  well_keyed m -> map Entry.field (Map_values m) = map fst m.
Proof.
  intros [_ Hkey]. unfold Map_values. rewrite map_map.
  apply map_ext_in. intros [k e] Hin. simpl. now apply Hkey.
Qed.

Lemma NoDup_map_filter {A B} (f : A -> B) (p : A -> bool) (xs : list A) :
  NoDup (map f xs) -> NoDup (map f (filter p xs)).
Proof.
  induction xs as [|x xs IH]; simpl; intro H; [constructor|].
  inversion H as [|? ? Hnotin Hnd]; subst.
  destruct (p x); simpl; [constructor|]; auto.
  intro Hin. apply Hnotin. apply in_map_iff in Hin as (y & Hy & Hin).
  apply in_map_iff. exists y. split; [exact Hy|].
  now apply filter_In in Hin.
Qed.

Lemma NoDup_map_filter_combine {A B} (f : A -> B) (q : nat * A -> bool)
      (xs : list A) :
  NoDup (map f xs) ->
  forall s, NoDup (map f (map snd (filter q (combine (seq s (length xs)) xs)))).
Proof.
  induction xs as [|x xs IH]; simpl; intros H s; [constructor|].
  inversion H as [|? ? Hnotin Hnd]; subst.
  destruct (q (s, x)); simpl; [constructor|]; auto.
  intro Hin. apply Hnotin. apply in_map_iff in Hin as (y & Hy & Hin).
  apply in_map_iff. exists y. split; [exact Hy|].
  apply in_map_iff in Hin as ([i z] & Hz & Hin). simpl in Hz. subst z.
  apply filter_In in Hin as [Hin _]. now apply in_combine_r in Hin.
Qed.

Lemma fields_to_ValidationError (l : list Entry.t) :
  map field (map to_ValidationError l) = map Entry.field l.
Proof. rewrite map_map. reflexivity. Qed.

Lemma formatAjvErrors_Ok (errors : list Err.ErrorObject)
      (out : list ValidationError) :
  formatAjvErrors (Some errors) = JS.Ok out ->
  exists m, build_errorMap errors = JS.Ok m
            /\ out = map to_ValidationError (final_entries m).
Proof.
  unfold formatAjvErrors. destruct (build_errorMap errors) as [m|x]; simpl;
    intro H; [|discriminate H].
  exists m. split; [reflexivity|]. now apply Ok_injective in H.
Qed.

Lemma formatAjvErrors_fields_NoDup
      (errors : list Err.ErrorObject) (out : list ValidationError) :
  formatAjvErrors (Some errors) = JS.Ok out -> NoDup (map field out).
Proof.
  intro H. apply formatAjvErrors_Ok in H as (m & Hm & ->).
  apply build_errorMap_well_keyed in Hm as [Hwk _].
  rewrite fields_to_ValidationError. unfold final_entries.
  eapply Permutation_NoDup.
  - apply Permutation_map. apply sort_by_priority_perm.
  - apply NoDup_map_filter. unfold filter_then, filter_indexed.
    apply NoDup_map_filter_combine.
    rewrite well_keyed_fields by exact Hwk. apply Hwk.
Qed.

Lemma ajvSchemaValidator_fields_NoDup
      (ajv : Ajv.Engine) (schema : Schema) (value : Json)
      (options : option ValidationOptions) (l : list ValidationError) :
  errors (ajvSchemaValidator ajv schema value options) = Some l ->
  NoDup (map field l).
Proof.
  assert (Hschema : NoDup (map field [{| field := "_schema";
                                         message := "Invalid schema configuration";
                                         path := None |}]))
    by (repeat constructor; simpl; tauto).
  unfold ajvSchemaValidator, ajvSchemaValidator_with, try_validate_with.
  destruct (Ajv.compile ajv schema) as [fn|x]; cbn [JS.bind];
    [|intro H; injection H as <-; exact Hschema].
  destruct (fn value) as [[b errs]|x]; cbn [JS.bind fst snd];
    [|intro H; injection H as <-; exact Hschema].
  destruct (apply_customMessages options errs) as [es|];
    cbn [JS.bind]; [|discriminate].
  destruct b; cbn [JS.bind]; [discriminate|].
  destruct (formatAjvErrors (Some es)) as [out|x] eqn:E; cbn [JS.bind].
  - intro H. injection H as <-.
    now apply (formatAjvErrors_fields_NoDup es).
  - intro H. injection H as <-. exact Hschema.
Qed.

(** X3.  The normalised list names every field at most once, and so
    does the list of errors of every result of [ajvSchemaValidator]. *)
Theorem one_error_per_field :
  (forall (errors : list Err.ErrorObject) (out : list ValidationError),
      formatAjvErrors (Some errors) = JS.Ok out -> NoDup (map field out))
  /\ (forall ajv schema value options l,
         errors (ajvSchemaValidator ajv schema value options) = Some l ->
         NoDup (map field l)).
Proof.
  split.
  - apply formatAjvErrors_fields_NoDup.
  - apply ajvSchemaValidator_fields_NoDup.
Qed.

(** Where the entries of the map come from. *)
Lemma process_error_origin (m m' : errorMap) (error : Err.ErrorObject) :
  process_error m error = JS.Ok m' ->
  forall ke, In ke m' ->
    In ke m
    \/ (wrapped_additionalProperties error = JS.Ok None
        /\ snd ke = entry_of_error error)
    \/ wrapped_additionalProperties error = JS.Ok (Some (snd ke)).
Proof.
  unfold process_error.
  destruct (wrapped_additionalProperties error) as [[entry|]|x]; simpl;
    [| |discriminate].
  - intro H. apply Ok_injective in H. subst m'. intros ke Hin.
    apply Map_set_In in Hin as [->|Hin]; auto.
  - destruct (Map_get m (Entry.field (entry_of_error error))) as [existing|].
    + destruct (Entry.priority existing <? Entry.priority (entry_of_error error));
        intro H; apply Ok_injective in H; subst m'; intros ke Hin; auto.
      apply Map_set_In in Hin as [->|Hin]; auto.
    + intro H. apply Ok_injective in H. subst m'. intros ke Hin.
      apply Map_set_In in Hin as [->|Hin]; auto.
Qed.

Lemma forEach_errors_origin (errors : list Err.ErrorObject) :
  forall m m', forEach_errors errors m = JS.Ok m' ->
    forall ke, In ke m' ->
      In ke m
      \/ exists error,
           In error errors
           /\ ((wrapped_additionalProperties error = JS.Ok None
                /\ snd ke = entry_of_error error)
               \/ wrapped_additionalProperties error = JS.Ok (Some (snd ke))).
Proof.
  induction errors as [|error rest IH]; simpl; intros m m' H ke Hin.
  - apply Ok_injective in H. subst. now left.
  - destruct (process_error m error) as [m1|x] eqn:E; simpl in H;
      [|discriminate].
    destruct (IH _ _ H ke Hin) as [Hin1|(e & He & Hor)].
    + destruct (process_error_origin _ _ _ E ke Hin1) as [?|Hor]; auto.
      right. exists error. auto.
    + right. exists e. auto.
Qed.

(** X4.  The normaliser reports nothing of its own: every error of
    its output is the entry of one raw error, either the entry its
    keyword gives or the entry of its wrapped additional property. *)
Theorem formatAjvErrors_reports_raw_errors
        (errors : list Err.ErrorObject) (out : list ValidationError)
        (v : ValidationError) :
  formatAjvErrors (Some errors) = JS.Ok out -> In v out ->
  exists error,
    In error errors
    /\ field v = field_of_error error
    /\ (v = to_ValidationError (entry_of_error error)
        \/ exists entry,
             wrapped_additionalProperties error = JS.Ok (Some entry)
             /\ v = to_ValidationError entry).
Proof.
  intros H Hv. apply formatAjvErrors_Ok in H as (m & Hm & ->).
  apply in_map_iff in Hv as (e & <- & He).
  apply final_entries_subset in He as [He _].
  apply filter_then_subset in He.
  apply in_map_iff in He as ([k e'] & Hk & Hin). simpl in Hk. subst e'.
  destruct (forEach_errors_origin _ _ _ Hm _ Hin) as [[]|(error & Hin' & Hor)].
  exists error. split; [exact Hin'|]. simpl in Hor.
  unfold field_of_error.
  destruct Hor as [[Hw ->]|Hw]; rewrite Hw.
  - split; [reflexivity|]. now left.
  - split; [reflexivity|]. right. exists e. auto.
Qed.

Lemma formatAjvErrors_reports_raw_errors_witness :
  exists error,
    In error Sample.type_then_plain
    /\ "id" = field_of_error error
    /\ ({| field := "id"; message := "id must be a string";
           path := Some ["id"] |}
        = to_ValidationError (entry_of_error error)
        \/ exists entry,
             wrapped_additionalProperties error = JS.Ok (Some entry)
             /\ {| field := "id"; message := "id must be a string";
                   path := Some ["id"] |}
                = to_ValidationError entry).
Proof.
  apply (formatAjvErrors_reports_raw_errors
           Sample.type_then_plain
           [{| field := "id"; message := "id must be a string";
               path := Some ["id"] |}]
           {| field := "id"; message := "id must be a string";
              path := Some ["id"] |}).
  - reflexivity.
  - now left.
Defined.

Lemma process_error_raises (m : errorMap) (error : Err.ErrorObject) x :
  process_error m error = JS.Throw x
  <-> wrapped_additionalProperties error = JS.Throw x.
Proof.
  unfold process_error.
  destruct (wrapped_additionalProperties error) as [[entry|]|y]; simpl.
  - split; discriminate.
  - destruct (Map_get m (Entry.field (entry_of_error error))) as [existing|];
      [destruct (Entry.priority existing <? Entry.priority (entry_of_error error))|];
      split; discriminate.
  - split; intro H; inversion H; reflexivity.
Qed.

Lemma forEach_errors_raises (errors : list Err.ErrorObject) :
  forall m,
    (exists x, forEach_errors errors m = JS.Throw x)
    <-> exists error x, In error errors
                        /\ wrapped_additionalProperties error = JS.Throw x.
Proof.
  induction errors as [|error rest IH]; simpl; intro m.
  - split; [intros [x H]; discriminate|intros (e & x & [] & _)].
  - destruct (process_error m error) as [m1|y] eqn:E; simpl.
    + rewrite IH. split.
      * intros (e & x & Hin & Hw). eauto.
      * intros (e & x & [<-|Hin] & Hw); [|eauto].
        apply (process_error_raises m) in Hw. congruence.
    + split; [|eauto]. intros _. exists error, y. split; [now left|].
      now apply process_error_raises in E.
Qed.

(** X5.  The normaliser raises exactly when some raw error is a
    wrapped error whose first nested error is missing, or is an
    [additionalProperties] error without a parent schema or without
    an [errorMessage] in it; a list without wrapped errors is always
    normalised. *)
Theorem formatAjvErrors_raises_iff (errors : list Err.ErrorObject) :
  ((exists x, formatAjvErrors (Some errors) = JS.Throw x)
   <-> exists error x, In error errors
                       /\ wrapped_additionalProperties error = JS.Throw x)
  /\ ((forall error, In error errors -> Err.keyword error <> "errorMessage")
      -> exists out, formatAjvErrors (Some errors) = JS.Ok out).
Proof.
  assert (Hiff : (exists x, formatAjvErrors (Some errors) = JS.Throw x)
                 <-> exists error x,
                       In error errors
                       /\ wrapped_additionalProperties error = JS.Throw x).
  { rewrite <- (forEach_errors_raises errors []).
    unfold formatAjvErrors, build_errorMap.
    destruct (forEach_errors errors []) as [m|y]; simpl.
    - split; intros [x H]; discriminate.
    - split; intros _; eauto. }
  split; [exact Hiff|].
  intro Hkw. destruct (formatAjvErrors (Some errors)) as [out|x] eqn:E;
    [eauto|].
  exfalso. destruct Hiff as [Hiff _].
  destruct Hiff as (error & y & Hin & Hw); [exists x; reflexivity|].
  specialize (Hkw error Hin). unfold wrapped_additionalProperties in Hw.
  destruct (String.eqb_spec (Err.keyword error) "errorMessage");
    [contradiction|discriminate].
Qed.

Lemma Map_get_set_other {V} (m : list (string * V)) (key k : string) (v : V) :
  k <> key -> Map_get (Map_set m key v) k = Map_get m k.
Proof.
  intro Hne. unfold Map_get.
  induction m as [|[k0 old] m IH]; simpl.
  - destruct (String.eqb_spec key k); [congruence|reflexivity].
  - destruct (String.eqb_spec k0 key) as [->|Hk]; simpl.
    + destruct (String.eqb_spec key k); [congruence|reflexivity].
    + destruct (String.eqb_spec k0 k); [reflexivity|exact IH].
Qed.

Lemma Map_get_In {V} (m : list (string * V)) (k : string) (v : V) :
  Map_get m k = Some v -> In (k, v) m.
Proof.
  unfold Map_get. induction m as [|[k0 v0] m IH]; simpl; [discriminate|].
  destruct (String.eqb_spec k0 k) as [->|Hne].
  - intro H. injection H as ->. now left.
  - intro H. right. now apply IH.
Qed.

(** One turn of the loop on an error that is not a wrapped
    additional property: no stored priority goes down, and the field
    of the error holds an entry of at least its priority. *)
Lemma process_error_main_path (m : errorMap) (error : Err.ErrorObject) :
  wrapped_additionalProperties error = JS.Ok None ->
  exists m',
    process_error m error = JS.Ok m'
    /\ (forall k e, Map_get m k = Some e ->
          exists e', Map_get m' k = Some e'
                     /\ Entry.priority e <= Entry.priority e')
    /\ exists e, Map_get m' (Entry.field (entry_of_error error)) = Some e
                 /\ Entry.priority (entry_of_error error) <= Entry.priority e.
Proof.
  intro Hw. unfold process_error. rewrite Hw. simpl.
  set (entry := entry_of_error error).
  destruct (Map_get m (Entry.field entry)) as [existing|] eqn:Eg.
  - destruct (Entry.priority existing <? Entry.priority entry) eqn:El.
    + apply Z.ltb_lt in El. eexists. split; [reflexivity|]. split.
      * intros k e Hk. destruct (string_dec k (Entry.field entry)) as [->|Hne].
        -- exists entry. rewrite Map_get_set_same. split; [reflexivity|].
           rewrite Eg in Hk. injection Hk as <-. lia.
        -- exists e. rewrite Map_get_set_other by exact Hne.
           split; [exact Hk|lia].
      * exists entry. rewrite Map_get_set_same. split; [reflexivity|lia].
    + apply Z.ltb_ge in El. exists m. split; [reflexivity|]. split.
      * intros k e Hk. exists e. split; [exact Hk|lia].
      * exists existing. split; [exact Eg|exact El].
  - eexists. split; [reflexivity|]. split.
    + intros k e Hk. destruct (string_dec k (Entry.field entry)) as [->|Hne].
      * congruence.
      * exists e. rewrite Map_get_set_other by exact Hne.
        split; [exact Hk|lia].
    + exists entry. rewrite Map_get_set_same. split; [reflexivity|lia].
Qed.

Lemma forEach_errors_main_path (errors : list Err.ErrorObject) :
  (forall error, In error errors ->
                 wrapped_additionalProperties error = JS.Ok None) ->
  forall m,
  exists m',
    forEach_errors errors m = JS.Ok m'
    /\ (forall k e, Map_get m k = Some e ->
          exists e', Map_get m' k = Some e'
                     /\ Entry.priority e <= Entry.priority e')
    /\ forall error, In error errors ->
         exists e, Map_get m' (Entry.field (entry_of_error error)) = Some e
                   /\ Entry.priority (entry_of_error error) <= Entry.priority e.
Proof.
  induction errors as [|error rest IH]; intros Hw m.
  - exists m. split; [reflexivity|]. split; [|intros ? []].
    intros k e Hk. exists e. split; [exact Hk|lia].
  - destruct (process_error_main_path m error (Hw error (or_introl eq_refl)))
      as (m1 & E1 & Hmono1 & e1 & Hget1 & Hle1).
    destruct (IH (fun e H => Hw e (or_intror H)) m1)
      as (m' & E' & Hmono & Hall).
    exists m'. simpl. rewrite E1. simpl. split; [exact E'|]. split.
    + intros k e Hk. destruct (Hmono1 k e Hk) as (e' & Hk' & Hle).
      destruct (Hmono k e' Hk') as (e'' & Hk'' & Hle').
      exists e''. split; [exact Hk''|lia].
    + intros error' [<-|Hin]; [|now apply Hall].
      destruct (Hmono _ _ Hget1) as (e' & Hk' & Hle').
      exists e'. split; [exact Hk'|lia].
Qed.

(** X6.  Among raw errors none of which is a wrapped additional
    property, the entry the map keeps for a field is the entry of one
    of the raw errors of that field, and no raw error of the field has
    a higher priority. *)
Theorem stored_entry_has_highest_priority (errors : list Err.ErrorObject) :
  (forall error, In error errors ->
                 wrapped_additionalProperties error = JS.Ok None) ->
  exists m,
    build_errorMap errors = JS.Ok m
    /\ forall error, In error errors ->
         exists kept,
           In kept errors
           /\ Map_get m (Entry.field (entry_of_error error))
              = Some (entry_of_error kept)
           /\ Entry.field (entry_of_error kept)
              = Entry.field (entry_of_error error)
           /\ Entry.priority (entry_of_error error)
              <= Entry.priority (entry_of_error kept).
Proof.
  intro Hw.
  destruct (forEach_errors_main_path errors Hw []) as (m & Hm & _ & Hall).
  exists m. split; [exact Hm|]. intros error Hin.
  destruct (Hall error Hin) as (e & Hget & Hle).
  pose proof (Map_get_In _ _ _ Hget) as Hmem.
  destruct (forEach_errors_origin _ _ _ Hm _ Hmem)
    as [[]|(kept & Hkept & [[_ He]|Hwrapped])].
  - simpl in He. subst e. exists kept. repeat split; auto.
    apply build_errorMap_well_keyed in Hm as [[_ Hkey] _].
    now apply Hkey in Hmem.
  - rewrite (Hw kept Hkept) in Hwrapped. discriminate.
Qed.

Lemma stored_entry_has_highest_priority_witness :
  exists m,
    build_errorMap Sample.type_then_plain = JS.Ok m
    /\ forall error, In error Sample.type_then_plain ->
         exists kept,
           In kept Sample.type_then_plain
           /\ Map_get m (Entry.field (entry_of_error error))
              = Some (entry_of_error kept)
           /\ Entry.field (entry_of_error kept)
              = Entry.field (entry_of_error error)
           /\ Entry.priority (entry_of_error error)
              <= Entry.priority (entry_of_error kept).
Proof.
  apply (stored_entry_has_highest_priority Sample.type_then_plain).
  intros error Hin. simpl in Hin.
  repeat (destruct Hin as [<-|Hin]; [reflexivity|]). destruct Hin.
Defined.

Lemma insert_by_priority_filter (p : Z) (x : Entry.t) (l : list Entry.t) :
  filter (fun e => Entry.priority e =? p) (insert_by_priority x l)
  = filter (fun e => Entry.priority e =? p) (x :: l).
Proof.
  induction l as [|y l IH]; [reflexivity|].
  cbn [insert_by_priority].
  destruct (Entry.priority x <? Entry.priority y) eqn:El; [|reflexivity].
  apply Z.ltb_lt in El.
  cbn [filter] in *. rewrite IH.
  destruct (Entry.priority x =? p) eqn:Ex;
    destruct (Entry.priority y =? p) eqn:Ey; try reflexivity.
  apply Z.eqb_eq in Ex, Ey. lia.
Qed.

Lemma sort_by_priority_stable (p : Z) (l : list Entry.t) :
  filter (fun e => Entry.priority e =? p) (sort_by_priority l)
  = filter (fun e => Entry.priority e =? p) l.
Proof.
  induction l as [|x l IH]; [reflexivity|].
  cbn [sort_by_priority fold_right].
  rewrite insert_by_priority_filter. cbn [filter].
  unfold sort_by_priority in IH. now rewrite IH.
Qed.

(** X7.  The entries that are reported are those that pass the two
    filters, rearranged by descending priority; entries of one
    priority keep the order of the map, which is the order in which
    their fields first occurred. *)
Theorem final_entries_order (m : errorMap) :
  Permutation (filter keep_named (filter_then (Map_values m)))
              (final_entries m)
  /\ StronglySorted by_descending_priority (final_entries m)
  /\ forall p,
       filter (fun e => Entry.priority e =? p) (final_entries m)
       = filter (fun e => Entry.priority e =? p)
                (filter keep_named (filter_then (Map_values m))).
Proof.
  unfold final_entries. split; [apply sort_by_priority_perm|].
  split; [apply sort_by_priority_sorted|].
  intro p. apply sort_by_priority_stable.
Qed.

Lemma wrapped_additionalProperties_with_message
      (error : Err.ErrorObject) (text : string) :
  wrapped_additionalProperties (Err.with_message error text)
  = wrapped_additionalProperties error.
Proof. destruct error. reflexivity. Qed.

Lemma entry_of_error_with_message (error : Err.ErrorObject) (text : string) :
  In (Err.keyword error)
     ["required"; "type"; "enum"; "pattern"; "additionalProperties"] ->
  entry_of_error (Err.with_message error text) = entry_of_error error.
Proof.
  destruct error as [kw ip sp ps msg parent]. cbn [Err.keyword].
  intros [<-|[<-|[<-|[<-|[<-|[]]]]]]; reflexivity.
Qed.

Lemma forEach_errors_map_ext (g : Err.ErrorObject -> Err.ErrorObject)
      (errors : list Err.ErrorObject) :
  (forall error m, In error errors ->
                   process_error m (g error) = process_error m error) ->
  forall m, forEach_errors (map g errors) m = forEach_errors errors m.
Proof.
  induction errors as [|error rest IH]; intros Hg m; [reflexivity|].
  cbn [map forEach_errors].
  rewrite Hg by now left.
  destruct (process_error m error) as [m1|x]; [|reflexivity].
  cbn [JS.bind]. apply IH. intros e m' Hin. apply Hg. now right.
Qed.

(** X8.  A custom message given for [required], [type], [enum],
    [pattern] or [additionalProperties] has no effect: the normaliser
    writes the message of these keywords itself and never reads the
    one the entry point has put into the raw error. *)
Theorem customMessages_ignored_for_named_keywords
        (options : option ValidationOptions) (es : list Err.ErrorObject) :
  (forall error, In error es ->
     In (Err.keyword error)
        ["required"; "type"; "enum"; "pattern"; "additionalProperties"]) ->
  formatAjvErrors (apply_customMessages options (Some es))
  = formatAjvErrors (Some es).
Proof.
  intro Hkw. unfold apply_customMessages.
  destruct (opt customMessages options) as [messages|]; [|reflexivity].
  unfold formatAjvErrors, build_errorMap.
  rewrite forEach_errors_map_ext; [reflexivity|].
  intros error m Hin.
  destruct (JS.truthy (lookup (Err.keyword error) messages)); [|reflexivity].
  unfold process_error.
  rewrite wrapped_additionalProperties_with_message.
  now rewrite entry_of_error_with_message by (apply Hkw; exact Hin).
Qed.

Lemma customMessages_ignored_for_named_keywords_witness :
  formatAjvErrors
    (apply_customMessages
       (Some {| strict := None; debug := None;
                customMessages := Some [("required", "Please fill this in")] |})
       (Some [Sample.raw "required" "" (Sample.params_missing "email")
                         (Some "must have required property email")]))
  = JS.Ok [{| field := "email"; message := "The field 'email' is required";
              path := None |}].
Proof.
  rewrite customMessages_ignored_for_named_keywords; [reflexivity|].
  intros error [<-|[]]. now left.
Defined.

(** X9.  The options never change the verdict: [isValid] is the same
    with and without them.  Without custom messages the reported
    errors are the same too, and raw errors are returned only under
    [debug]. *)
Theorem options_do_not_change_verdict
        (ajv : Ajv.Engine) (schema : Schema) (value : Json)
        (options : option ValidationOptions) :
  isValid (ajvSchemaValidator ajv schema value options)
  = isValid (ajvSchemaValidator ajv schema value None)
  /\ (opt customMessages options = None ->
      errors (ajvSchemaValidator ajv schema value options)
      = errors (ajvSchemaValidator ajv schema value None))
  /\ (rawErrors (ajvSchemaValidator ajv schema value options) <> None ->
      opt debug options = Some true).
Proof.
  unfold ajvSchemaValidator, ajvSchemaValidator_with, try_validate_with.
  destruct (Ajv.compile ajv schema) as [fn|x]; cbn [JS.bind];
    [|repeat split; try reflexivity; intro H; now elim H].
  destruct (fn value) as [[b errs]|x]; cbn [JS.bind fst snd];
    [|repeat split; try reflexivity; intro H; now elim H].
  change (apply_customMessages None errs) with errs.
  split; [|split].
  - destruct (apply_customMessages options errs) as [es'|];
      destruct errs as [es|]; destruct b; cbn [JS.bind]; try reflexivity;
      repeat match goal with
             | |- context [formatAjvErrors ?a] =>
                 destruct (formatAjvErrors a); cbn [JS.bind]
             end; reflexivity.
  - intro Hnone.
    replace (apply_customMessages options errs) with errs
      by (unfold apply_customMessages; rewrite Hnone; reflexivity).
    destruct errs as [es|]; destruct b; cbn [JS.bind]; try reflexivity.
    destruct (formatAjvErrors (Some es)); reflexivity.
  - destruct (opt debug options) as [[|]|]; [reflexivity| |];
      intro H; exfalso; apply H;
      destruct (apply_customMessages options errs) as [es'|];
      destruct b; cbn [JS.bind]; try reflexivity;
      destruct (formatAjvErrors (Some es')); reflexivity.
Qed.

(** *** Field names from instance paths *)

Lemma split_no_separator (c : ascii) (s : string) :
  JS.includes_char c s = false -> JS.split c s = [s].
Proof.
  induction s as [|d s IH]; simpl; [reflexivity|].
  intro H. apply orb_false_iff in H as [Hd Hs].
  rewrite Ascii.eqb_sym, Hd, (IH Hs). reflexivity.
Qed.

Lemma split_append_separator (c : ascii) (s t : string) :
  JS.includes_char c s = false ->
  JS.split c (s ++ String c t) = s :: JS.split c t.
Proof.
  induction s as [|d s IH]; simpl; intro H.
  - now rewrite Ascii.eqb_refl.
  - apply orb_false_iff in H as [Hd Hs].
    rewrite Ascii.eqb_sym, Hd, (IH Hs). reflexivity.
Qed.

Lemma split_join (c : ascii) (segs : list string) :
  segs <> [] ->
  Forall (fun s => JS.includes_char c s = false) segs ->
  JS.split c (JS.join (String c "") segs) = segs.
Proof.
  unfold JS.join.
  induction segs as [|x rest IH]; intros Hne Hall; [contradiction|].
  inversion Hall as [|? ? Hx Hrest]; subst.
  destruct rest as [|y rest]; [now apply split_no_separator|].
  change (String.concat (String c "") (x :: y :: rest))
    with (x ++ String c (String.concat (String c "") (y :: rest))).
  rewrite split_append_separator by exact Hx.
  rewrite IH; [reflexivity|discriminate|exact Hrest].
Qed.

Lemma filter_Boolean_nonempty (segs : list string) :
  Forall (fun s => s <> "") segs -> JS.filter_Boolean segs = segs.
Proof.
  unfold JS.filter_Boolean.
  induction 1 as [|x rest Hx _ IH]; simpl; [reflexivity|].
  destruct (String.eqb_spec x ""); [contradiction|]. simpl. now rewrite IH.
Qed.

Lemma formatArrayPath_fold (parts : list string) :
  forall (s : nat) (acc : string),
    fold_left
      (fun result (ip : nat * string) =>
         let '(index, part) := ip in
         if JS.is_index part then result ++ "[" ++ part ++ "]"
         else result ++ (if (index =? 0)%nat then part else "." ++ part))
      (combine (seq s (length parts)) parts) acc
    = acc ++ bracket_dot_from (s =? 0)%nat parts.
Proof.
  induction parts as [|p parts IH]; intros s acc; simpl.
  - now rewrite append_empty_r.
  - rewrite IH. cbn [Nat.eqb].
    destruct (JS.is_index p); now rewrite append_assoc.
Qed.

Lemma replace_char_absent (c d : ascii) (s : string) :
  JS.includes_char c s = false -> JS.replace_char c d s = s.
Proof.
  induction s as [|e s IH]; simpl; [reflexivity|].
  intro H. apply orb_false_iff in H as [He Hs].
  rewrite Ascii.eqb_sym, He, (IH Hs). reflexivity.
Qed.

Lemma replace_char_append (c d : ascii) (a b : string) :
  JS.replace_char c d (a ++ b) = JS.replace_char c d a ++ JS.replace_char c d b.
Proof. induction a as [|e a IH]; simpl; [reflexivity|now rewrite IH]. Qed.

Lemma replace_char_head (c d : ascii) (t : string) :
  JS.replace_char c d (String c t) = String d (JS.replace_char c d t).
Proof. simpl. now rewrite Ascii.eqb_refl. Qed.

Lemma replace_separator_join (c d : ascii) (segs : list string) :
  Forall (fun s => JS.includes_char c s = false) segs ->
  JS.replace_char c d (JS.join (String c "") segs)
  = JS.join (String d "") segs.
Proof.
  unfold JS.join.
  induction 1 as [|x rest Hx Hrest IH]; [reflexivity|].
  destruct rest as [|y rest]; [now apply replace_char_absent|].
  change (String.concat (String c "") (x :: y :: rest))
    with (x ++ String c (String.concat (String c "") (y :: rest))).
  change (String.concat (String d "") (x :: y :: rest))
    with (x ++ String d (String.concat (String d "") (y :: rest))).
  rewrite replace_char_append, replace_char_absent by exact Hx.
  now rewrite replace_char_head, IH.
Qed.

Lemma has_digit_append (a b : string) :
  JS.has_digit (a ++ b) = JS.has_digit a || JS.has_digit b.
Proof.
  induction a as [|x a IH]; simpl; [reflexivity|].
  now rewrite IH, orb_assoc.
Qed.

Lemma has_digit_join (sep : string) (segs : list string) (s : string) :
  JS.has_digit (JS.join sep segs) = false -> In s segs ->
  JS.has_digit s = false.
Proof.
  unfold JS.join.
  induction segs as [|x rest IH]; intros H Hin; [destruct Hin|].
  destruct rest as [|y rest].
  - destruct Hin as [<-|[]]. exact H.
  - change (String.concat sep (x :: y :: rest))
      with (x ++ sep ++ String.concat sep (y :: rest)) in H.
    rewrite !has_digit_append in H.
    apply orb_false_iff in H as [Hx H]. apply orb_false_iff in H as [_ H].
    destruct Hin as [<-|Hin]; [exact Hx|now apply IH].
Qed.

Lemma is_index_has_digit (s : string) :
  JS.is_index s = true -> JS.has_digit s = true.
Proof.
  unfold JS.is_index. destruct s as [|c s]; simpl; [discriminate|].
  intro H. apply andb_prop in H as [H _]. now rewrite H.
Qed.

Lemma bracket_dot_without_index (x : string) (rest : list string) :
  (forall s, In s rest -> JS.is_index s = false) ->
  JS.join "." (x :: rest) = x ++ bracket_dot_from false rest.
Proof.
  unfold JS.join. revert x.
  induction rest as [|y rest IH]; intros x Hno.
  - simpl. now rewrite append_empty_r.
  - change (String.concat "." (x :: y :: rest))
      with (x ++ "." ++ String.concat "." (y :: rest)).
    rewrite IH by (intros s Hs; apply Hno; now right).
    cbn [bracket_dot_from]. rewrite (Hno y) by now left.
    now rewrite !append_assoc.
Qed.

Lemma bracket_dot_join (segs : list string) :
  (forall s, In s segs -> JS.is_index s = false) ->
  bracket_dot segs = JS.join "." segs.
Proof.
  destruct segs as [|x rest]; intro Hno; [reflexivity|].
  rewrite bracket_dot_without_index by (intros s Hs; apply Hno; now right).
  unfold bracket_dot. cbn [bracket_dot_from].
  now rewrite (Hno x) by now left.
Qed.

Lemma path_of_segments (segs : list string) :
  segs <> [] ->
  Forall (fun s => s <> "" /\ JS.includes_char "/" s = false) segs ->
  JS.filter_Boolean (JS.split "/" ("/" ++ JS.join "/" segs)) = segs.
Proof.
  intros Hne Hall.
  change ("/" ++ JS.join "/" segs) with (String "/" (JS.join "/" segs)).
  change (JS.split "/" (String "/" (JS.join "/" segs)))
    with ("" :: JS.split "/" (JS.join "/" segs)).
  rewrite split_join;
    [|exact Hne|eapply Forall_impl; [|exact Hall]; now intros s [_ H]].
  change (JS.filter_Boolean ("" :: segs)) with (JS.filter_Boolean segs).
  apply filter_Boolean_nonempty.
  eapply Forall_impl; [|exact Hall]. now intros s [H _].
Qed.

(** X10.  For an instance path made of non-empty segments, the field
    name is the sequence of segments joined by dots, with every
    all-digit segment written as a bracketed index; both ways the
    code computes it agree on this.  Without all-digit segments it is
    the dotted path, and the [path] of the entry is the list of
    segments. *)
Theorem getFieldFromPath_renders_segments (segs : list string) :
  segs <> [] ->
  Forall (fun s => s <> "" /\ JS.includes_char "/" s = false) segs ->
  _getFieldFromPath ("/" ++ JS.join "/" segs) = bracket_dot segs
  /\ ((forall s, In s segs -> JS.is_index s = false) ->
      _getFieldFromPath ("/" ++ JS.join "/" segs) = JS.join "." segs)
  /\ (forall error,
        Err.instancePath error = "/" ++ JS.join "/" segs ->
        Entry.path (entry_of_error error) = Some segs).
Proof.
  intros Hne Hall.
  assert (Hsep : Forall (fun s => JS.includes_char "/" s = false) segs)
    by (eapply Forall_impl; [|exact Hall]; now intros s [_ H]).
  assert (Hfull : Forall (fun s => s <> "") segs)
    by (eapply Forall_impl; [|exact Hall]; now intros s [H _]).
  assert (Hfield : _getFieldFromPath ("/" ++ JS.join "/" segs)
                   = bracket_dot segs).
  { change ("/" ++ JS.join "/" segs) with (String "/" (JS.join "/" segs)).
    unfold _getFieldFromPath.
    change (String.eqb (String "/" (JS.join "/" segs)) "") with false.
    change (JS.includes_char "/" (String "/" (JS.join "/" segs))) with true.
    cbv iota. cbn [andb].
    change (JS.substring1 (String "/" (JS.join "/" segs)))
      with (JS.join "/" segs).
    destruct (JS.has_digit (String "/" (JS.join "/" segs))) eqn:Hd.
    - unfold _formatArrayPath.
      change (String.eqb (String "/" (JS.join "/" segs)) "") with false.
      cbv iota.
      change (JS.substring1 (String "/" (JS.join "/" segs)))
        with (JS.join "/" segs).
      rewrite split_join by assumption.
      rewrite filter_Boolean_nonempty by assumption.
      rewrite formatArrayPath_fold. reflexivity.
    - change (JS.has_digit (String "/" (JS.join "/" segs)))
        with (JS.has_digit (JS.join "/" segs)) in Hd.
      rewrite replace_separator_join by assumption.
      symmetry. apply bracket_dot_join. intros s Hs.
      destruct (JS.is_index s) eqn:Ei; [|reflexivity].
      apply is_index_has_digit in Ei.
      now rewrite (has_digit_join _ _ _ Hd Hs) in Ei. }
  split; [exact Hfield|]. split.
  - intro Hno. rewrite Hfield. now apply bracket_dot_join.
  - intros error Hpath.
    assert (Hp : (if String.eqb (Err.instancePath error) "" then None
                  else Some (JS.filter_Boolean
                               (JS.split "/" (Err.instancePath error))))
                 = Some segs).
    { rewrite Hpath, path_of_segments by assumption. reflexivity. }
    unfold entry_of_error.
    repeat match goal with
           | |- context [if String.eqb (Err.keyword error) ?k then _ else _] =>
               destruct (String.eqb (Err.keyword error) k)
           end; exact Hp.
Qed.

Lemma getFieldFromPath_renders_segments_witness :
  _getFieldFromPath "/items/0/quantity" = "items[0].quantity"
  /\ _getFieldFromPath "/user/address2/zip" = "user.address2.zip".
Proof.
  split.
  - apply (getFieldFromPath_renders_segments ["items"; "0"; "quantity"]);
      [discriminate|].
    repeat constructor; discriminate.
  - apply (getFieldFromPath_renders_segments ["user"; "address2"; "zip"]);
      [discriminate| |].
    + repeat constructor; discriminate.
    + intros s [<-|[<-|[<-|[]]]]; reflexivity.
Defined.

(** ** The time-range keyword *)

Lemma validateTimeRange_present (Number : string -> option Z) (a b : string) :
  a <> "" -> b <> "" ->
  validateTimeRange Number {| startTime := Some a; endTime := Some b |}
  = match minutes_of_time Number a, minutes_of_time Number b with
    | Some x, Some y => x <? y
    | _, _ => false
    end.
Proof.
  intros Ha Hb. unfold validateTimeRange. cbn [startTime endTime JS.truthy show].
  destruct (String.eqb_spec a ""); [contradiction|].
  destruct (String.eqb_spec b ""); [contradiction|].
  reflexivity.
Qed.

Lemma minutes_of_time_without_colon (Number : string -> option Z) (a : string) :
  JS.includes_char ":" a = false -> minutes_of_time Number a = None.
Proof.
  intro H. unfold minutes_of_time. rewrite split_no_separator by exact H.
  simpl. now destruct (Number a).
Qed.

(** X11.  [validateTimeRange] accepts every object in which a time is
    missing or empty.  On two non-empty times it is a strict order:
    it never accepts a pair and the reversed pair (so never two equal
    times), and it is transitive; a time without a colon is rejected
    on either side. *)
Theorem validateTimeRange_strict_order (Number : string -> option Z) :
  (forall data,
      JS.truthy (startTime data) = false \/ JS.truthy (endTime data) = false ->
      validateTimeRange Number data = true)
  /\ (forall a b, a <> "" -> b <> "" ->
        validateTimeRange Number {| startTime := Some a; endTime := Some b |}
        = true ->
        validateTimeRange Number {| startTime := Some b; endTime := Some a |}
        = false)
  /\ (forall a b c, a <> "" -> b <> "" -> c <> "" ->
        validateTimeRange Number {| startTime := Some a; endTime := Some b |}
        = true ->
        validateTimeRange Number {| startTime := Some b; endTime := Some c |}
        = true ->
        validateTimeRange Number {| startTime := Some a; endTime := Some c |}
        = true)
  /\ (forall a b, a <> "" -> b <> "" -> JS.includes_char ":" b = false ->
        validateTimeRange Number {| startTime := Some a; endTime := Some b |}
        = false
        /\ validateTimeRange Number {| startTime := Some b; endTime := Some a |}
           = false).
Proof.
  split; [|split; [|split]].
  - intros data [H|H]; unfold validateTimeRange; rewrite H; simpl;
      [reflexivity|now rewrite orb_true_r].
  - intros a b Ha Hb. rewrite !validateTimeRange_present by assumption.
    destruct (minutes_of_time Number a) as [x|];
      destruct (minutes_of_time Number b) as [y|]; try discriminate.
    intro H. apply Z.ltb_lt in H. apply Z.ltb_ge. lia.
  - intros a b c Ha Hb Hc. rewrite !validateTimeRange_present by assumption.
    destruct (minutes_of_time Number a) as [x|];
      destruct (minutes_of_time Number b) as [y|];
      destruct (minutes_of_time Number c) as [z|]; try discriminate.
    intros H1 H2. apply Z.ltb_lt in H1, H2. apply Z.ltb_lt. lia.
  - intros a b Ha Hb Hcolon.
    rewrite !validateTimeRange_present by assumption.
    rewrite (minutes_of_time_without_colon Number b Hcolon).
    now destruct (minutes_of_time Number a).
Qed.

(** ** Chunks of documents *)

Lemma chunks_concat {T} (k : nat) :
  forall (count : nat) (array : list T),
    (length array <= count * k)%nat ->
    concat (map (fun i => firstn k (skipn (i * k) array)) (seq 0 count))
    = array.
Proof.
  induction count as [|count IH]; intros array Hlen.
  - destruct array; [reflexivity|simpl in Hlen; lia].
  - cbn [seq map concat]. rewrite <- seq_shift, map_map.
    rewrite (map_ext _ (fun i => firstn k (skipn (i * k) (skipn k array)))).
    + rewrite IH by (rewrite length_skipn; lia).
      apply firstn_skipn.
    + intro i. rewrite skipn_skipn. f_equal. f_equal. lia.
Qed.

Lemma ceil_div_bounds (len size : Z) :
  0 <= len -> 0 < size ->
  let q := (len + size - 1) / size in
  0 <= q /\ len <= q * size /\ (q - 1) * size < len.
Proof.
  intros Hlen Hsize q.
  pose proof (Z.div_mod (len + size - 1) size ltac:(lia)) as Hdm.
  pose proof (Z.mod_pos_bound (len + size - 1) size Hsize) as Hr.
  fold q in Hdm.
  assert (0 <= q) by (apply Z.div_pos; lia).
  repeat split; try assumption; nia.
Qed.

(** X12.  For a positive size, [chunkDocumentArray] cuts the array
    into consecutive pieces: put together again they give the array,
    none is empty or longer than [size], all but the last have [size]
    elements, and there are ceil(length / size) of them. *)
Theorem chunkDocumentArray_partitions {T} (array : list T) (size : Z) :
  0 < size ->
  exists chunks,
    chunkDocumentArray array size = JS.Ok chunks
    /\ concat chunks = array
    /\ Forall (fun c => (0 < length c)%nat /\ Z.of_nat (length c) <= size)
              chunks
    /\ Z.of_nat (length chunks) = (Z.of_nat (length array) + size - 1) / size
    /\ forall i, (S i < length chunks)%nat ->
                 Z.of_nat (length (nth i chunks [])) = size.
Proof.
  intro Hsize. unfold chunkDocumentArray.
  destruct (Z.eqb_spec size 0); [lia|].
  destruct (Z.ltb_spec size 0); [lia|].
  destruct (ceil_div_bounds (Z.of_nat (length array)) size ltac:(lia) Hsize)
    as (Hq & Hup & Hlow).
  set (q := (Z.of_nat (length array) + size - 1) / size) in *.
  set (k := Z.to_nat size).
  assert (Hk : Z.of_nat k = size) by (unfold k; lia).
  eexists. split; [reflexivity|]. split; [|split; [|split]].
  - apply chunks_concat. nia.
  - apply Forall_forall. intros c Hc.
    apply in_map_iff in Hc as (i & <- & Hi). apply in_seq in Hi.
    rewrite length_firstn, length_skipn.
    assert (Z.of_nat i <= q - 1) by lia.
    split; [|lia].
    assert (Z.of_nat (i * k) < Z.of_nat (length array)) by nia.
    lia.
  - rewrite length_map, length_seq. lia.
  - intros i Hi. rewrite length_map, length_seq in Hi.
    rewrite (nth_indep _ [] (firstn k (skipn (0 * k) array)))
      by (rewrite length_map, length_seq; lia).
    rewrite (map_nth (fun i => firstn k (skipn (i * k) array))).
    rewrite seq_nth by lia. cbn [Nat.add].
    rewrite length_firstn, length_skipn.
    assert (Z.of_nat (S i) <= q - 1) by lia.
    assert (Z.of_nat (S i * k) < Z.of_nat (length array)) by nia.
    lia.
Qed.

Lemma chunkDocumentArray_partitions_witness :
  exists chunks,
    chunkDocumentArray [1; 2; 3; 4; 5] 2 = JS.Ok chunks
    /\ concat chunks = [1; 2; 3; 4; 5]
    /\ Forall (fun c => (0 < length c)%nat /\ Z.of_nat (length c) <= 2) chunks
    /\ Z.of_nat (length chunks) = (Z.of_nat 5 + 2 - 1) / 2
    /\ forall i, (S i < length chunks)%nat ->
                 Z.of_nat (length (nth i chunks [])) = 2.
Proof. apply (chunkDocumentArray_partitions [1; 2; 3; 4; 5] 2). lia. Defined.

(** ** The pipes and the trimming middleware *)

Lemma lookup_wrap_field (result : list (string * Json)) (f k : string) :
  lookup k (ArrayQueryParamPipe.wrap_field result f)
  = if String.eqb k f
    then match lookup f result with
         | Some (JArr l) => Some (JArr l)
         | Some v => Some (JArr [v])
         | None => None
         end
    else lookup k result.
Proof.
  unfold ArrayQueryParamPipe.wrap_field.
  destruct (String.eqb_spec k f) as [->|Hne].
  - destruct (lookup f result) as [v|] eqn:E; [|exact E].
    destruct v; try exact E; apply (Map_get_set_same result f).
  - destruct (lookup f result) as [v|] eqn:E; [|reflexivity].
    destruct v; try reflexivity; now apply (Map_get_set_other result f k).
Qed.

Lemma keys_wrap_field (result : list (string * Json)) (f : string) :
  map fst (ArrayQueryParamPipe.wrap_field result f) = map fst result.
Proof.
  unfold ArrayQueryParamPipe.wrap_field.
  destruct (lookup f result) as [v|] eqn:E; [|reflexivity].
  assert (Hin : existsb (String.eqb f) (map fst result) = true).
  { apply existsb_eqb_In. apply (Map_get_In result f v) in E.
    now apply (in_map fst) in E. }
  destruct v; try reflexivity; now rewrite Map_set_keys, Hin.
Qed.

Lemma fold_wrap_field (fields : list string) :
  forall props : list (string * Json),
    map fst (fold_left ArrayQueryParamPipe.wrap_field fields props)
    = map fst props
    /\ forall k,
         lookup k (fold_left ArrayQueryParamPipe.wrap_field fields props)
         = match lookup k props with
           | Some (JArr l) => Some (JArr l)
           | Some v =>
               if existsb (String.eqb k) fields then Some (JArr [v])
               else Some v
           | None => None
           end.
Proof.
  induction fields as [|f fields IH]; intro props.
  - split; [reflexivity|]. intro k. simpl.
    destruct (lookup k props) as [[]|]; reflexivity.
  - cbn [fold_left]. destruct (IH (ArrayQueryParamPipe.wrap_field props f))
      as [Hkeys Hget].
    split; [now rewrite Hkeys, keys_wrap_field|].
    intro k. rewrite Hget, lookup_wrap_field. cbn [existsb].
    destruct (String.eqb_spec k f) as [->|Hne]; cbn [orb].
    + destruct (lookup f props) as [[]|]; reflexivity.
    + reflexivity.
Qed.

Lemma fold_wrap_field_fixed (fields : list string) (result : list (string * Json)) :
  (forall f, In f fields -> ArrayQueryParamPipe.wrap_field result f = result) ->
  fold_left ArrayQueryParamPipe.wrap_field fields result = result.
Proof.
  induction fields as [|f fields IH]; intro H; [reflexivity|].
  cbn [fold_left]. rewrite H by now left.
  apply IH. intros g Hg. apply H. now right.
Qed.

(** X13.  For array fields that name no member of
    [Object.prototype]: [ArrayQueryParamPipe.transform] on an object
    keeps the keys and their order; a listed field that is present
    and holds no array comes to hold the one-element array of its
    value, every other field keeps its value.  Values that are no
    objects are returned as they are, and a second pass changes
    nothing. *)
Theorem ArrayQueryParamPipe_transform_spec (arrayFields : list string) :
  Forall (fun field => inherited field = false) arrayFields ->
  (forall props,
      exists result,
        ArrayQueryParamPipe.transform arrayFields (JObj props) = JObj result
        /\ map fst result = map fst props
        /\ forall k,
             lookup k result
             = match lookup k props with
               | Some (JArr l) => Some (JArr l)
               | Some v =>
                   if existsb (String.eqb k) arrayFields
                   then Some (JArr [v]) else Some v
               | None => None
               end)
  /\ (forall value,
         match value with JArr _ | JObj _ => False | _ => True end ->
         ArrayQueryParamPipe.transform arrayFields value = value)
  /\ (forall value,
         ArrayQueryParamPipe.transform arrayFields
           (ArrayQueryParamPipe.transform arrayFields value)
         = ArrayQueryParamPipe.transform arrayFields value).
Proof.
  intros _. split; [|split].
  - intro props. eexists. split; [reflexivity|].
    apply (fold_wrap_field arrayFields props).
  - intros [] H; try reflexivity; destruct H.
  - assert (Hfixed : forall props,
               fold_left ArrayQueryParamPipe.wrap_field arrayFields
                 (fold_left ArrayQueryParamPipe.wrap_field arrayFields props)
               = fold_left ArrayQueryParamPipe.wrap_field arrayFields props).
    { intro props. apply fold_wrap_field_fixed. intros f Hf.
      unfold ArrayQueryParamPipe.wrap_field at 1.
      destruct (fold_wrap_field arrayFields props) as [_ Hget].
      rewrite (Hget f).
      apply existsb_eqb_In in Hf. rewrite Hf.
      destruct (lookup f props) as [[]|]; reflexivity. }
    intros []; try reflexivity;
      unfold ArrayQueryParamPipe.transform;
      cbn [ArrayQueryParamPipe.spread]; now rewrite Hfixed.
Qed.

Lemma ArrayQueryParamPipe_transform_spec_witness :
  ArrayQueryParamPipe.transform
    ["tags"] (JObj [("q", JStr "x"); ("tags", JStr "a")])
  = JObj [("q", JStr "x"); ("tags", JArr [JStr "a"])].
Proof.
  destruct (ArrayQueryParamPipe_transform_spec ["tags"]) as (_ & _ & H).
  - repeat constructor.
  - rewrite <- (H (JObj [("q", JStr "x"); ("tags", JStr "a")])).
    reflexivity.
Defined.

Lemma Json_induction (P : Json -> Prop) :
  P JNull -> (forall b, P (JBool b)) -> (forall n, P (JNum n)) ->
  (forall s, P (JStr s)) ->
  (forall items, Forall P items -> P (JArr items)) ->
  (forall props, Forall (fun kv => P (snd kv)) props -> P (JObj props)) ->
  forall v, P v.
Proof.
  intros HN HB HZ HS HA HO.
  fix IH 1. intros [|b|n|s|items|props].
  - exact HN.
  - apply HB.
  - apply HZ.
  - apply HS.
  - apply HA. induction items as [|x items IHi]; constructor.
    + apply IH.
    + exact IHi.
  - apply HO. induction props as [|[k v] props IHp]; constructor.
    + apply IH.
    + exact IHp.
Qed.

(** X14.  When trimming a trimmed string changes nothing, deep
    trimming a deeply trimmed value changes nothing.  Deep trimming
    keeps the keys of an object as they are (keys are not trimmed)
    and the length of an array, and leaves numbers, booleans and
    [null] alone. *)
Theorem trimDeep_idempotent (trim : string -> string) :
  (forall s, trim (trim s) = trim s) ->
  (forall data, trimDeep trim (trimDeep trim data) = trimDeep trim data)
  /\ (forall props,
        exists props',
          trimDeep trim (JObj props) = JObj props'
          /\ map fst props' = map fst props)
  /\ (forall items,
        exists items',
          trimDeep trim (JArr items) = JArr items'
          /\ length items' = length items)
  /\ (forall data,
        match data with JNull | JBool _ | JNum _ => True | _ => False end ->
        trimDeep trim data = data).
Proof.
  intro Htrim. split; [|split; [|split]].
  - induction data as [| | |s|items IH|props IH] using Json_induction;
      try reflexivity.
    + cbn [trimDeep]. unfold trimString. now rewrite Htrim.
    + cbn [trimDeep]. f_equal. rewrite map_map.
      apply map_ext_in. intros x Hx.
      now apply (proj1 (Forall_forall _ _) IH).
    + cbn [trimDeep]. f_equal. rewrite map_map.
      apply map_ext_in. intros [k v] Hkv. cbn [fst snd]. f_equal.
      now apply (proj1 (Forall_forall _ _) IH (k, v)).
  - intro props. eexists. split; [reflexivity|].
    rewrite map_map. reflexivity.
  - intro items. eexists. split; [reflexivity|]. apply length_map.
  - intros [] H; try reflexivity; destruct H.
Qed.

Lemma trim_start_clean (s : string) : starts_clean (trim_start s).
Proof.
  induction s as [|c s IH]; simpl; [exact I|].
  destruct (JS.is_space c) eqn:E; [exact IH|exact E].
Qed.

Lemma trim_start_of_clean (s : string) : starts_clean s -> trim_start s = s.
Proof. destruct s as [|c s]; simpl; [reflexivity|]. now intros ->. Qed.

Lemma trim_end_clean (s : string) : starts_clean s -> starts_clean (trim_end s).
Proof.
  destruct s as [|c s]; simpl; [exact id|]. intro Hc.
  destruct (trim_end s); [rewrite Hc|]; exact Hc.
Qed.

Lemma trim_end_idempotent (s : string) : trim_end (trim_end s) = trim_end s.
Proof.
  induction s as [|c s IH]; [reflexivity|]. cbn [trim_end].
  destruct (trim_end s) as [|d kept] eqn:E.
  - destruct (JS.is_space c) eqn:Ec; [reflexivity|].
    cbn [trim_end]. now rewrite Ec.
  - cbn [trim_end] in *. now rewrite IH.
Qed.

Lemma ascii_trim_idempotent (s : string) :
  ascii_trim (ascii_trim s) = ascii_trim s.
Proof.
  unfold ascii_trim.
  rewrite (trim_start_of_clean (trim_end (trim_start s)))
    by (apply trim_end_clean, trim_start_clean).
  apply trim_end_idempotent.
Qed.

Lemma trimDeep_idempotent_witness :
  trimDeep ascii_trim
    (trimDeep ascii_trim
       (JObj [(" name ", JStr "  Ada "); ("tags", JArr [JStr " x"; JNum 1])]))
  = JObj [(" name ", JStr "Ada"); ("tags", JArr [JStr "x"; JNum 1])].
Proof.
  rewrite (proj1 (trimDeep_idempotent ascii_trim ascii_trim_idempotent)).
  reflexivity.
Defined.

(** X15.  [SchemaAjvValidationPipe.transform] returns exactly when the
    validator accepts, and then it returns the value it was given.
    Otherwise it raises [Validation failed] with the normalised
    errors as cause, each field named once; a schema that does not
    compile makes it raise for every value, with the schema error as
    cause. *)
Theorem SchemaAjvValidationPipe_transform_spec
        (ajv : Ajv.Engine) (schema : Schema) (value : Json) :
  (forall v,
      SchemaAjvValidationPipe.transform ajv schema value = Return v ->
      v = value /\ isValid (ajvSchemaValidator ajv schema value None) = true)
  /\ (forall e,
         SchemaAjvValidationPipe.transform ajv schema value = Raise e ->
         BadRequestException.message e = "Validation failed"
         /\ isValid (ajvSchemaValidator ajv schema value None) = false
         /\ BadRequestException.cause e
            = errors (ajvSchemaValidator ajv schema value None)
         /\ forall l, BadRequestException.cause e = Some l ->
                      NoDup (map field l))
  /\ ((exists x, Ajv.compile ajv schema = JS.Throw x) ->
      SchemaAjvValidationPipe.transform ajv schema value
      = Raise {| BadRequestException.message := "Validation failed";
                 BadRequestException.cause :=
                   Some [{| field := "_schema";
                            message := "Invalid schema configuration";
                            path := None |}] |}).
Proof.
  unfold SchemaAjvValidationPipe.transform. cbv zeta.
  split; [|split].
  - intro v.
    destruct (isValid (ajvSchemaValidator ajv schema value None));
      cbn [negb]; [|discriminate].
    intro H. injection H as <-. now split.
  - intro e.
    destruct (isValid (ajvSchemaValidator ajv schema value None));
      cbn [negb]; [discriminate|].
    intro H. injection H as <-.
    cbn [BadRequestException.message BadRequestException.cause].
    repeat split. intros l Hl.
    now apply ajvSchemaValidator_fields_NoDup in Hl.
  - intros [x Hx].
    unfold ajvSchemaValidator, ajvSchemaValidator_with, try_validate_with.
    rewrite Hx. reflexivity.
Qed.

(** ** Cursors and pages *)

(** X16.  A cursor made from a name and an id decodes to the id and
    to the name trimmed and cut to its first 30 characters, not to
    the name itself; when nothing of the name is left after trimming,
    the cursor is made all the same and cannot be decoded.  The
    trimmed name is ASCII text, so that its characters are the code
    units [substring] counts; the codec (JSON in base64url) is
    assumed to give back what it was given. *)
Theorem cursor_round_trip
        (trim : string -> string)
        (stringify_base64url : string -> string -> string)
        (parse_base64url : string -> option Json)
        (name uuid : string) :
  ascii_text (trim name) = true ->
  name <> "" -> uuid <> "" ->
  stringify_base64url (String.substring 0 30 (trim name)) uuid <> "" ->
  parse_base64url (stringify_base64url (String.substring 0 30 (trim name)) uuid)
  = Some (JObj [("n", JStr (String.substring 0 30 (trim name)));
                ("i", JStr uuid)]) ->
  exists cursor,
    encodeCursor trim stringify_base64url name uuid = JS.Ok cursor
    /\ decodeCursor parse_base64url cursor
       = if String.eqb (String.substring 0 30 (trim name)) ""
         then JS.Throw INVALID_INPUT
         else JS.Ok {| CursorDataType.name :=
                         JStr (String.substring 0 30 (trim name));
                       CursorDataType.id := JStr uuid |}.
Proof.
  intros _ Hname Huuid Hcursor Hcodec.
  unfold encodeCursor.
  destruct (String.eqb_spec name ""); [contradiction|].
  destruct (String.eqb_spec uuid ""); [contradiction|].
  cbn [orb]. eexists. split; [reflexivity|].
  unfold decodeCursor.
  destruct (String.eqb_spec
              (stringify_base64url (String.substring 0 30 (trim name)) uuid)
              ""); [contradiction|].
  rewrite Hcodec. cbn [Json_get lookup String.eqb Ascii.eqb Bool.eqb].
  cbn [Json_truthy].
  destruct (String.eqb (String.substring 0 30 (trim name)) ""); cbn [negb orb];
    [reflexivity|].
  destruct (String.eqb_spec uuid ""); [contradiction|]. reflexivity.
Qed.

Lemma cursor_round_trip_witness :
  let stringify := fun n i : string => n ++ "|" ++ i in
  let parse := fun cursor : string =>
                 if String.eqb cursor "Ada Lovelace|42"
                 then Some (JObj [("n", JStr "Ada Lovelace"); ("i", JStr "42")])
                 else None in
  exists cursor,
    encodeCursor ascii_trim stringify "  Ada Lovelace " "42" = JS.Ok cursor
    /\ decodeCursor parse cursor
       = JS.Ok {| CursorDataType.name := JStr "Ada Lovelace";
                  CursorDataType.id := JStr "42" |}.
Proof.
  intros stringify parse.
  apply (cursor_round_trip ascii_trim stringify parse "  Ada Lovelace " "42");
    try discriminate; reflexivity.
Defined.



(** X18.  With a size of 0, a fetch that finds one entity makes
    [paginateWithCursor] raise a [TypeError]: the only entity is
    popped and the token is asked of the item before it, which does
    not exist.  The same happens with a size of -1 and an empty
    fetch: whenever the fetch returns at most one entity and as many
    as the size plus one. *)
Theorem paginateWithCursor_size_zero
        (trim : string -> string)
        (stringify_base64url : string -> string -> string)
        (TEntity : Type) (read : TEntity -> string -> option string)
        (Number : string -> float)
        (TPayload : Type) (size_of : TPayload -> option string)
        (fetchFn : TPayload -> float -> JS.result (list TEntity))
        (payload : TPayload) (cursorFields : string * string)
        (size : float) (entities : list TEntity) :
  match size_of payload with
  | Some s => Number s
  | None => DEFAULT_PAGE_SIZE
  end = size ->
  fetchFn payload (size + 1)%float = JS.Ok entities ->
  (length_number entities =? size + 1)%float = true ->
  (length entities <= 1)%nat ->
  paginateWithCursor trim stringify_base64url read Number size_of
                     fetchFn payload cursorFields
  = JS.Throw (JS.TypeError "Cannot read properties of undefined").
Proof.
  intros Hsize Hfetch Hlen Hone. unfold paginateWithCursor.
  rewrite Hsize. cbv zeta. rewrite Hfetch. cbn [JS.bind]. rewrite Hlen.
  destruct entities as [|e [|e' rest]];
    [reflexivity|reflexivity|cbn [length] in Hone; lia].
Qed.

Lemma paginateWithCursor_size_zero_witness :
  let stringify := fun n i : string => n ++ "|" ++ i in
  let read := fun (e : string * string) (k : string) =>
                if String.eqb k "name" then Some (fst e) else Some (snd e) in
  paginateWithCursor ascii_trim stringify read
    (fun _ => 0%float) (fun _ : unit => Some "0")
    (fun _ _ => JS.Ok [("a", "1")]) tt ("name", "id")
  = JS.Throw (JS.TypeError "Cannot read properties of undefined")
  /\ paginateWithCursor ascii_trim stringify read
       (fun _ => (-1)%float) (fun _ : unit => Some "-1")
       (fun _ _ => JS.Ok []) tt ("name", "id")
     = JS.Throw (JS.TypeError "Cannot read properties of undefined").
Proof.
  intros stringify read. split.
  - apply (paginateWithCursor_size_zero
             ascii_trim stringify (string * string)
             read (fun _ => 0%float) unit (fun _ => Some "0")
             (fun _ _ => JS.Ok [("a", "1")]) tt ("name", "id") 0%float
             [("a", "1")]); first [reflexivity | simpl; lia].
  - apply (paginateWithCursor_size_zero
             ascii_trim stringify (string * string)
             read (fun _ => (-1)%float) unit (fun _ => Some "-1")
             (fun _ _ => JS.Ok []) tt ("name", "id") (-1)%float
             []); first [reflexivity | simpl; lia].
Defined.

(** ** What the fragments accept *)

Lemma isValid_is_engine_verdict
      (ajv : Ajv.Engine) (schema : Schema) (value : Json)
      (options : option ValidationOptions)
      (fn : Ajv.ValidateFunction) (b : bool)
      (errs : option (list Err.ErrorObject)) :
  Ajv.compile ajv schema = JS.Ok fn -> fn value = JS.Ok (b, errs) ->
  isValid (ajvSchemaValidator ajv schema value options) = b.
Proof.
  intros Hc Hv.
  unfold ajvSchemaValidator, ajvSchemaValidator_with, try_validate_with.
  rewrite Hc. cbn [JS.bind]. rewrite Hv. cbn [JS.bind fst snd].
  destruct (apply_customMessages options errs) as [es|]; [|reflexivity].
  destruct b; [reflexivity|].
  destruct (formatAjvErrors (Some es)); reflexivity.
Qed.

(** A schema the engine does not compile is valid for no value. *)
Lemma isValid_when_compile_raises
      (ajv : Ajv.Engine) (schema : Schema) (value : Json)
      (options : option ValidationOptions) (e : JS.exn) :
  Ajv.compile ajv schema = JS.Throw e ->
  isValid (ajvSchemaValidator ajv schema value options) = false.
Proof.
  intro Hc.
  unfold ajvSchemaValidator, ajvSchemaValidator_with, try_validate_with.
  rewrite Hc. reflexivity.
Qed.

(** The verdict on a schema the engine compiles: valid exactly when
    the root node leaves no error. *)
Lemma isValid_iff_no_raw_error
      (rt : Ajv.Runtime) (schema : Schema) (value : Json)
      (options : option ValidationOptions) :
  forallb (Ajv.keyword_ok rt) schema = true ->
  (isValid (ajvSchemaValidator (Ajv.ajv rt) schema value options) = true
   <-> Ajv.validate_node rt (Ajv.schema_depth schema) schema value "" "#" []
       = []).
Proof.
  intro Hok.
  assert (Hc : Ajv.compile (Ajv.ajv rt) schema
               = JS.Ok (fun data =>
                          match Ajv.validate_node rt (Ajv.schema_depth schema)
                                                  schema data "" "#" [] with
                          | [] => JS.Ok (true, None)
                          | e :: v => JS.Ok (false, Some (e :: v))
                          end)).
  { cbn [Ajv.compile Ajv.ajv]. unfold Ajv.compile_schema.
    rewrite Hok. reflexivity. }
  destruct (Ajv.validate_node rt (Ajv.schema_depth schema) schema value
                              "" "#" []) as [|e v] eqn:E.
  - rewrite (isValid_is_engine_verdict _ _ value options _ true None Hc).
    + tauto.
    + cbv beta. rewrite E. reflexivity.
  - rewrite (isValid_is_engine_verdict _ _ value options _ false
                                       (Some (e :: v)) Hc).
    + split; discriminate.
    + cbv beta. rewrite E. reflexivity.
Qed.

(** X19.  The fragment [CommonValidations.uuid] accepts exactly the
    strings in UUID format, whatever its options and those of the
    validator. *)
Theorem uuid_accepts_exactly_uuids
        (rt : Ajv.Runtime) (options : option UuidOptions.t)
        (validation : option ValidationOptions) (value : Json) :
  isValid (ajvSchemaValidator (Ajv.ajv rt) (CommonValidations.uuid options)
                              value validation) = true
  <-> exists s, value = JStr s /\ Ajv.format_uuid s = true.
Proof.
  rewrite isValid_iff_no_raw_error by reflexivity.
  destruct value as [|b|n|s|items|props];
    try (split; [intro H; lazy -[JS.or_else] in H; discriminate H
                |intros (s' & Hs & _); discriminate Hs]).
  lazy -[JS.or_else Ajv.format_uuid].
  destruct (Ajv.format_uuid s) eqn:E.
  - split; [eauto|reflexivity].
  - split; [discriminate|].
    intros (s' & Hs & H). injection Hs as <-. congruence.
Qed.

Lemma enumValue_node_accepts
      (rt : Ajv.Runtime) (enumObj : list (string * string))
      (options : option EnumValueOptions.t) (value : Json) :
  Ajv.validate_node rt
    (Ajv.schema_depth (CommonValidations.enumValue enumObj options))
    (CommonValidations.enumValue enumObj options) value "" "#" [] = []
  <-> exists s, value = JStr s /\ In s (map snd enumObj).
Proof.
  unfold CommonValidations.enumValue.
  destruct (opt EnumValueOptions.default options) as [d|];
    (destruct value as [|b|n|s|items|props];
     try (split; [intro H; lazy -[JS.or_else JS.join map existsb] in H;
                  discriminate H
                 |intros (s' & Hs & _); discriminate Hs]));
    lazy -[JS.or_else JS.join map snd existsb In];
    match goal with
    | |- context [existsb ?f ?l] => destruct (existsb f l) eqn:E
    end;
    lazy -[JS.or_else JS.join map snd In].
  all: try (change (existsb (String.eqb s) (map snd enumObj) = true) in E;
            split; [intros _|reflexivity];
            exists s; split; [reflexivity|];
            now apply existsb_eqb_In).
  all: change (existsb (String.eqb s) (map snd enumObj) = false) in E;
    split; [discriminate|];
    intros (s' & Hs & Hin); injection Hs as <-;
    apply existsb_eqb_In in Hin; congruence.
Qed.

(** X20.  The fragment [CommonValidations.enumValue] accepts exactly
    the strings that are values of the enumeration, with or without
    a default. *)
Theorem enumValue_accepts_exactly_members
        (rt : Ajv.Runtime) (enumObj : list (string * string))
        (options : option EnumValueOptions.t)
        (validation : option ValidationOptions) (value : Json) :
  isValid (ajvSchemaValidator (Ajv.ajv rt)
             (CommonValidations.enumValue enumObj options) value validation)
  = true
  <-> exists s, value = JStr s /\ In s (map snd enumObj).
Proof.
  destruct enumObj as [|kv enumObj].
  - rewrite isValid_when_compile_raises
      with (e := JS.Error "schema is invalid")
      by (unfold CommonValidations.enumValue;
          destruct (opt EnumValueOptions.default options); reflexivity).
    split; [discriminate|intros (s & _ & [])].
  - rewrite isValid_iff_no_raw_error
      by (unfold CommonValidations.enumValue;
          destruct (opt EnumValueOptions.default options); reflexivity).
    apply enumValue_node_accepts.
Qed.

(** X21.  The [errorMessages] option of [fieldDefinitionValidation]
    has no effect on the fragment it returns: [invalidFieldType] is
    handed to [enumValue] as its [type] message, which [enumValue]
    does not read, and [invalidSelectedValue] is not read at all. *)
Theorem fieldDefinitionValidation_ignores_errorMessages
        (fieldTypeEnum : list (string * string))
        (errorMessages errorMessages' : option Messages.t) :
  CommonValidations.fieldDefinitionValidation
    {| FieldDefinitionOptions.fieldTypeEnum := fieldTypeEnum;
       FieldDefinitionOptions.errorMessages := errorMessages |}
  = CommonValidations.fieldDefinitionValidation
      {| FieldDefinitionOptions.fieldTypeEnum := fieldTypeEnum;
         FieldDefinitionOptions.errorMessages := errorMessages' |}.
Proof. reflexivity. Qed.

(** ** The first pass over the query parameters *)

Lemma split_nonempty (c : ascii) (s : string) : JS.split c s <> [].
Proof.
  destruct s as [|d s]; simpl; [discriminate|].
  destruct (Ascii.eqb d c); [discriminate|].
  destruct (JS.split c s); discriminate.
Qed.

Lemma set_along_step (k k2 : string) (rest : list string)
      (value : QueryValue) (current : list (string * QueryValue)) :
  set_along (k :: k2 :: rest) value current
  = match lookup k current with
    | None =>
        JS.bind (set_along (k2 :: rest) value [])
                (fun sub => JS.Ok (Map_set current k (QObject sub)))
    | Some (QObject sub) =>
        JS.bind (set_along (k2 :: rest) value sub)
                (fun sub' => JS.Ok (Map_set current k (QObject sub')))
    | Some (QString _) =>
        JS.Throw (JS.TypeError "Cannot use a string as an object")
    end.
Proof. reflexivity. Qed.

Lemma read_along_step (k k2 : string) (rest : list string)
      (current : list (string * QueryValue)) :
  read_along (k :: k2 :: rest) current
  = match lookup k current with
    | Some (QObject sub) => read_along (k2 :: rest) sub
    | _ => None
    end.
Proof. reflexivity. Qed.

Lemma set_along_read (keys : list string) :
  keys <> [] ->
  forall value current out,
    set_along keys value current = JS.Ok out ->
    read_along keys out = Some value.
Proof.
  induction keys as [|k rest IH]; [contradiction|]. intros _ value current out.
  destruct rest as [|k2 rest].
  - cbn [set_along read_along]. intro H. apply Ok_injective in H. subst out.
    apply (Map_get_set_same current k value).
  - rewrite set_along_step.
    assert (Hsub : forall sub from,
               set_along (k2 :: rest) value from = JS.Ok sub ->
               read_along (k :: k2 :: rest)
                          (Map_set current k (QObject sub)) = Some value).
    { intros sub from Hs. rewrite read_along_step.
      rewrite (Map_get_set_same current k (QObject sub) : lookup k _ = _).
      now apply (IH ltac:(discriminate) value from). }
    destruct (lookup k current) as [[s|sub]|].
    + discriminate.
    + destruct (set_along (k2 :: rest) value sub) as [sub'|x] eqn:E;
        cbn [JS.bind]; [|discriminate].
      intro H. apply Ok_injective in H. subst out. now apply (Hsub sub' sub).
    + destruct (set_along (k2 :: rest) value []) as [sub'|x] eqn:E;
        cbn [JS.bind]; [|discriminate].
      intro H. apply Ok_injective in H. subst out. now apply (Hsub sub' []).
Qed.

Lemma read_along_nothing (keys : list string) : read_along keys [] = None.
Proof. destruct keys as [|k [|k2 rest]]; reflexivity. Qed.

Lemma blocked_step (k k2 : string) (rest : list string)
      (current : list (string * QueryValue)) :
  blocked (k :: k2 :: rest) current
  <-> match lookup k current with
      | Some (QString _) => True
      | Some (QObject sub) => blocked (k2 :: rest) sub
      | None => False
      end.
Proof.
  split.
  - intros (before & after & s & Hkeys & Hb & Ha & Hread).
    destruct before as [|b before]; [contradiction|].
    injection Hkeys as <- Hkeys.
    destruct before as [|b1 before].
    + cbn [read_along] in Hread. now rewrite Hread.
    + rewrite read_along_step in Hread.
      destruct (lookup k current) as [[s'|sub]|]; try discriminate.
      exists (b1 :: before), after, s. repeat split; try assumption.
      discriminate.
  - destruct (lookup k current) as [[s|sub]|] eqn:E; [| |contradiction].
    + intros _. exists [k], (k2 :: rest), s. repeat split; try discriminate.
      exact E.
    + intros (before & after & s & Hkeys & Hb & Ha & Hread).
      exists (k :: before), after, s. repeat split; try assumption.
      * cbn [app]. now rewrite Hkeys.
      * discriminate.
      * destruct before as [|b1 before]; [contradiction|].
        rewrite read_along_step. now rewrite E.
Qed.

Lemma set_along_raises_iff (keys : list string) (value : QueryValue) :
  forall current,
    (exists x, set_along keys value current = JS.Throw x)
    <-> blocked keys current.
Proof.
  induction keys as [|k rest IH]; intro current.
  - split; [intros [x H]; discriminate|].
    intros (before & after & s & Hkeys & Hb & _).
    destruct before; [contradiction|discriminate].
  - destruct rest as [|k2 rest].
    + split; [intros [x H]; discriminate|].
      intros (before & after & s & Hkeys & Hb & Ha & _).
      destruct before as [|b [|b1 before]]; [contradiction| |discriminate].
      destruct after; [contradiction|discriminate].
    + rewrite blocked_step, set_along_step.
      destruct (lookup k current) as [[s|sub]|].
      * split; [tauto|]. intros _. eauto.
      * rewrite <- IH.
        destruct (set_along (k2 :: rest) value sub) as [sub'|x];
          cbn [JS.bind]; split; intros [y H]; try discriminate; eauto.
      * assert (Hnone : ~ exists x,
                   set_along (k2 :: rest) value [] = JS.Throw x).
        { rewrite IH. intros (before & after & s & _ & _ & _ & Hread).
          rewrite read_along_nothing in Hread. discriminate. }
        destruct (set_along (k2 :: rest) value []) as [sub'|x];
          cbn [JS.bind].
        -- split; [intros [y H]; discriminate|intros []].
        -- split; [intros _; apply Hnone; now exists x|intros []].
Qed.

Lemma includes_char_append (c : ascii) (a b : string) :
  JS.includes_char c (a ++ b) = JS.includes_char c a || JS.includes_char c b.
Proof.
  induction a as [|x a IH]; simpl; [reflexivity|].
  now rewrite IH, orb_assoc.
Qed.

(** X22.  For a dotted path no segment of which names a member of
    [Object.prototype]: [setNestedValue] raises exactly when some
    proper beginning of the path already leads to a string;
    otherwise the value can be read back along the path.  So a query
    that names such a key and then a dotted key below it makes the
    first pass raise a [TypeError], before any validation. *)
Theorem setNestedValue_spec
        (obj : list (string * QueryValue)) (path : string)
        (value : QueryValue) :
  Forall (fun key => inherited key = false) (JS.split "." path) ->
  ((exists x, setNestedValue obj path value = JS.Throw x)
   <-> blocked (JS.split "." path) obj)
  /\ (forall out,
        setNestedValue obj path value = JS.Ok out ->
        read_along (JS.split "." path) out = Some value)
  /\ (forall key text rest w,
        JS.includes_char "." key = false ->
        inherited key = false ->
        Forall (fun key => inherited key = false) (JS.split "." rest) ->
        exists x,
          first_pass [(key, text); (key ++ "." ++ rest, w)] = JS.Throw x).
Proof.
  intros _. split; [apply set_along_raises_iff|]. split.
  - intros out H. apply (set_along_read _ (split_nonempty _ _) value obj out H).
  - intros key text rest w Hkey _ _.
    unfold first_pass. cbn [fold_left JS.bind fst snd]. rewrite Hkey.
    rewrite includes_char_append. cbn [JS.includes_char Ascii.eqb Bool.eqb].
    rewrite orb_true_r. cbn [Map_set].
    apply set_along_raises_iff.
    change (key ++ "." ++ rest) with (key ++ String "." rest).
    rewrite split_append_separator by exact Hkey.
    pose proof (split_nonempty "." rest) as Hne.
    exists [key], (JS.split "." rest), text.
    repeat split; try assumption; try discriminate.
    cbn [read_along lookup]. now rewrite String.eqb_refl.
Qed.

Lemma setNestedValue_spec_witness :
  exists x,
    setNestedValue [("user", QString "ada")] "user.name" (QString "Ada")
    = JS.Throw x.
Proof.
  apply (setNestedValue_spec [("user", QString "ada")] "user.name"
                             (QString "Ada")).
  - repeat constructor.
  - exists ["user"], ["name"], "ada". repeat split; discriminate.
Defined.

(** ** What the [stringArray] fragment accepts *)

Lemma lookup_Some_In {V} (key : string) (m : list (string * V)) v :
  lookup key m = Some v -> exists kt, In kt m /\ String.eqb (fst kt) key = true.
Proof.
  induction m as [|[k0 v0] m IH]; simpl; [discriminate|].
  destruct (String.eqb k0 key) eqn:E.
  - intros _. exists (k0, v0). split; [now left|exact E].
  - intro H. destruct (IH H) as (kt & Hin & Hk). exists kt. split; [now right|exact Hk].
Qed.

Lemma is_some_lookup {V} (key : string) (m : list (string * V)) :
  Ajv.is_some (lookup key m) = true ->
  exists kt, In kt m /\ String.eqb key (fst kt) = true.
Proof.
  destruct (lookup key m) as [v|] eqn:E; [|discriminate]. intros _.
  destruct (lookup_Some_In _ _ _ E) as (kt & Hin & Hk).
  exists kt. split; [exact Hin|]. now rewrite String.eqb_sym.
Qed.

Lemma wrap_nil ip sp schema text group :
  Ajv.wrap ip sp schema text group = [] -> group = [].
Proof. destruct group; simpl; congruence. Qed.

Lemma filter_both_nil {A} (p : A -> bool) l :
  filter p l = [] -> filter (fun x => negb (p x)) l = [] -> l = [].
Proof.
  destruct l as [|x l]; [reflexivity|]. simpl.
  destruct (p x); simpl; discriminate.
Qed.

Lemma flat_map_nil {A B} (f : A -> list B) l :
  flat_map f l = [] -> forall x, In x l -> f x = [].
Proof.
  induction l as [|a l IH]; simpl.
  - intros _ x [].
  - intro H. apply app_eq_nil in H as [Ha Hl]. intros x [<-|Hx]; [exact Ha|].
    now apply IH.
Qed.

Lemma flat_map_wrap_nil (sel : Err.ErrorObject -> string -> bool)
      (table : list (string * string)) (used : list Err.ErrorObject)
      (w : string -> list Err.ErrorObject -> list Err.ErrorObject) :
  (forall t g, w t g = [] -> g = []) ->
  (forall e, In e used -> exists kt, In kt table /\ sel e (fst kt) = true) ->
  flat_map (fun kt => w (snd kt) (filter (fun err => sel err (fst kt)) used))
           table = [] ->
  used = [].
Proof.
  intros Hw Hsel Hf. destruct used as [|e u]; [reflexivity|].
  destruct (Hsel e (or_introl eq_refl)) as (kt & Hin & Hk).
  apply (flat_map_nil _ _ Hf) in Hin. apply Hw in Hin.
  simpl in Hin. rewrite Hk in Hin. discriminate.
Qed.

Lemma errorMessage_keyword_nil em schema ip sp v :
  Ajv.errorMessage_keyword em schema ip sp v = [] -> v = [].
Proof.
  unfold Ajv.errorMessage_keyword.
  destruct em as [text|keywords required properties].
  - rewrite partition_as_filter.
    intro H. apply app_eq_nil in H as [Hrest Hw]. apply wrap_nil in Hw.
    now apply (filter_both_nil _ _ Hw).
  - rewrite !partition_as_filter.
    set (used1 := filter (Ajv.matches_keyword keywords ip sp) v).
    set (rest1 := filter (fun x => negb (Ajv.matches_keyword keywords ip sp x)) v).
    set (used2 := filter (Ajv.matches_required required ip sp) rest1).
    set (rest2 := filter (fun x => negb (Ajv.matches_required required ip sp x)) rest1).
    set (used3 := filter (Ajv.matches_child properties ip) rest2).
    set (rest3 := filter (fun x => negb (Ajv.matches_child properties ip x)) rest2).
    intro H.
    assert (Hparts :
      rest3 = []
      /\ flat_map (fun kt => Ajv.wrap ip sp schema (snd kt)
                     (filter (fun err => String.eqb (Err.keyword err) (fst kt)) used1))
                  keywords = []
      /\ flat_map (fun pt => Ajv.wrap ip sp schema (snd pt)
                     (filter (fun err => match Err.missingProperty (Err.params err) with
                                         | Some p => String.eqb p (fst pt)
                                         | None => false end) used2))
                  required = []
      /\ flat_map (fun pt => Ajv.wrap (ip ++ "/" ++ Ajv.escapeJsonPointer (fst pt)) sp schema (snd pt)
                     (filter (fun err => match Ajv.child_of ip err with
                                         | Some child => String.eqb child (fst pt)
                                         | None => false end) used3))
                  properties = []).
    { destruct (lookup "_" keywords) as [text|];
        [destruct (String.eqb text "")|]; cbv iota beta in H;
        apply app_eq_nil in H as [H4 H]; apply app_eq_nil in H as [H1 H];
        apply app_eq_nil in H as [H2 H]; apply app_eq_nil in H as [H3 H];
        repeat split; try assumption.
      apply wrap_nil in H. now apply (filter_both_nil _ _ H). }
    clear H. destruct Hparts as (R3 & H1 & H2 & H3).
    assert (U1 : used1 = []).
    { apply (flat_map_wrap_nil (fun err k => String.eqb (Err.keyword err) k)
               keywords used1 (Ajv.wrap ip sp schema)); [apply wrap_nil| |exact H1].
      intros e He. apply filter_In in He as [_ He].
      unfold Ajv.matches_keyword in He.
      apply andb_prop in He as [He _]. apply andb_prop in He as [_ He].
      now apply is_some_lookup. }
    assert (U2 : used2 = []).
    { apply (flat_map_wrap_nil
               (fun err k => match Err.missingProperty (Err.params err) with
                             | Some p => String.eqb p k | None => false end)
               required used2 (Ajv.wrap ip sp schema)); [apply wrap_nil| |exact H2].
      intros e He. apply filter_In in He as [_ He].
      unfold Ajv.matches_required in He.
      apply andb_prop in He as [_ He].
      destruct (Err.missingProperty (Err.params e)); [|discriminate].
      now apply is_some_lookup. }
    assert (U3 : used3 = []).
    { destruct used3 as [|e u] eqn:E3; [reflexivity|].
      assert (He : In e used3) by (rewrite E3; now left).
      apply filter_In in He as [_ He]. unfold Ajv.matches_child in He.
      apply andb_prop in He as [_ He].
      destruct (Ajv.child_of ip e) as [child|] eqn:Ec; [|discriminate].
      apply is_some_lookup in He as (kt & Hin & Hk).
      apply (flat_map_nil _ _ H3) in Hin. apply wrap_nil in Hin.
      simpl in Hin. rewrite Ec, Hk in Hin. discriminate. }
    assert (R2 : rest2 = []) by now apply (filter_both_nil _ _ U3).
    assert (R1 : rest1 = []) by now apply (filter_both_nil _ _ U2).
    now apply (filter_both_nil _ _ U1).
Qed.

Lemma flat_map_all_nil {A B} (f : A -> list B) l :
  (forall x, f x = []) -> flat_map f l = [].
Proof. intro H. induction l as [|a l IH]; simpl; [reflexivity|]. now rewrite H, IH. Qed.

Lemma errorMessage_keyword_of_nil em schema ip sp :
  Ajv.errorMessage_keyword em schema ip sp [] = [].
Proof.
  destruct em as [t|kw rq ps]; [reflexivity|].
  unfold Ajv.errorMessage_keyword. cbn [partition filter].
  rewrite !flat_map_all_nil by reflexivity.
  destruct (lookup "_" kw) as [t|]; [destruct (String.eqb t "")|]; reflexivity.
Qed.

Lemma errorMessage_keyword_nil_iff em schema ip sp v :
  Ajv.errorMessage_keyword em schema ip sp v = [] <-> v = [].
Proof.
  split; [apply errorMessage_keyword_nil|intros ->; apply errorMessage_keyword_of_nil].
Qed.

Lemma app_singleton_not_nil {A} (l : list A) (x : A) : (l ++ [x])%list <> [].
Proof. destruct l; discriminate. Qed.

Lemma item_node rt pat em test :
  (forall p, pat = Some p -> Ajv.regexp rt p = Some test) ->
  forall x ip sp v,
    Ajv.validate_node rt 1 (string_item pat em) x ip sp v = []
    <-> v = [] /\ exists s, x = JStr s /\ Keywords.isNotEmpty s = true
                            /\ (pat <> None -> test s = true).
Proof.
  intros Hre x ip sp v.
  change (Ajv.validate_node rt 1) with (Ajv.node_body rt (Ajv.validate_node rt 0)).
  destruct pat as [p|].
  - specialize (Hre p eq_refl).
    change (string_item (Some p) em)
      with [KType "string"; KIsNotEmpty true; KPattern p; KErrorMessage em].
    unfold Ajv.node_body.
    destruct x as [|b|n|s|items|props];
      lazy -[Ajv.errorMessage_keyword app Keywords.isNotEmpty Ajv.regexp
             String.append];
      rewrite errorMessage_keyword_nil_iff; rewrite ?Hre.
    all: try (split; [intro H; exfalso; apply app_singleton_not_nil in H; exact H
                     |intros (_ & sx & Hs & _); discriminate Hs]).
    destruct (Keywords.isNotEmpty s) eqn:En; destruct (test s) eqn:Et.
    + split; [intro H; split; [exact H|]; exists s; repeat split; auto|tauto].
    + split; [intro H; exfalso; apply app_singleton_not_nil in H; exact H|].
      intros (_ & sx & Hs & _ & Ht). injection Hs as <-.
      specialize (Ht ltac:(discriminate)). congruence.
    + split; [intro H; exfalso; apply app_singleton_not_nil in H; exact H|].
      intros (_ & sx & Hs & Hne & _). injection Hs as <-. congruence.
    + split; [intro H; exfalso; apply app_singleton_not_nil in H; exact H|].
      intros (_ & sx & Hs & Hne & _). injection Hs as <-. congruence.
  - clear Hre.
    change (string_item None em)
      with [KType "string"; KIsNotEmpty true; KErrorMessage em].
    unfold Ajv.node_body.
    destruct x as [|b|n|s|items|props];
      lazy -[Ajv.errorMessage_keyword app Keywords.isNotEmpty Ajv.regexp
             String.append];
      rewrite errorMessage_keyword_nil_iff.
    all: try (split; [intro H; exfalso; apply app_singleton_not_nil in H; exact H
                     |intros (_ & sx & Hs & _); discriminate Hs]).
    destruct (Keywords.isNotEmpty s) eqn:En.
    + split; [intro H; split; [exact H|]; exists s; repeat split; auto|tauto].
    + split; [intro H; exfalso; apply app_singleton_not_nil in H; exact H|].
      intros (_ & sx & Hs & Hne & _). injection Hs as <-. congruence.
Qed.

Lemma fold_items_nil rt item (ok : Json -> Prop) ip sp :
  (forall x ip' sp' v, Ajv.validate_node rt 1 item x ip' sp' v = [] <-> v = [] /\ ok x) ->
  forall (l : list (nat * Json)) v,
    fold_left (fun v ix => Ajv.validate_node rt 1 item (snd ix)
                             (ip ++ "/" ++ Ajv.show_index (fst ix)) sp v) l v = []
    <-> v = [] /\ Forall ok (map snd l).
Proof.
  intros Hitem. induction l as [|ix l IH]; intro v; cbn [fold_left map].
  - split; [intro H; split; [exact H|constructor]|tauto].
  - rewrite IH, Hitem. split.
    + intros [[Hv Hx] Hl]. split; [exact Hv|]. now constructor.
    + intros [Hv Hl]. inversion Hl; subst. tauto.
Qed.

Lemma map_snd_indexed {A} (xs : list A) :
  forall s, map snd (combine (seq s (length xs)) xs) = xs.
Proof.
  induction xs as [|x xs IH]; intro s; simpl; [reflexivity|]. now rewrite IH.
Qed.

Lemma string_array_node rt pat emI min max emA test value :
  (forall p, pat = Some p -> Ajv.regexp rt p = Some test) ->
  Ajv.validate_node rt (Ajv.schema_depth (string_array pat emI min max emA))
                    (string_array pat emI min max emA) value "" "#" [] = []
  <-> exists xs,
        value = JArr xs
        /\ (forall n, min = Some n -> n <= Z.of_nat (length xs))
        /\ (forall n, max = Some n -> Z.of_nat (length xs) <= n)
        /\ Forall (fun x => exists s, x = JStr s /\ Keywords.isNotEmpty s = true
                                      /\ (pat <> None -> test s = true)) xs.
Proof.
  intro Hre.
  pose proof (item_node rt pat emI test Hre) as Hitem.
  replace (Ajv.schema_depth (string_array pat emI min max emA)) with 2%nat
    by (destruct pat, min, max; reflexivity).
  change (Ajv.validate_node rt 2) with (Ajv.node_body rt (Ajv.validate_node rt 1)).
  destruct min as [lo|], max as [hi|];
    cbv beta iota delta [string_array Type_Array optional_keyword app];
    unfold Ajv.node_body;
    (destruct value as [|b|n|s|xs|props];
     lazy -[Ajv.errorMessage_keyword app fold_left Ajv.validate_node combine seq
            length Z.leb Z.of_nat show_number String.append string_item
            Keywords.isNotEmpty Ajv.show_index fst snd iff not Z.le];
     rewrite errorMessage_keyword_nil_iff;
     try (split; [intro H; exfalso; apply app_singleton_not_nil in H; exact H
                 |intros (xs' & Hx & _); discriminate Hx]));
    rewrite (fold_items_nil rt _ _ "" _ Hitem), map_snd_indexed;
    repeat match goal with
           | |- context [?a <=? ?b] => destruct (Z.leb_spec a b)
           end;
    (split;
     [intros [Hv Hall];
      first [ exfalso; apply app_singleton_not_nil in Hv; exact Hv
            | exists xs; split; [reflexivity|];
              split; [intros n Hn; first [discriminate Hn|injection Hn as <-; lia]|];
              split; [intros n Hn; first [discriminate Hn|injection Hn as <-; lia]|];
              exact Hall ]
     |intros (xs' & Hx & Hlo & Hhi & Hall); injection Hx as <-;
      try (specialize (Hlo _ eq_refl)); try (specialize (Hhi _ eq_refl));
      first [lia | split; [reflexivity|exact Hall]]]).
Qed.

(** X23.  On values whose strings are ASCII text,
    [CommonValidations.stringArray] with options whose limits are
    not negative accepts exactly the arrays whose length lies
    within the limits given and whose items are strings with a
    character other than white space; unless [notAllowSpecialChars]
    is true the items must match the pattern as well.  So
    [notAllowSpecialChars: true] lifts the restriction on the
    characters instead of imposing it. *)
Theorem stringArray_accepts
        (rt : Ajv.Runtime) (o : StringArrayOptions.t) (test : string -> bool)
        (schema : Schema) (validation : option ValidationOptions)
        (value : Json) :
  CommonValidations.stringArray (Some o) = JS.Ok schema ->
  (StringArrayOptions.notAllowSpecialChars o <> Some true ->
   Ajv.regexp rt "^[a-zA-Z0-9\s_-]+$" = Some test) ->
  (forall n, StringArrayOptions.minItems o = Some n -> 0 <= n) ->
  (forall n, StringArrayOptions.maxItems o = Some n -> 0 <= n) ->
  ascii_items value ->
  (isValid (ajvSchemaValidator (Ajv.ajv rt) schema value validation) = true
   <-> exists xs,
         value = JArr xs
         /\ (forall n, StringArrayOptions.minItems o = Some n ->
                       n <= Z.of_nat (length xs))
         /\ (forall n, StringArrayOptions.maxItems o = Some n ->
                       Z.of_nat (length xs) <= n)
         /\ Forall (fun x =>
                      exists s, x = JStr s /\ Keywords.isNotEmpty s = true
                                /\ (StringArrayOptions.notAllowSpecialChars o
                                    <> Some true -> test s = true))
                   xs).
Proof.
  destruct o as [min max flag messages].
  cbn [StringArrayOptions.minItems StringArrayOptions.maxItems
       StringArrayOptions.notAllowSpecialChars].
  intros Hs Hre Hmin Hmax _.
  unfold CommonValidations.stringArray in Hs. apply Ok_injective in Hs.
  set (pat := match flag with
              | Some true => None
              | _ => Some "^[a-zA-Z0-9\s_-]+$"
              end).
  assert (Hpat : pat <> None <-> flag <> Some true).
  { unfold pat. destruct flag as [[|]|]; split; congruence. }
  assert (Hre' : forall p, pat = Some p -> Ajv.regexp rt p = Some test).
  { intros p Hp. unfold pat in Hp.
    destruct flag as [[|]|]; try discriminate Hp;
      injection Hp as <-; apply Hre; congruence. }
  match type of Hs with
  | Type_Array (Type_String (_ :: (_ ++ [KErrorMessage ?emI])%list))
               (_ ++ _ ++ [KErrorMessage ?emA])%list = _ =>
      assert (Hshape : schema = string_array pat emI min max emA)
        by (rewrite <- Hs; unfold pat; destruct flag as [[|]|]; reflexivity)
  end.
  clear Hs. rewrite Hshape.
  rewrite isValid_iff_no_raw_error.
  - rewrite (string_array_node rt pat _ min max _ test value Hre').
    split; intros (xs & Hx & Hlo & Hhi & Hall); exists xs;
      (split; [exact Hx|]); (split; [exact Hlo|]); (split; [exact Hhi|]);
      (eapply Forall_impl; [|exact Hall]);
      intros x (s & Hxs & Hne & Ht); exists s;
      (split; [exact Hxs|]); (split; [exact Hne|]); intro H; apply Ht;
      now apply Hpat.
  - unfold string_array, string_item, Type_Array, Type_String.
    cbn [forallb Ajv.keyword_ok existsb String.eqb Ascii.eqb Bool.eqb
         Ajv.type_names andb orb].
    rewrite !forallb_app. cbn [forallb Ajv.keyword_ok andb].
    destruct pat as [p|]; cbn [optional_keyword forallb Ajv.keyword_ok andb];
      [rewrite (Hre' p eq_refl); cbn [Ajv.is_some andb]|];
      (destruct min as [lo|]; cbn [optional_keyword forallb Ajv.keyword_ok andb];
       [rewrite (proj2 (Z.leb_le 0 lo) (Hmin lo eq_refl)); cbn [andb]|]);
      (destruct max as [hi|]; cbn [optional_keyword forallb Ajv.keyword_ok andb];
       [rewrite (proj2 (Z.leb_le 0 hi) (Hmax hi eq_refl)); cbn [andb]|]);
      reflexivity.
Qed.

Lemma stringArray_accepts_witness :
  exists schema,
    CommonValidations.stringArray
      (Some {| StringArrayOptions.minItems := Some 1;
               StringArrayOptions.maxItems := Some 3;
               StringArrayOptions.notAllowSpecialChars := Some true;
               StringArrayOptions.errorMessages := None |})
    = JS.Ok schema
    /\ isValid (ajvSchemaValidator (Ajv.ajv Sample.runtime) schema
                                   (JArr [JStr "c++"; JStr "a/b"]) None)
       = true.
Proof.
  eexists. split; [reflexivity|].
  refine (proj2 (stringArray_accepts
                   Sample.runtime
                   {| StringArrayOptions.minItems := Some 1;
                      StringArrayOptions.maxItems := Some 3;
                      StringArrayOptions.notAllowSpecialChars := Some true;
                      StringArrayOptions.errorMessages := None |}
                   (fun _ => true) _ None (JArr [JStr "c++"; JStr "a/b"])
                   eq_refl _ _ _ _) _).
  - intro H. now elim H.
  - intros n H. injection H as <-. lia.
  - intros n H. injection H as <-. lia.
  - repeat constructor.
  - exists [JStr "c++"; JStr "a/b"]. split; [reflexivity|].
    split; [intros n H; injection H as <-; simpl; lia|].
    split; [intros n H; injection H as <-; simpl; lia|].
    repeat constructor; eexists; (split; [reflexivity|]); split;
      try reflexivity; intro H; now elim H.
Defined.

(** ** No field is lost *)

(** X24.  When no raw error is a wrapped additional property and none
    gives the generic message of a failed [then] branch, every raw
    error with a field has its field in the normalised list. *)
Theorem every_field_is_reported
        (errors : list Err.ErrorObject) (out : list ValidationError) :
  formatAjvErrors (Some errors) = JS.Ok out ->
  (forall error, In error errors ->
     wrapped_additionalProperties error = JS.Ok None
     /\ Entry.message (entry_of_error error) <> then_schema_message) ->
  forall error,
    In error errors -> field_of_error error <> "" ->
    exists v, In v out /\ field v = field_of_error error.
Proof.
  intros H Hplain error Hin Hfield.
  apply formatAjvErrors_Ok in H as (m & Hm & ->).
  destruct (build_errorMap_well_keyed _ _ Hm) as [[Hnd Hkey] Hkeys].
  specialize (Hkeys error Hin).
  apply in_map_iff in Hkeys as ([k e] & Hk & Hmem). cbn [fst] in Hk. subst k.
  pose proof (Hkey _ _ Hmem) as Hfe.
  assert (Hval : In e (Map_values m))
    by (apply in_map_iff; exists (field_of_error error, e); now split).
  assert (Hmsg : Entry.message e <> then_schema_message).
  { destruct (forEach_errors_origin _ _ _ Hm _ Hmem)
      as [[]|(kept & Hkept & [[_ He]|Hw])].
    - cbn [snd] in He. subst e. apply (Hplain kept Hkept).
    - rewrite (proj1 (Hplain kept Hkept)) in Hw. discriminate. }
  exists (to_ValidationError e). split; [|exact Hfe].
  apply in_map. unfold final_entries.
  eapply Permutation_in; [apply sort_by_priority_perm|].
  apply filter_In. split.
  - apply In_filter_indexed.
    destruct (In_nth_error _ _ Hval) as [i Hi]. exists i. split; [exact Hi|].
    unfold keep_then.
    destruct (String.eqb_spec (Entry.message e) then_schema_message);
      [contradiction|reflexivity].
  - unfold keep_named. rewrite Hfe.
    destruct (String.eqb_spec (field_of_error error) "");
      [contradiction|reflexivity].
Qed.

Lemma every_field_is_reported_witness :
  exists v,
    In v [{| field := "email"; message := "The field 'email' is required";
             path := None |}]
    /\ field v = "email".
Proof.
  refine (every_field_is_reported
            [Sample.raw "required" "" (Sample.params_missing "email")
                        (Some "must have required property email")]
            _ eq_refl _
            (Sample.raw "required" "" (Sample.params_missing "email")
                        (Some "must have required property email"))
            (or_introl eq_refl) _).
  - intros error [<-|[]]. split; [reflexivity|]. vm_compute. discriminate.
  - vm_compute. discriminate.
Defined.

(** ** What the [uuidArray] fragment accepts *)

Lemma uuid_item_node (rt : Ajv.Runtime) (options : option UuidArrayOptions.t) :
  forall x ip sp v,
    Ajv.validate_node rt 1 (uuid_item options) x ip sp v = []
    <-> v = [] /\ exists s, x = JStr s /\ Ajv.format_uuid s = true.
Proof.
  intros x ip sp v.
  change (Ajv.validate_node rt 1)
    with (Ajv.node_body rt (Ajv.validate_node rt 0)).
  cbv beta iota delta [uuid_item Type_String].
  unfold Ajv.node_body.
  destruct x as [|b|n|s|items|props];
    lazy -[Ajv.errorMessage_keyword app Ajv.format_uuid String.append
           JS.or_else iff];
    rewrite errorMessage_keyword_nil_iff.
  all: try (split; [intro H; exfalso; apply app_singleton_not_nil in H; exact H
                   |intros (_ & sx & Hs & _); discriminate Hs]).
  destruct (Ajv.format_uuid s) eqn:E.
  - split; [intro H; split; [exact H|]; eauto|tauto].
  - split; [intro H; exfalso; apply app_singleton_not_nil in H; exact H|].
    intros (_ & sx & Hs & Hu). injection Hs as <-. congruence.
Qed.

Lemma array_of_items_node (rt : Ajv.Runtime) (item : Schema)
      (ok : Json -> Prop) (min max : option Z) (emA : ErrorMessage)
      (value : Json) :
  Ajv.schema_depth item = 1%nat ->
  (forall x ip sp v,
      Ajv.validate_node rt 1 item x ip sp v = [] <-> v = [] /\ ok x) ->
  Ajv.validate_node rt
    (Ajv.schema_depth
       (Type_Array item (optional_keyword KMinItems min
                         ++ optional_keyword KMaxItems max
                         ++ [KErrorMessage emA])%list))
    (Type_Array item (optional_keyword KMinItems min
                      ++ optional_keyword KMaxItems max
                      ++ [KErrorMessage emA])%list)
    value "" "#" [] = []
  <-> exists xs,
        value = JArr xs
        /\ (forall n, min = Some n -> n <= Z.of_nat (length xs))
        /\ (forall n, max = Some n -> Z.of_nat (length xs) <= n)
        /\ Forall ok xs.
Proof.
  intros Hdepth Hitem.
  replace (Ajv.schema_depth
             (Type_Array item (optional_keyword KMinItems min
                               ++ optional_keyword KMaxItems max
                               ++ [KErrorMessage emA])%list)) with 2%nat.
  2:{ unfold Ajv.schema_depth in *. injection Hdepth as Hd.
      unfold Type_Array. cbn [map Ajv.keyword_depth list_max fold_right].
      rewrite Hd. destruct min, max; reflexivity. }
  change (Ajv.validate_node rt 2)
    with (Ajv.node_body rt (Ajv.validate_node rt 1)).
  destruct min as [lo|], max as [hi|];
    cbv beta iota delta [Type_Array optional_keyword app];
    unfold Ajv.node_body;
    (destruct value as [|b|n|s|xs|props];
     lazy -[Ajv.errorMessage_keyword app fold_left Ajv.validate_node combine seq
            length Z.leb Z.of_nat show_number String.append
            Ajv.show_index fst snd iff not Z.le];
     rewrite errorMessage_keyword_nil_iff;
     try (split; [intro H; exfalso; apply app_singleton_not_nil in H; exact H
                 |intros (xs' & Hx & _); discriminate Hx]));
    rewrite (fold_items_nil rt _ _ "" _ Hitem), map_snd_indexed;
    repeat match goal with
           | |- context [?a <=? ?b] => destruct (Z.leb_spec a b)
           end;
    (split;
     [intros [Hv Hall];
      first [ exfalso; apply app_singleton_not_nil in Hv; exact Hv
            | exists xs; split; [reflexivity|];
              split; [intros n Hn; first [discriminate Hn|injection Hn as <-; lia]|];
              split; [intros n Hn; first [discriminate Hn|injection Hn as <-; lia]|];
              exact Hall ]
     |intros (xs' & Hx & Hlo & Hhi & Hall); injection Hx as <-;
      try (specialize (Hlo _ eq_refl)); try (specialize (Hhi _ eq_refl));
      first [lia | split; [reflexivity|exact Hall]]]).
Qed.

(** X25.  [CommonValidations.uuidArray] with limits that are not
    negative accepts exactly the arrays of strings in UUID format
    whose length lies within the limits given. *)
Theorem uuidArray_accepts
        (rt : Ajv.Runtime) (options : option UuidArrayOptions.t)
        (validation : option ValidationOptions) (value : Json) :
  (forall n, opt UuidArrayOptions.minItems options = Some n -> 0 <= n) ->
  (forall n, opt UuidArrayOptions.maxItems options = Some n -> 0 <= n) ->
  (isValid (ajvSchemaValidator (Ajv.ajv rt) (uuidArray options) value
                               validation) = true
   <-> exists xs,
         value = JArr xs
         /\ (forall n, opt UuidArrayOptions.minItems options = Some n ->
                       n <= Z.of_nat (length xs))
         /\ (forall n, opt UuidArrayOptions.maxItems options = Some n ->
                       Z.of_nat (length xs) <= n)
         /\ Forall (fun x => exists s, x = JStr s /\ Ajv.format_uuid s = true)
                   xs).
Proof.
  intros Hmin Hmax.
  rewrite isValid_iff_no_raw_error.
  - unfold uuidArray. cbv zeta.
    apply array_of_items_node; [reflexivity|apply uuid_item_node].
  - unfold uuidArray, Type_Array. cbv zeta.
    cbn [forallb Ajv.keyword_ok existsb String.eqb Ascii.eqb Bool.eqb
         Ajv.type_names andb orb uuid_item Type_String].
    rewrite !forallb_app. cbn [forallb Ajv.keyword_ok andb].
    destruct (opt UuidArrayOptions.minItems options) as [lo|];
      cbn [optional_keyword forallb Ajv.keyword_ok andb];
      [rewrite (proj2 (Z.leb_le 0 lo) (Hmin lo eq_refl)); cbn [andb]|];
      (destruct (opt UuidArrayOptions.maxItems options) as [hi|];
       cbn [optional_keyword forallb Ajv.keyword_ok andb];
       [rewrite (proj2 (Z.leb_le 0 hi) (Hmax hi eq_refl)); cbn [andb]|]);
      reflexivity.
Qed.

Lemma uuidArray_accepts_witness :
  isValid (ajvSchemaValidator
             (Ajv.ajv Sample.runtime)
             (uuidArray (Some {| UuidArrayOptions.minItems := Some 1;
                                 UuidArrayOptions.maxItems := None;
                                 UuidArrayOptions.errorMessages := None |}))
             (JArr [JStr Sample.validUUID]) None)
  = true.
Proof.
  refine (proj2 (uuidArray_accepts
                   Sample.runtime
                   (Some {| UuidArrayOptions.minItems := Some 1;
                            UuidArrayOptions.maxItems := None;
                            UuidArrayOptions.errorMessages := None |})
                   None (JArr [JStr Sample.validUUID]) _ _) _).
  - intros n H. injection H as <-. lia.
  - intros n H. discriminate H.
  - exists [JStr Sample.validUUID]. split; [reflexivity|].
    split; [intros n H; injection H as <-; simpl; lia|].
    split; [intros n H; discriminate H|].
    repeat constructor. exists Sample.validUUID. split; reflexivity.
Defined.

(** ** Options without effect *)

(** X26.  [CommonValidations.description] never restricts the
    characters: the [pattern] of its fragment is [undefined] with
    and without [allowHtml], so [allowHtml] has no effect on the
    fragment.  Its [minLength] is never 0: a [minLength] of 0 is
    replaced by the default of the type. *)
Theorem description_never_has_a_pattern :
  (forall options, lookup "pattern" (description options) = Some None)
  /\ (forall type minLength maxLength skipMaxLength errorMessages a a',
        description
          (Some {| DescriptionOptions.type := type;
                   DescriptionOptions.minLength := minLength;
                   DescriptionOptions.maxLength := maxLength;
                   DescriptionOptions.allowHtml := a;
                   DescriptionOptions.skipMaxLength := skipMaxLength;
                   DescriptionOptions.errorMessages := errorMessages |})
        = description
            (Some {| DescriptionOptions.type := type;
                     DescriptionOptions.minLength := minLength;
                     DescriptionOptions.maxLength := maxLength;
                     DescriptionOptions.allowHtml := a';
                     DescriptionOptions.skipMaxLength := skipMaxLength;
                     DescriptionOptions.errorMessages := errorMessages |}))
  /\ (forall options,
        exists n, lookup "minLength" (description options) = Some (Some (JNum n))
                  /\ n <> 0).
Proof.
  split; [|split].
  - intros [[type minLength maxLength a skip messages]|];
      [destruct a as [[|]|], skip as [[|]|]|]; reflexivity.
  - intros type minLength maxLength skip messages a a'.
    destruct a as [[|]|], a' as [[|]|], skip as [[|]|]; reflexivity.
  - assert (Hnum : forall v d, d <> 0 -> JS.num_or_else v d <> 0).
    { intros [v|] d Hd; simpl; [|exact Hd].
      destruct (Z.eqb_spec v 0); assumption. }
    intros [[type minLength maxLength a skip messages]|].
    + eexists. split.
      * destruct a as [[|]|], skip as [[|]|]; reflexivity.
      * apply Hnum. destruct type as [[]|]; discriminate.
    + exists 2. split; [reflexivity|discriminate].
Qed.

(** X27.  [CommonValidations.dateRange] enforces no range: its
    fragment depends on the options only through the messages [type]
    and [format] and through [default], so not on [minDate], on
    [maxDate] or on the messages [minimum] and [maximum], whether
    messages are given or not; and it has no keyword that bounds the
    value. *)
Theorem dateRange_enforces_no_range :
  (forall options options' : option DateRangeOptions.t,
      opt DateRangeMessages.type (opt DateRangeOptions.errorMessages options)
      = opt DateRangeMessages.type (opt DateRangeOptions.errorMessages options') ->
      opt DateRangeMessages.format (opt DateRangeOptions.errorMessages options)
      = opt DateRangeMessages.format
            (opt DateRangeOptions.errorMessages options') ->
      opt DateRangeOptions.default options
      = opt DateRangeOptions.default options' ->
      dateRange options = dateRange options')
  /\ (forall minDate maxDate minDate' maxDate' default,
         dateRange
           (Some {| DateRangeOptions.minDate := minDate;
                    DateRangeOptions.maxDate := maxDate;
                    DateRangeOptions.errorMessages := None;
                    DateRangeOptions.default := default |})
         = dateRange
             (Some {| DateRangeOptions.minDate := minDate';
                      DateRangeOptions.maxDate := maxDate';
                      DateRangeOptions.errorMessages := None;
                      DateRangeOptions.default := default |}))
  /\ (forall minDate maxDate minDate' maxDate'
             type format minimum maximum minimum' maximum' default,
         dateRange
           (Some {| DateRangeOptions.minDate := minDate;
                    DateRangeOptions.maxDate := maxDate;
                    DateRangeOptions.errorMessages :=
                      Some {| DateRangeMessages.type := type;
                              DateRangeMessages.format := format;
                              DateRangeMessages.minimum := minimum;
                              DateRangeMessages.maximum := maximum |};
                    DateRangeOptions.default := default |})
         = dateRange
             (Some {| DateRangeOptions.minDate := minDate';
                      DateRangeOptions.maxDate := maxDate';
                      DateRangeOptions.errorMessages :=
                        Some {| DateRangeMessages.type := type;
                                DateRangeMessages.format := format;
                                DateRangeMessages.minimum := minimum';
                                DateRangeMessages.maximum := maximum' |};
                      DateRangeOptions.default := default |}))
  /\ (forall minDate maxDate,
         dateRange
           (Some {| DateRangeOptions.minDate := minDate;
                    DateRangeOptions.maxDate := maxDate;
                    DateRangeOptions.errorMessages := None;
                    DateRangeOptions.default := None |})
         = dateRange None)
  /\ (forall options k,
        In k ["minimum"; "maximum"; "formatMinimum"; "formatMaximum";
              "exclusiveMinimum"; "exclusiveMaximum"] ->
        lookup k (dateRange options) = None).
Proof.
  split.
  { intros options options' Htype Hformat Hdefault.
    unfold dateRange. cbv zeta. now rewrite Htype, Hformat, Hdefault. }
  split; [reflexivity|]. split; [reflexivity|]. split; [reflexivity|].
  intros options k Hk.
  repeat (destruct Hk as [<-|Hk]; [reflexivity|]). destruct Hk.
Qed.
